(** * pytube/request.py: ranged and sequence-numbered retrieval

    A shallow embedding of [src/pytube/request.py].  The module layout
    follows the Python file: first the pieces of the Python runtime and
    of [urllib.parse] the file calls, then [_execute_request], [stream],
    [seq_stream], [seq_filesize] and [head].

    Conventions.
    - A Python [int] is a [Z]; a [str] is a [string] (8-bit characters, that
      is, the ASCII text a URL or a header is made of); a [bytes] value is a
      [list byte].
    - An exception is a value of [exn]; a call that can raise returns a sum
      [exn + A].
    - A generator is run to exhaustion by its consumer; the model returns the
      chunks it yielded, in order, with the way the iteration ended.
    - The network is the parameter [urlopen], which stands for
      [Request(...)] followed by [urlopen(request)]: a function from the
      requests made so far and the current request to a response or an
      exception. *)

From Stdlib Require Import ZArith List Bool Lia.
From Stdlib Require Import Strings.Ascii Strings.String Strings.Byte.
From Stdlib Require Import Numbers.DecimalString Numbers.DecimalPos Numbers.DecimalZ.
Import ListNotations.
Local Open Scope string_scope.
Local Open Scope list_scope.
Local Open Scope Z_scope.

Set Implicit Arguments.

(** ** Python values *)

Definition bytes := list byte.

Inductive exn : Type :=
| ValueError (msg : string)
| KeyError (key : string)
| IndexError
| AttributeError
| UnboundLocalError (name : string)
| RegexMatchError (caller : string) (pattern : bytes)
| URLError (reason : string).

(** [len] of a [bytes] value. *)
Definition len (b : bytes) : Z := Z.of_nat (List.length b).

Module PyStr.

Definition is_digit (c : ascii) : bool :=
  (48 <=? nat_of_ascii c)%nat && (nat_of_ascii c <=? 57)%nat.

Definition digit_value (c : ascii) : Z := Z.of_nat (nat_of_ascii c) - 48.

(** Characters [int()] and [str.strip()] treat as white space. *)
Definition is_space (c : ascii) : bool :=
  let n := nat_of_ascii c in
  ((9 <=? n)%nat && (n <=? 13)%nat) || ((28 <=? n)%nat && (n <=? 32)%nat).

Definition lower_char (c : ascii) : ascii :=
  let n := nat_of_ascii c in
  if (65 <=? n)%nat && (n <=? 90)%nat then ascii_of_nat (n + 32) else c.

(** [s.lower()], on ASCII letters *)
Fixpoint lower (s : string) : string :=
  match s with
  | EmptyString => EmptyString
  | String c s' => String (lower_char c) (lower s')
  end.

(** [s.startswith(p)] *)
Fixpoint startswith (p s : string) : bool :=
  match p, s with
  | EmptyString, _ => true
  | String a p', String b s' => Ascii.eqb a b && startswith p' s'
  | String _ _, EmptyString => false
  end.

Fixpoint lstrip (s : string) : string :=
  match s with
  | EmptyString => EmptyString
  | String c s' => if is_space c then lstrip s' else s
  end.

Fixpoint rstrip (s : string) : string :=
  match s with
  | EmptyString => EmptyString
  | String c s' =>
      match rstrip s' with
      | EmptyString => if is_space c then EmptyString else String c EmptyString
      | r => String c r
      end
  end.

(** [s.split(sep)] for a one-character separator. *)
Fixpoint split (sep : ascii) (s : string) : list string :=
  match s with
  | EmptyString => [EmptyString]
  | String c s' =>
      if Ascii.eqb c sep then EmptyString :: split sep s'
      else match split sep s' with
           | piece :: rest => String c piece :: rest
           | [] => [String c EmptyString]
           end
  end.

(** [s.split(sep, 1)]: the text before the first separator and, when there
    is a separator, the text after it. *)
Fixpoint split1 (sep : ascii) (s : string) : string * option string :=
  match s with
  | EmptyString => (EmptyString, None)
  | String c s' =>
      if Ascii.eqb c sep then (EmptyString, Some s')
      else let (a, b) := split1 sep s' in (String c a, b)
  end.

(** The digits of a decimal literal, where single underscores may separate
    digits. [after_digit] tells whether the previous character was a
    digit. *)
Fixpoint literal_value (acc : Z) (after_digit : bool) (s : string) : option Z :=
  match s with
  | EmptyString => if after_digit then Some acc else None
  | String c s' =>
      if is_digit c then literal_value (10 * acc + digit_value c) true s'
      else if Ascii.eqb c "_" then
             if after_digit then literal_value acc false s' else None
           else None
  end.

(** [int(s)] for a [str]: [None] stands for [ValueError]. *)
Definition int (s : string) : option Z :=
  match rstrip (lstrip s) with
  | String "-" s' => option_map Z.opp (literal_value 0 false s')
  | String "+" s' => literal_value 0 false s'
  | s' => literal_value 0 false s'
  end.

(** [str(n)] for an [int]. *)
Definition str (n : Z) : string := NilZero.string_of_int (Z.to_int n).

End PyStr.

(** ** [dict] with [str] keys

    An association list in insertion order, without duplicate keys. *)

Module PyDict.

Definition dict (V : Type) : Type := list (string * V).

(** [d[k] = v]: an existing key keeps its place. *)
Fixpoint setitem {V} (k : string) (v : V) (d : dict V) : dict V :=
  match d with
  | [] => [(k, v)]
  | (k', v') :: d' =>
      if String.eqb k' k then (k, v) :: d' else (k', v') :: setitem k v d'
  end.

(** [d[k]]: [None] stands for [KeyError]. *)
Fixpoint getitem {V} (k : string) (d : dict V) : option V :=
  match d with
  | [] => None
  | (k', v') :: d' => if String.eqb k' k then Some v' else getitem k d'
  end.

(** [dict(pairs)], also the result of a dict comprehension over [pairs]. *)
Definition of_pairs {V} (pairs : list (string * V)) : dict V :=
  fold_left (fun d kv => setitem (fst kv) (snd kv) d) pairs [].

End PyDict.

(** ** [urllib.parse]

    The functions of the standard library that [seq_stream] and
    [seq_filesize] use to take a URL apart and put it together again.  A
    [str] stands for its UTF-8 code units, so that percent-escapes are one
    per character.  Left out: the control characters and spaces that
    [urlsplit] strips from a URL, the check of bracketed hosts, and the
    replacement of bytes that are not UTF-8 after [unquote]. *)

Module parse.

Local Open Scope string_scope.

Record SplitResult : Type := {
  scheme : string;
  netloc : string;
  path : string;
  query : string;
  fragment : string
}.

Definition is_alpha (c : ascii) : bool :=
  let n := nat_of_ascii c in
  ((65 <=? n)%nat && (n <=? 90)%nat) || ((97 <=? n)%nat && (n <=? 122)%nat).

Definition one_of (chars : string) (c : ascii) : bool :=
  existsb (Ascii.eqb c) (list_ascii_of_string chars).

(** [scheme_chars]: letters, digits and ["+-."]. *)
Definition scheme_char (c : ascii) : bool :=
  is_alpha c || PyStr.is_digit c || one_of "+-." c.

Fixpoint all_chars (p : ascii -> bool) (s : string) : bool :=
  match s with
  | EmptyString => true
  | String c s' => p c && all_chars p s'
  end.

(** The longest prefix made of characters satisfying [p], and the rest. *)
Fixpoint span (p : ascii -> bool) (s : string) : string * string :=
  match s with
  | EmptyString => (EmptyString, EmptyString)
  | String c s' =>
      if p c then let (a, b) := span p s' in (String c a, b)
      else (EmptyString, s)
  end.

(** The scheme of a URL, lower-cased, and what follows the colon. *)
Definition split_scheme (url : string) : string * string :=
  match PyStr.split1 ":" url with
  | (String c0 rest0, Some after) =>
      if is_alpha c0 && all_chars scheme_char rest0
      then (PyStr.lower (String c0 rest0), after)
      else (EmptyString, url)
  | _ => (EmptyString, url)
  end.

(** [_splitnetloc(url, 2)] after a leading ["//"]. *)
Definition split_netloc (url : string) : string * string :=
  match url with
  | String "/" (String "/" rest) => span (fun c => negb (one_of "/?#" c)) rest
  | _ => (EmptyString, url)
  end.

(** [urlsplit(url)] *)
Definition urlsplit (url : string) : SplitResult :=
  let (sch, url1) := split_scheme url in
  let (loc, url2) := split_netloc url1 in
  let (url3, frag) := PyStr.split1 "#" url2 in
  let (pth, qry) := PyStr.split1 "?" url3 in
  {| scheme := sch; netloc := loc; path := pth;
     query := match qry with Some q => q | None => EmptyString end;
     fragment := match frag with Some f => f | None => EmptyString end |}.

Definition hex_value (c : ascii) : option nat :=
  let n := nat_of_ascii c in
  if PyStr.is_digit c then Some (n - 48)%nat
  else if (65 <=? n)%nat && (n <=? 70)%nat then Some (n - 55)%nat
  else if (97 <=? n)%nat && (n <=? 102)%nat then Some (n - 87)%nat
  else None.

(** [unquote(s)]: every ["%XY"] with two hexadecimal digits is replaced by
    the character it names; any other ["%"] is kept. *)
Fixpoint unquote (s : string) : string :=
  match s with
  | EmptyString => EmptyString
  | String c tl =>
      if Ascii.eqb c "%" then
        match tl with
        | String a (String b rest) =>
            match hex_value a, hex_value b with
            | Some h, Some l => String (ascii_of_nat (16 * h + l)) (unquote rest)
            | _, _ => String c (unquote tl)
            end
        | _ => String c (unquote tl)
        end
      else String c (unquote tl)
  end.

(** [s.replace('+', ' ')] *)
Fixpoint plus_to_space (s : string) : string :=
  match s with
  | EmptyString => EmptyString
  | String c s' => String (if Ascii.eqb c "+" then " "%char else c) (plus_to_space s')
  end.

(** One field of a query string, as [parse_qsl] reads it with its default
    [keep_blank_values=False]: a field without ["="] or with nothing after
    it is dropped. *)
Definition parse_field (name_value : string) : list (string * string) :=
  match PyStr.split1 "=" name_value with
  | (name, Some (String v0 vs)) =>
      [(unquote (plus_to_space name), unquote (plus_to_space (String v0 vs)))]
  | _ => []
  end.

(** [parse_qsl(qs)] *)
Definition parse_qsl (qs : string) : list (string * string) :=
  flat_map parse_field (PyStr.split "&" qs).

Definition hex_digit (n : nat) : ascii :=
  if (n <? 10)%nat then ascii_of_nat (48 + n) else ascii_of_nat (55 + n).

(** The characters [quote] never escapes: letters, digits and ["_.-~"]. *)
Definition always_safe (c : ascii) : bool :=
  is_alpha c || PyStr.is_digit c || one_of "_.-~" c.

(** [quote_plus(s)] *)
Fixpoint quote_plus (s : string) : string :=
  match s with
  | EmptyString => EmptyString
  | String c s' =>
      if always_safe c then String c (quote_plus s')
      else if Ascii.eqb c " " then String "+" (quote_plus s')
      else let n := nat_of_ascii c in
           String "%" (String (hex_digit (n / 16)) (String (hex_digit (n mod 16))
                                                        (quote_plus s')))
  end.

(** A value stored in the query mapping: a [str] read from the URL or the
    [int] stored under ['sq']. *)
Inductive qvalue : Type :=
| QStr (s : string)
| QInt (n : Z).

Definition str_of (v : qvalue) : string :=
  match v with
  | QStr s => s
  | QInt n => PyStr.str n
  end.

(** [dict(pairs)]: a later pair replaces the value of an earlier one with
    the same key. *)
Definition dict_of (pairs : list (string * string)) : PyDict.dict qvalue :=
  PyDict.of_pairs (map (fun kv => (fst kv, QStr (snd kv))) pairs).

Fixpoint join (sep : string) (l : list string) : string :=
  match l with
  | [] => EmptyString
  | [x] => x
  | x :: rest => x ++ sep ++ join sep rest
  end.

(** [urlencode(d)] *)
Definition urlencode (d : PyDict.dict qvalue) : string :=
  join "&" (map (fun kv => quote_plus (fst kv) ++ "=" ++ quote_plus (str_of (snd kv))) d).

End parse.

(** ** [bytes] operations used on the body of segment 0 *)

Module PyBytes.

Definition CR : byte := x0d.
Definition LF : byte := x0a.

(** [b.split(b'\r\n')] *)
Fixpoint split_crlf (b : bytes) : list bytes :=
  match b with
  | [] => [[]]
  | c :: tl =>
      match Byte.eqb c CR, tl with
      | true, c' :: tl' =>
          if Byte.eqb c' LF then [] :: split_crlf tl'
          else match split_crlf tl with
               | piece :: rest => (c :: piece) :: rest
               | [] => [[c]]
               end
      | _, _ =>
          match split_crlf tl with
          | piece :: rest => (c :: piece) :: rest
          | [] => [[c]]
          end
      end
  end.

Definition is_digit (c : byte) : bool :=
  (48 <=? Byte.to_N c)%N && (Byte.to_N c <=? 57)%N.

(** [s] without the prefix [p], when it starts with it. *)
Fixpoint strip_prefix (p s : bytes) : option bytes :=
  match p, s with
  | [], _ => Some s
  | x :: p', y :: s' => if Byte.eqb x y then strip_prefix p' s' else None
  | _ :: _, [] => None
  end.

(** The longest run of decimal digits at the start of [s]. *)
Fixpoint take_digits (s : bytes) : bytes :=
  match s with
  | c :: s' => if is_digit c then c :: take_digits s' else []
  | [] => []
  end.

(** [int(ds)] for a run of decimal digits. *)
Definition int_of_digits (ds : bytes) : Z :=
  fold_left (fun acc c => 10 * acc + (Z.of_N (Byte.to_N c) - 48)) ds 0.

End PyBytes.

(** ** [pytube.request] *)

Definition default_chunk_size : Z := 4096.
Definition default_range_size : Z := 9437184.

(** The literal text of [b'Segment-Count: (\\d+)']. *)
Definition segment_regex : bytes := list_byte_of_string "Segment-Count: (\d+)".
Definition segment_count_marker : bytes := list_byte_of_string "Segment-Count: ".

(** A match of [Segment-Count: (\d+)] that begins at the first byte of
    [line]: its group 1. *)
Definition match_here (line : bytes) : option bytes :=
  match PyBytes.strip_prefix segment_count_marker line with
  | Some rest =>
      match PyBytes.take_digits rest with
      | [] => None
      | ds => Some ds
      end
  | None => None
  end.

(** [segment_count_pattern.search(line)]: group 1 of the leftmost match. *)
Fixpoint search (line : bytes) : option bytes :=
  match match_here line with
  | Some ds => Some ds
  | None =>
      match line with
      | [] => None
      | _ :: tl => search tl
      end
  end.

(** Modelled from the spec: [pytube.helpers.regex_search] is not in this
    file.  With the pattern and group [seq_filesize] passes, it returns
    group 1 of the first match in [line] and raises [RegexMatchError] when
    the line does not match (section 4.1: lines that do not match are skipped;
    the caller's [except RegexMatchError] is what skips them). *)
Definition regex_search (line : bytes) : exn + bytes :=
  match search line with
  | Some ds => inr ds
  | None => inl (RegexMatchError "regex_search" segment_regex)
  end.

(** What [response.info()["Content-Range"]] does: the mapping may raise
    [KeyError] for a missing key (a [dict]), return [None] for it (an
    [email.message.Message]), or return the value. *)
Inductive getitem_result : Type :=
| RaisesKeyError
| ReturnsNone
| Returns (value : string).

(** A response, as far as this file looks at it. *)
Record response : Type := {
  content_range : getitem_result;     (* info()["Content-Range"] *)
  items : list (string * string);     (* info().items() *)
  body : bytes                        (* what read() delivers, in all *)
}.

(** A request handed to [urlopen].  [req_range = Some (a, b)] is the header
    [Range: bytes=a-b].  The [User-Agent] and [accept-language] headers,
    which every request carries, are left out. *)
Record request : Type := {
  req_url : string;
  req_method : option string;
  req_range : option (Z * Z)
}.

(** How a call, or the consumption of a generator, ended: it returned a
    value ([tt] for the [None] of a generator), or raised.  [Unfinished] is
    given when a loop was still running after the number of passes allowed
    to the model. *)
Inductive outcome (A : Type) : Type :=
| Returned (a : A)
| Raised (e : exn)
| Unfinished.
Arguments Raised {A} e.
Arguments Unfinished {A}.

(** [response.read(n)] on the part of the body not read yet. *)
Definition read (n : Z) (rest : bytes) : bytes * bytes :=
  if n <? 0 then (rest, [])
  else (firstn (Z.to_nat n) rest, skipn (Z.to_nat n) rest).

(** The chunks of the loop [while True: chunk = response.read(chunk_size)
    ...]. Each chunk but the last, empty one takes at least one byte, so
    [S (length rest)] reads are enough. *)
Fixpoint read_chunks (reads : nat) (chunk_size : Z) (rest : bytes) : list bytes :=
  match reads with
  | O => []
  | S reads' =>
      let (chunk, rest') := read chunk_size rest in
      match chunk with
      | [] => []
      | _ => chunk :: read_chunks reads' chunk_size rest'
      end
  end.

Definition read_body (chunk_size : Z) (b : bytes) : list bytes :=
  read_chunks (S (List.length b)) chunk_size b.

(** [int(content_range.split("/")[1])] *)
Definition content_range_total (r : response) : exn + Z :=
  match content_range r with
  | RaisesKeyError => inl (KeyError "Content-Range")
  | ReturnsNone => inl AttributeError
  | Returns v =>
      match nth_error (PyStr.split "/" v) 1 with
      | None => inl IndexError
      | Some total =>
          match PyStr.int total with
          | None => inl (ValueError "invalid literal for int()")
          | Some n => inr n
          end
      end
  end.

(** [except (KeyError, IndexError, ValueError)] *)
Definition caught (e : exn) : bool :=
  match e with
  | KeyError _ | IndexError | ValueError _ => true
  | _ => false
  end.

(** The local state of one [stream] call, with what it has done so far:
    [net] the requests made (oldest first), [yielded] the chunks yielded,
    [logged] the exceptions given to [logger.error], [assigned] the values
    assigned to [file_size] after its initialisation. *)
Record StreamState : Type := {
  file_size : Z;
  downloaded : Z;
  net : list request;
  yielded : list bytes;
  logged : list exn;
  assigned : list Z
}.

(** The state of one [seq_stream] call: the requests made, the chunks
    yielded, and the URLs [stream] was called with, oldest first. *)
Record SeqState : Type := {
  seq_net : list request;
  seq_yielded : list bytes;
  fetched : list string
}.

(** ['%s://%s/%s?' % (split_url.scheme, split_url.netloc, split_url.path)] *)
Definition base_url_of (split_url : parse.SplitResult) : string :=
  (parse.scheme split_url ++ "://" ++ parse.netloc split_url ++ "/"
     ++ parse.path split_url ++ "?")%string.

(** [querys['sq'] = seq_num; url = base_url + parse.urlencode(querys)] *)
Definition set_sq (seq_num : Z) (querys : PyDict.dict parse.qvalue)
    : PyDict.dict parse.qvalue :=
  PyDict.setitem "sq" (parse.QInt seq_num) querys.

(** The URL both functions request for sequence number [seq_num], starting
    from the caller's [url]. *)
Definition seq_url (url : string) (seq_num : Z) : string :=
  let split_url := parse.urlsplit url in
  let querys := parse.dict_of (parse.parse_qsl (parse.query split_url)) in
  (base_url_of split_url ++ parse.urlencode (set_sq seq_num querys))%string.

(** The loop [for line in stream_info] of [seq_stream]: [segment_count] is
    [None] while the name is unbound. *)
Fixpoint scan_lines (segment_count : option Z) (stream_info : list bytes)
    : option Z :=
  match stream_info with
  | [] => segment_count
  | line :: rest =>
      match search line with
      | Some ds => scan_lines (Some (PyBytes.int_of_digits ds)) rest
      | None => scan_lines segment_count rest
      end
  end.

(** The loop [for line in stream_info] of [seq_filesize]. *)
Fixpoint scan_lines_filesize (segment_count : Z) (stream_info : list bytes)
    : exn + Z :=
  match stream_info with
  | [] => inr segment_count
  | line :: rest =>
      match regex_search line with
      | inr ds => scan_lines_filesize (PyBytes.int_of_digits ds) rest
      | inl (RegexMatchError _ _) => scan_lines_filesize segment_count rest
      | inl e => inl e
      end
  end.

(** The state in which [stream] enters its loop: [file_size = range_size],
    the placeholder, and [downloaded = 0]. *)
Definition stream_start (sent : list request) (range_size : Z) : StreamState :=
  {| file_size := range_size; downloaded := 0; net := sent;
     yielded := []; logged := []; assigned := [] |}.

Section Network.

(** [urlopen]: the response to a request, given the requests made before
    it. *)
Variable urlopen : list request -> request -> exn + response.

(** [_execute_request(url, method, headers)], with the requests made so
    far. *)
Definition _execute_request (sent : list request) (url : string)
    (method : option string) (range : option (Z * Z))
    : (exn + response) * list request :=
  if PyStr.startswith "http" (PyStr.lower url) then
    let request := {| req_url := url; req_method := method; req_range := range |} in
    (urlopen sent request, sent ++ [request])
  else (inl (ValueError "Invalid URL"), sent).

(** The block [if file_size == range_size: try: ... except ...]. *)
Definition discover_size (range_size : Z) (r : response) (st : StreamState)
    : exn + StreamState :=
  if file_size st =? range_size then
    match content_range_total r with
    | inr n =>
        inr {| file_size := n; downloaded := downloaded st; net := net st;
               yielded := yielded st; logged := logged st;
               assigned := assigned st ++ [n] |}
    | inl e =>
        if caught e then
          inr {| file_size := file_size st; downloaded := downloaded st;
                 net := net st; yielded := yielded st;
                 logged := logged st ++ [e]; assigned := assigned st |}
        else inl e
    end
  else inr st.

(** The block [while True: chunk = response.read(chunk_size) ...]. *)
Definition read_response (chunk_size : Z) (r : response) (st : StreamState)
    : StreamState :=
  let chunks := read_body chunk_size (body r) in
  {| file_size := file_size st;
     downloaded := fold_left (fun d chunk => d + len chunk) chunks (downloaded st);
     net := net st; yielded := yielded st ++ chunks;
     logged := logged st; assigned := assigned st |}.

Definition with_net (sent : list request) (st : StreamState) : StreamState :=
  {| file_size := file_size st; downloaded := downloaded st; net := sent;
     yielded := yielded st; logged := logged st; assigned := assigned st |}.

(** One pass of the body of [while downloaded < file_size]. *)
Definition stream_pass (url : string) (chunk_size range_size : Z)
    (st : StreamState) : option exn * StreamState :=
  let stop_pos := Z.min (downloaded st + range_size) (file_size st) - 1 in
  match _execute_request (net st) url (Some "GET") (Some (downloaded st, stop_pos)) with
  | (inl e, sent) => (Some e, with_net sent st)
  | (inr r, sent) =>
      match discover_size range_size r (with_net sent st) with
      | inl e => (Some e, with_net sent st)
      | inr st' => (None, read_response chunk_size r st')
      end
  end.

(** The loop of [stream], for at most [passes] passes. *)
Fixpoint stream_loop (passes : nat) (url : string) (chunk_size range_size : Z)
    (st : StreamState) : outcome unit * StreamState :=
  if downloaded st <? file_size st then
    match passes with
    | O => (Unfinished, st)
    | S passes' =>
        match stream_pass url chunk_size range_size st with
        | (Some e, st') => (Raised e, st')
        | (None, st') => stream_loop passes' url chunk_size range_size st'
        end
    end
  else (Returned tt, st).

(** [stream(url, chunk_size, range_size)], consumed to its end, after the
    requests [sent]. *)
Definition stream (passes : nat) (sent : list request) (url : string)
    (chunk_size range_size : Z) : outcome unit * StreamState :=
  stream_loop passes url chunk_size range_size (stream_start sent range_size).


(** The loop [while seq_num <= segment_count] of [seq_stream]; it makes
    [segment_count + 1 - seq_num] passes, which [todo] bounds. *)
Fixpoint seq_stream_loop (todo passes : nat) (base_url : string)
    (querys : PyDict.dict parse.qvalue) (seq_num segment_count : Z)
    (st : SeqState) : outcome unit * SeqState :=
  if seq_num <=? segment_count then
    match todo with
    | O => (Unfinished, st)
    | S todo' =>
        let querys := set_sq seq_num querys in
        let url := (base_url ++ parse.urlencode querys)%string in
        let (o, s) := stream passes (seq_net st) url
                        default_chunk_size default_range_size in
        let st' := {| seq_net := net s;
                      seq_yielded := seq_yielded st ++ yielded s;
                      fetched := fetched st ++ [url] |} in
        match o with
        | Returned _ =>
            seq_stream_loop todo' passes base_url querys (seq_num + 1)
              segment_count st'
        | _ => (o, st')
        end
    end
  else (Returned tt, st).

(** [seq_stream(url, chunk_size, range_size)], consumed to its end, after
    the requests [sent]; every inner [stream] call is allowed [passes]
    passes. *)
Definition seq_stream (passes : nat) (sent : list request) (url : string)
    (chunk_size range_size : Z) : outcome unit * SeqState :=
  let split_url := parse.urlsplit url in
  let base_url := base_url_of split_url in
  let querys := parse.dict_of (parse.parse_qsl (parse.query split_url)) in
  let querys := set_sq 0 querys in
  let url := (base_url ++ parse.urlencode querys)%string in
  let (o, s) := stream passes sent url default_chunk_size default_range_size in
  let segment_data := List.concat (yielded s) in
  let st := {| seq_net := net s; seq_yielded := yielded s; fetched := [url] |} in
  match o with
  | Returned _ =>
      match scan_lines None (PyBytes.split_crlf segment_data) with
      | None => (Raised (UnboundLocalError "segment_count"), st)
      | Some segment_count =>
          seq_stream_loop (Z.to_nat segment_count) passes base_url querys 1
            segment_count st
      end
  | _ => (o, st)
  end.

(** [head(url)]: the headers with lower-cased names. *)
Definition head (sent : list request) (url : string)
    : (exn + PyDict.dict string) * list request :=
  match _execute_request sent url (Some "HEAD") None with
  | (inl e, sent') => (inl e, sent')
  | (inr r, sent') =>
      (inr (PyDict.of_pairs (map (fun kv => (PyStr.lower (fst kv), snd kv)) (items r))),
       sent')
  end.

(** [int(head(url)['content-length'])] *)
Definition head_content_length (sent : list request) (url : string)
    : (exn + Z) * list request :=
  match head sent url with
  | (inl e, sent') => (inl e, sent')
  | (inr headers, sent') =>
      match PyDict.getitem "content-length" headers with
      | None => (inl (KeyError "content-length"), sent')
      | Some v =>
          match PyStr.int v with
          | None => (inl (ValueError "invalid literal for int()"), sent')
          | Some n => (inr n, sent')
          end
      end
  end.

(** The loop [while seq_num <= segment_count] of [seq_filesize]. *)
Fixpoint seq_filesize_loop (todo : nat) (base_url : string)
    (querys : PyDict.dict parse.qvalue) (seq_num segment_count : Z)
    (total_filesize : Z) (sent : list request)
    : outcome Z * list request :=
  if seq_num <=? segment_count then
    match todo with
    | O => (Unfinished, sent)
    | S todo' =>
        let querys := set_sq seq_num querys in
        let url := (base_url ++ parse.urlencode querys)%string in
        match head_content_length sent url with
        | (inl e, sent') => (Raised e, sent')
        | (inr n, sent') =>
            seq_filesize_loop todo' base_url querys (seq_num + 1)
              segment_count (total_filesize + n) sent'
        end
    end
  else (Returned total_filesize, sent).

(** [seq_filesize(url)], one evaluation of the function under its
    [lru_cache], after the requests [sent]. *)
Definition seq_filesize (sent : list request) (url : string)
    : outcome Z * list request :=
  let total_filesize := 0 in
  let split_url := parse.urlsplit url in
  let base_url := base_url_of split_url in
  let querys := parse.dict_of (parse.parse_qsl (parse.query split_url)) in
  let querys := set_sq 0 querys in
  let url := (base_url ++ parse.urlencode querys)%string in
  match _execute_request sent url (Some "GET") None with
  | (inl e, sent') => (Raised e, sent')
  | (inr r, sent') =>
      let response_value := body r in
      let total_filesize := total_filesize + len response_value in
      match scan_lines_filesize 0 (PyBytes.split_crlf response_value) with
      | inl e => (Raised e, sent')
      | inr segment_count =>
          if segment_count =? 0 then
            (Raised (RegexMatchError "seq_filesize" segment_regex), sent')
          else
            seq_filesize_loop (Z.to_nat segment_count) base_url querys 1
              segment_count total_filesize sent'
      end
  end.

End Network.

(** ** Vocabulary of the statements *)

(** The URL has the form [_execute_request] accepts. *)
Definition accepted (url : string) : Prop :=
  PyStr.startswith "http" (PyStr.lower url) = true.

(** The ranged GET that [stream] makes for the window [[a, b]]. *)
Definition range_request (url : string) (w : Z * Z) : request :=
  {| req_url := url; req_method := Some "GET"; req_range := Some w |}.

Definition get_request (url : string) : request :=
  {| req_url := url; req_method := Some "GET"; req_range := None |}.

Definition head_request (url : string) : request :=
  {| req_url := url; req_method := Some "HEAD"; req_range := None |}.

(** The bytes of [data] at the offsets [a .. b], as far as they exist. *)
Definition slice (a b : Z) (data : bytes) : bytes :=
  firstn (Z.to_nat (b + 1 - a)) (skipn (Z.to_nat a) data).

(** The payload [data] is served under [url]: every response to a window
    that starts within the payload discloses the total [len data] and
    delivers the requested window. *)
Definition serves (urlopen : list request -> request -> exn + response)
    (url : string) (data : bytes) : Prop :=
  forall sent a b, 0 <= a <= b -> a <= len data ->
    exists r, urlopen sent (range_request url (a, b)) = inr r
              /\ content_range_total r = inr (len data)
              /\ body r = slice a b data.

(** [ceil(S / W)] *)
Definition ceil_div (S W : Z) : Z := (S + W - 1) / W.

(** The windows of the passes that start at [start] once the total [S] is
    known: each is [[start, min(start + W, S) - 1]]. *)
Fixpoint windows (passes : nat) (start W S : Z) : list (Z * Z) :=
  if start <? S then
    match passes with
    | O => []
    | Datatypes.S passes' =>
        (start, Z.min (start + W) S - 1) :: windows passes' (Z.min (start + W) S) W S
    end
  else [].

(** The windows [stream] asks for: the first one is computed from the
    placeholder total [W]. *)
Definition stream_windows (passes : nat) (W S : Z) : list (Z * Z) :=
  match passes with
  | O => []
  | Datatypes.S passes' => (0, W - 1) :: windows passes' (Z.min W S) W S
  end.

(** A ranged request whose window holds at most [range_size] bytes. *)
Definition window_within (range_size : Z) (rq : request) : Prop :=
  exists a b, req_range rq = Some (a, b) /\ b + 1 - a <= range_size.

(** What a run added to the requests and to the chunks: windows of at most
    [range_size] bytes, chunks of at most [chunk_size] bytes. *)
Definition grows (chunk_size range_size : Z)
    (sent sent' : list request) (out out' : list bytes) : Prop :=
  (exists new, sent' = sent ++ new /\ Forall (window_within range_size) new)
  /\ (exists chunks, out' = out ++ chunks
                     /\ Forall (fun chunk => len chunk <= chunk_size) chunks).

(** The sequence numbers [first], [first + 1], ... ([count] of them). *)
Fixpoint seq_numbers (first : Z) (count : nat) : list Z :=
  match count with
  | O => []
  | S count' => first :: seq_numbers (first + 1) count'
  end.

Definition Zsum (l : list Z) : Z := fold_right Z.add 0 l.

(** The header [content-length] of a response to HEAD holds the integer
    [n]. *)
Definition content_length_is (r : response) (n : Z) : Prop :=
  exists v,
    PyDict.getitem "content-length"
      (PyDict.of_pairs (map (fun kv => (PyStr.lower (fst kv), snd kv)) (items r)))
    = Some v
    /\ PyStr.int v = Some n.

(** No response to a window [[a, b]] carries more bytes than the window,
    nor bytes beyond the total it discloses. *)
Definition never_overdelivers (urlopen : list request -> request -> exn + response)
    : Prop :=
  forall sent rq r a b,
    urlopen sent rq = inr r -> req_range rq = Some (a, b) -> 0 <= a <= b ->
    len (body r) <= b + 1 - a
    /\ forall total, content_range_total r = inr total -> a + len (body r) <= total.

(** The characters of a query string made by [urlencode]: the ones never
    escaped, ["+"] for a space, ["%"] with its two digits, ["="] and ["&"]. *)
Definition query_char (c : ascii) : bool :=
  parse.always_safe c || parse.one_of "+%=&" c.

(** The value [parse_qsl] gave last for the key [k]. *)
Definition last_value (k : string) (pairs : list (string * string)) : option string :=
  fold_left (fun acc kv => if String.eqb (fst kv) k then Some (snd kv) else acc)
            pairs None.

(** [Content-Range: bytes a-b/total] *)
Definition content_range_text (a b total : Z) : string :=
  ("bytes " ++ PyStr.str a ++ "-" ++ PyStr.str b ++ "/" ++ PyStr.str total)%string.

(** A server that holds one payload per URL and honours [Range]: a window
    that starts beyond the payload is refused, a request without [Range]
    gets the whole payload. *)
Definition range_server (payload : string -> bytes)
    : list request -> request -> exn + response :=
  fun _ rq =>
    let data := payload (req_url rq) in
    let length_header := [("Content-Length", PyStr.str (len data))] in
    match req_range rq with
    | Some (a, b) =>
        if len data <? a then inl (URLError "HTTP Error 416: Range Not Satisfiable")
        else
          inr {| content_range :=
                   Returns (content_range_text a (Z.min b (len data - 1)) (len data));
                 items := length_header;
                 body := slice a b data |}
    | None =>
        inr {| content_range := RaisesKeyError; items := length_header; body := data |}
    end.

(** A resource of two segments behind segment 0, the first of them empty. *)
Definition sample_segments (seq_num : Z) : bytes :=
  if seq_num =? 0 then
    list_byte_of_string "Segment-Count: 2" ++ [PyBytes.CR; PyBytes.LF]
      ++ list_byte_of_string "header"
  else if seq_num =? 1 then []
  else list_byte_of_string "0123456789".

Definition sample_url : string := "http://host/video?id=1".

Definition sample_payload (url : string) : bytes :=
  if String.eqb url (seq_url sample_url 0) then sample_segments 0
  else if String.eqb url (seq_url sample_url 1) then sample_segments 1
  else sample_segments 2.

(** A server without support for [Range]: every response is the whole
    payload, with no [Content-Range]. *)
Definition plain_server (data : bytes)
    : list request -> request -> exn + response :=
  fun _ _ => inr {| content_range := RaisesKeyError;
                    items := [("Content-Length", PyStr.str (len data))];
                    body := data |}.

(** The state of [stream] that the claims are about: [downloaded] within
    [0 .. file_size], and [file_size] assigned only while it was still the
    placeholder. *)
Definition stream_invariant (range_size : Z) (st : StreamState) : Prop :=
  0 <= downloaded st <= file_size st
  /\ Forall (fun n => n = range_size) (removelast (assigned st))
  /\ file_size st = last (assigned st) range_size.

(** The requests of the [stream] call for segment [k] of [url]. *)
Definition segment_requests (url : string) (passes : nat) (segment : Z -> bytes)
    (k : Z) : list request :=
  map (range_request (seq_url url k))
      (stream_windows passes default_range_size (len (segment k))).

(** The query mapping of [url], before ['sq'] is set. *)
Definition url_querys (url : string) : PyDict.dict parse.qvalue :=
  parse.dict_of (parse.parse_qsl (parse.query (parse.urlsplit url))).

(** The value of a decimal numeral read from its most significant digit,
    after the digits already read gave [acc]. *)
Fixpoint numeral_value (d : Decimal.uint) (acc : Z) : Z :=
  match d with
  | Decimal.Nil => acc
  | Decimal.D0 d => numeral_value d (10 * acc)
  | Decimal.D1 d => numeral_value d (10 * acc + 1)
  | Decimal.D2 d => numeral_value d (10 * acc + 2)
  | Decimal.D3 d => numeral_value d (10 * acc + 3)
  | Decimal.D4 d => numeral_value d (10 * acc + 4)
  | Decimal.D5 d => numeral_value d (10 * acc + 5)
  | Decimal.D6 d => numeral_value d (10 * acc + 6)
  | Decimal.D7 d => numeral_value d (10 * acc + 7)
  | Decimal.D8 d => numeral_value d (10 * acc + 8)
  | Decimal.D9 d => numeral_value d (10 * acc + 9)
  end.

(** ** Vocabulary for runs against an arbitrary server *)

(** A chunk list as [stream] builds it: no chunk is empty. *)
Definition no_empty_chunk (chunks : list bytes) : Prop :=
  Forall (fun chunk => chunk <> []) chunks.

(** The counter [downloaded] agrees with the chunks yielded so far, none of
    which is empty. *)
Definition counted (st : StreamState) : Prop :=
  no_empty_chunk (yielded st)
  /\ downloaded st = len (List.concat (yielded st)).

(** A ranged GET for [url] whose window [[a, b]] is not empty, starts at a
    valid offset and holds at most [range_size] bytes. *)
Definition proper_window (url : string) (range_size : Z) (rq : request) : Prop :=
  exists a b, rq = range_request url (a, b) /\ 0 <= a <= b /\ b + 1 - a <= range_size.

(** The sample resource behind a server that sends no [Content-Length]
    for segment 2. *)
Definition lossy_server : list request -> request -> exn + response :=
  fun sent rq =>
    if String.eqb (req_url rq) (seq_url sample_url 2) then
      inr {| content_range := RaisesKeyError; items := []; body := [] |}
    else range_server sample_payload sent rq.

(** What [stream] has made of the responses so far: every exception it
    logged is one the [except] clause lists, and each request led to at
    most one log entry or assignment of [file_size]. *)
Definition parsed_once (sent : list request) (st : StreamState) : Prop :=
  Forall (fun e => caught e = true) (logged st)
  /\ (List.length (logged st) + List.length (assigned st) + List.length sent
      <= List.length (net st))%nat.

(** ** [filesize] and [functools.lru_cache]

    [filesize] and [seq_filesize] are decorated with [lru_cache()]: each
    keeps the results of its last 128 distinct arguments, and a call with an
    argument it holds returns the kept result without running the
    function.  An exception is not kept. *)

Module lru.

(** [maxsize], the default of [lru_cache()]. *)
Definition maxsize : nat := 128.

(** The cache of one decorated function: the arguments it holds with
    their results, the least recently used first. *)
Definition cache (V : Type) : Type := list (string * V).

Definition lookup {V} (key : string) (c : cache V) : option V :=
  PyDict.getitem key c.

Definition remove {V} (key : string) (c : cache V) : cache V :=
  filter (fun kv => negb (String.eqb (fst kv) key)) c.

(** A hit makes the entry the most recently used one. *)
Definition touch {V} (key : string) (v : V) (c : cache V) : cache V :=
  remove key c ++ [(key, v)].

(** A new result is added as the most recently used entry; in a full
    cache it takes the place of the least recently used one. *)
Definition store {V} (key : string) (v : V) (c : cache V) : cache V :=
  (if (List.length c <? maxsize)%nat then c else tl c) ++ [(key, v)].

(** A call of the decorated function [f] with the argument [key]. *)
Definition call {V} (f : list request -> string -> outcome V * list request)
    (c : cache V) (sent : list request) (key : string)
    : outcome V * cache V * list request :=
  match lookup key c with
  | Some v => (Returned v, touch key v c, sent)
  | None =>
      match f sent key with
      | (Returned v, sent') => (Returned v, store key v c, sent')
      | (o, sent') => (o, c, sent')
      end
  end.

(** What a cache is at any time: no argument twice, at most [maxsize]
    entries. *)
Definition wellformed {V} (c : cache V) : Prop :=
  NoDup (map fst c) /\ (List.length c <= maxsize)%nat.

End lru.

Section Cached.

Variable urlopen : list request -> request -> exn + response.

(** The body of [filesize]: [int(head(url)["content-length"])]. *)
Definition filesize_body (sent : list request) (url : string)
    : outcome Z * list request :=
  match head_content_length urlopen sent url with
  | (inl e, sent') => (Raised e, sent')
  | (inr n, sent') => (Returned n, sent')
  end.

(** [filesize(url)], with the cache of the function and the requests made
    so far. *)
Definition filesize (c : lru.cache Z) (sent : list request) (url : string)
    : outcome Z * lru.cache Z * list request :=
  lru.call filesize_body c sent url.

(** [seq_filesize(url)] with its cache; [seq_filesize] above is the
    function under the decorator. *)
Definition seq_filesize_cached (c : lru.cache Z) (sent : list request)
    (url : string) : outcome Z * lru.cache Z * list request :=
  lru.call (seq_filesize urlopen) c sent url.

End Cached.

(** The header names of a response, lower-cased as [head] does. *)
Definition lowered (pairs : list (string * string)) : list (string * string) :=
  map (fun kv => (PyStr.lower (fst kv), snd kv)) pairs.

(** A cache that holds the sizes of the URLs [u0], [u1], ... ([count] of
    them), [u0] being the least recently used. *)
Definition sample_cache (count : nat) : lru.cache Z :=
  map (fun i => (("http://host/u" ++ PyStr.str (Z.of_nat i))%string, Z.of_nat i))
      (seq 0 count).

(** ** The requests in full: headers, [data], [get] and [post]

    Above, a request is its URL, its method and its window, which is all
    [stream], [seq_stream], [seq_filesize] and [head] vary.  This part
    models [_execute_request] with everything it hands to [Request]: the
    headers it builds over the caller's and the encoded [data].
    [json.dumps] is a parameter; the number [draw] is what the random
    generator gives to [random.choice]. *)

Module Full.

Definition USER_AGENTS : list string :=
  [
   "Mozilla/5.0 (Windows NT 10.0; Win64; x64; rv:86.0) Gecko/20100101 Firefox/86.0";
   "Mozilla/5.0 (Macintosh; Intel Mac OS X 11.2; rv:86.0) Gecko/20100101 Firefox/86.0";
   "Mozilla/5.0 (X11; Linux i686; rv:86.0) Gecko/20100101 Firefox/86.0";
   "Mozilla/5.0 (Linux x86_64; rv:86.0) Gecko/20100101 Firefox/86.0";
   "Mozilla/5.0 (X11; Ubuntu; Linux i686; rv:86.0) Gecko/20100101 Firefox/86.0";
   "Mozilla/5.0 (X11; Ubuntu; Linux x86_64; rv:86.0) Gecko/20100101 Firefox/86.0";
   "Mozilla/5.0 (X11; Fedora; Linux x86_64; rv:86.0) Gecko/20100101 Firefox/86.0";
   "Mozilla/5.0 (iPhone; CPU iPhone OS 11_2_3 like Mac OS X) AppleWebKit/605.1.15 (KHTML, like Gecko) FxiOS/32.0 Mobile/15E148 Safari/605.1.15";
   "Mozilla/5.0 (iPad; CPU OS 11_2_3 like Mac OS X) AppleWebKit/605.1.15 (KHTML, like Gecko) FxiOS/32.0 Mobile/15E148 Safari/605.1.15";
   "Mozilla/5.0 (iPod touch; CPU iPhone OS 11_2_3 like Mac OS X) AppleWebKit/604.5.6 (KHTML, like Gecko) FxiOS/32.0 Mobile/15E148 Safari/605.1.15";
   "Mozilla/5.0 (Android 11; Mobile; rv:68.0) Gecko/68.0 Firefox/86.0";
   "Mozilla/5.0 (Android 11; Mobile; LG-M255; rv:86.0) Gecko/86.0 Firefox/86.0";
   "Mozilla/5.0 (Windows NT 10.0; Win64; x64) AppleWebKit/537.36 (KHTML, like Gecko) Chrome/89.0.4389.82 Safari/537.36";
   "Mozilla/5.0 (Windows NT 10.0; WOW64) AppleWebKit/537.36 (KHTML, like Gecko) Chrome/89.0.4389.82 Safari/537.36";
   "Mozilla/5.0 (Windows NT 10.0) AppleWebKit/537.36 (KHTML, like Gecko) Chrome/89.0.4389.82 Safari/537.36";
   "Mozilla/5.0 (Macintosh; Intel Mac OS X 11_2_3) AppleWebKit/537.36 (KHTML, like Gecko) Chrome/89.0.4389.82 Safari/537.36";
   "Mozilla/5.0 (X11; Linux x86_64) AppleWebKit/537.36 (KHTML, like Gecko) Chrome/89.0.4389.82 Safari/537.36";
   "Mozilla/5.0 (iPhone; CPU iPhone OS 14_4 like Mac OS X) AppleWebKit/605.1.15 (KHTML, like Gecko) CriOS/87.0.4280.77 Mobile/15E148 Safari/604.1";
   "Mozilla/5.0 (iPad; CPU OS 14_4 like Mac OS X) AppleWebKit/605.1.15 (KHTML, like Gecko) CriOS/87.0.4280.77 Mobile/15E148 Safari/604.1";
   "Mozilla/5.0 (iPod; CPU iPhone OS 14_4 like Mac OS X) AppleWebKit/605.1.15 (KHTML, like Gecko) CriOS/87.0.4280.77 Mobile/15E148 Safari/604.1";
   "Mozilla/5.0 (Linux; Android 10) AppleWebKit/537.36 (KHTML, like Gecko) Chrome/89.0.4389.86 Mobile Safari/537.36"
  ].

(** [random.choice(seq)] *)
Definition choice (draw : nat) (seq : list string) : string :=
  nth (draw mod List.length seq) seq EmptyString.

(** The exceptions of this part: those of the first part, the
    [TypeError] of [json.dumps] and the [UnicodeDecodeError] of
    [bytes.decode]. *)
Inductive error : Type :=
| Exn (e : exn)
| TypeError
| UnicodeDecodeError.

(** The values [data] can be: [None], [bytes], or an object for
    [json.dumps]. *)
#[warnings="-register-all"] Inductive value : Type :=
| VNone
| VBytes (b : bytes)
| VBool (b : bool)
| VInt (n : Z)
| VStr (s : string)
| VList (l : list value)
| VDict (d : list (string * value)).

(** The truth value [if data:] tests. *)
Definition truthy (v : value) : bool :=
  match v with
  | VNone => false
  | VBytes b => match b with [] => false | _ => true end
  | VBool b => b
  | VInt n => negb (n =? 0)
  | VStr s => match s with EmptyString => false | _ => true end
  | VList l => match l with [] => false | _ => true end
  | VDict d => match d with [] => false | _ => true end
  end.

(** What [_execute_request] gives to [Request]. *)
Record Request : Type := {
  full_url : string;
  headers : PyDict.dict string;
  method : option string;
  data : value
}.

(** [d.update(h)] *)
Definition update {V} (d h : PyDict.dict V) : PyDict.dict V :=
  fold_left (fun d kv => PyDict.setitem (fst kv) (snd kv) d) h d.

Definition base_headers (draw : nat) : PyDict.dict string :=
  [("User-Agent", choice draw USER_AGENTS); ("accept-language", "en-US,en")].

(** [base_headers] after [if headers: base_headers.update(headers)]. *)
Definition merged_headers (draw : nat) (headers : option (PyDict.dict string))
    : PyDict.dict string :=
  match headers with
  | Some ((_ :: _) as h) => update (base_headers draw) h
  | _ => base_headers draw
  end.

Definition byte_value (b : byte) : Z := Z.of_N (Byte.to_N b).

Definition between (lo hi : Z) (b : byte) : bool :=
  (lo <=? byte_value b) && (byte_value b <=? hi).

(** The byte sequences [bytes.decode("utf-8")] accepts: the well-formed
    ones, without overlong forms, surrogates or code points above
    U+10FFFF. *)
Fixpoint utf8_valid (b : bytes) : bool :=
  match b with
  | [] => true
  | b1 :: rest1 =>
      if between 0 127 b1 then utf8_valid rest1
      else
        match rest1 with
        | [] => false
        | b2 :: rest2 =>
            if between 194 223 b1 then between 128 191 b2 && utf8_valid rest2
            else
              match rest2 with
              | [] => false
              | b3 :: rest3 =>
                  if between 224 239 b1 then
                    (if between 224 224 b1 then between 160 191 b2
                     else if between 237 237 b1 then between 128 159 b2
                     else between 128 191 b2)
                    && between 128 191 b3 && utf8_valid rest3
                  else
                    match rest3 with
                    | [] => false
                    | b4 :: rest4 =>
                        between 240 244 b1
                        && (if between 240 240 b1 then between 144 191 b2
                            else if between 244 244 b1 then between 128 143 b2
                            else between 128 191 b2)
                        && between 128 191 b3 && between 128 191 b4
                        && utf8_valid rest4
                    end
              end
        end
  end.

(** [b.decode("utf-8")]; a [str] stands for its UTF-8 code units. *)
Definition decode (b : bytes) : error + string :=
  if utf8_valid b then inr (string_of_list_byte b) else inl UnicodeDecodeError.

(** [f"bytes={downloaded}-{stop_pos}"] *)
Definition range_header (downloaded stop_pos : Z) : string :=
  ("bytes=" ++ PyStr.str downloaded ++ "-" ++ PyStr.str stop_pos)%string.

Section Detailed.

(** [json.dumps]: [None] when it raises [TypeError]. *)
Variable dumps : value -> option string.

(** [Request(...)] followed by [urlopen(request)]. *)
Variable urlopen : list Request -> Request -> exn + response.

(** The block [if data: if not isinstance(data, bytes): ...]. *)
Definition encode (data : value) : error + value :=
  if truthy data then
    match data with
    | VBytes _ => inr data
    | _ =>
        match dumps data with
        | Some text => inr (VBytes (list_byte_of_string text))
        | None => inl TypeError
        end
    end
  else inr data.

(** [_execute_request(url, method, headers, data)] *)
Definition _execute_request (draw : nat) (sent : list Request) (url : string)
    (method : option string) (headers : option (PyDict.dict string))
    (data : value) : (error + response) * list Request :=
  let base_headers := merged_headers draw headers in
  match encode data with
  | inl e => (inl e, sent)
  | inr data =>
      if PyStr.startswith "http" (PyStr.lower url) then
        let request := {| full_url := url; headers := base_headers;
                          method := method; data := data |} in
        (match urlopen sent request with
         | inl e => inl (Exn e)
         | inr r => inr r
         end, sent ++ [request])
      else (inl (Exn (ValueError "Invalid URL")), sent)
  end.

(** [get(url, extra_headers)] *)
Definition get (draw : nat) (sent : list Request) (url : string)
    (extra_headers : option (PyDict.dict string))
    : (error + string) * list Request :=
  let extra_headers :=
    match extra_headers with Some h => h | None => [] end in
  match _execute_request draw sent url None (Some extra_headers) VNone with
  | (inl e, sent') => (inl e, sent')
  | (inr r, sent') => (decode (body r), sent')
  end.

(** [post(url, extra_headers, data)].  The third component is the
    caller's [extra_headers] after the call: [post] updates the
    dictionary it was given. *)
Definition post (draw : nat) (sent : list Request) (url : string)
    (extra_headers : option (PyDict.dict string)) (data : value)
    : (error + string) * list Request * option (PyDict.dict string) :=
  let given := extra_headers in
  let extra_headers :=
    match extra_headers with Some h => h | None => [] end in
  let data := match data with VNone => VDict [] | _ => data end in
  let extra_headers := update extra_headers [("Content-Type", "application/json")] in
  let given := option_map (fun _ => extra_headers) given in
  match _execute_request draw sent url None (Some extra_headers) data with
  | (inl e, sent') => (inl e, sent', given)
  | (inr r, sent') => (decode (body r), sent', given)
  end.

End Detailed.

(** The window a [Range] header of the form [bytes=a-b] names. *)
Definition parse_range (v : string) : option (Z * Z) :=
  match v with
  | String "b" (String "y" (String "t" (String "e" (String "s" (String "=" w))))) =>
      match PyStr.split1 "-" w with
      | (a, Some b) =>
          match PyStr.int a, PyStr.int b with
          | Some a, Some b => Some (a, b)
          | _, _ => None
          end
      | _ => None
      end
  | _ => None
  end.

(** What the first part of this file keeps of a request. *)
Definition abstract (rq : Request) : request :=
  {| req_url := full_url rq;
     req_method := method rq;
     req_range := match PyDict.getitem "Range" (headers rq) with
                  | Some v => parse_range v
                  | None => None
                  end |}.

(** The headers [stream] passes for a window; [seq_filesize] and [head]
    pass none. *)
Definition range_headers (range : option (Z * Z)) : option (PyDict.dict string) :=
  option_map (fun w => [("Range", range_header (fst w) (snd w))]) range.

(** A byte of a body that is ASCII text. *)
Definition is_ascii (b : byte) : Prop := byte_value b < 128.

(** The bytes that occur in no UTF-8 text. *)
Definition never_in_utf8 (b : byte) : bool :=
  between 192 193 b || between 245 255 b.

End Full.


(** * The model of the Python library, checked on values

    The right-hand sides are what CPython 3.11 gives for the same calls. *)

Example urlsplit_plain :
  parse.urlsplit "http://host/video?id=1"
  = {| parse.scheme := "http"; parse.netloc := "host"; parse.path := "/video";
       parse.query := "id=1"; parse.fragment := EmptyString |}.
Proof. reflexivity. Qed.

Example urlsplit_upper_case :
  parse.urlsplit "HTTPS://h:80?x#f"
  = {| parse.scheme := "https"; parse.netloc := "h:80"; parse.path := EmptyString;
       parse.query := "x"; parse.fragment := "f" |}.
Proof. reflexivity. Qed.

Example urlsplit_no_scheme :
  parse.urlsplit "1http://x"
  = {| parse.scheme := EmptyString; parse.netloc := EmptyString;
       parse.path := "1http://x"; parse.query := EmptyString;
       parse.fragment := EmptyString |}.
Proof. reflexivity. Qed.

Example parse_qsl_blank_and_repeated :
  parse.parse_qsl "=1&=&a==&b=c=d&&e" = [(EmptyString, "1"); ("a", "="); ("b", "c=d")].
Proof. reflexivity. Qed.

Example parse_qsl_escapes :
  parse.parse_qsl "a=%41+b&c=%zz&d=%4" = [("a", "A b"); ("c", "%zz"); ("d", "%4")].
Proof. reflexivity. Qed.

Example parse_qsl_semicolon :
  parse.parse_qsl "a=b;c=d&e=f" = [("a", "b;c=d"); ("e", "f")].
Proof. reflexivity. Qed.

Example seq_url_plain :
  seq_url "http://host/video?id=1" 7 = "http://host//video?id=1&sq=7".
Proof. reflexivity. Qed.

Example seq_url_escapes :
  seq_url "http://h/p;k=1?a=b;c=d&e=f" 7 = "http://h//p;k=1?a=b%3Bc%3Dd&e=f&sq=7".
Proof. reflexivity. Qed.

Example seq_url_sq_given :
  seq_url "http://u:p@h:8/p?sq=9&a=1" 7 = "http://u:p@h:8//p?sq=7&a=1".
Proof. reflexivity. Qed.

Example seq_url_no_scheme : seq_url "/a/b" 7 = ":////a/b?sq=7".
Proof. reflexivity. Qed.

Example int_of_text :
  map PyStr.int [" 1_000 "; "-5"; "+12"; "007"; "1__0"; "1_"; "_1"; "*"; "- 5"; "0x10"]
  = [Some 1000; Some (-5); Some 12; Some 7; None; None; None; None; None; None].
Proof. reflexivity. Qed.

Example str_of_int :
  map PyStr.str [0; 12; -3; 9437184] = ["0"; "12"; "-3"; "9437184"].
Proof. reflexivity. Qed.

Example content_range_values :
  map (fun v => content_range_total
                  {| content_range := Returns v; items := []; body := [] |})
      ["bytes 0-9/100"; "bytes 0-9/*"; "nothing"; "a/b/c"; "x/ 12 "]
  = [inr 100; inl (ValueError "invalid literal for int()"); inl IndexError;
     inl (ValueError "invalid literal for int()"); inr 12].
Proof. reflexivity. Qed.

Example split_crlf_lines :
  PyBytes.split_crlf (list_byte_of_string "a" ++ [PyBytes.CR; PyBytes.CR; PyBytes.LF;
                                                   PyBytes.LF; PyBytes.CR])
  = [[x61; PyBytes.CR]; [PyBytes.LF; PyBytes.CR]].
Proof. reflexivity. Qed.

Example search_leftmost :
  map (fun line => option_map PyBytes.int_of_digits (search (list_byte_of_string line)))
      ["Segment-Count: 12x"; "Segment-Count: "; "zzSegment-Count: 7Segment-Count: 9";
       "Segment-Count: Segment-Count: 42"; "segment-count: 4"; "Segment-Count:5";
       "Segment-Count: 007"]
  = [Some 12; None; Some 7; Some 42; None; None; Some 7].
Proof. reflexivity. Qed.

Example read_in_chunks :
  map (fun n => read_body n (list_byte_of_string "abcde"))  [2; 5; 7; -1; 0]
  = map (map list_byte_of_string)
        [["ab"; "cd"; "e"]; ["abcde"]; ["abcde"]; ["abcde"]; []].
Proof. reflexivity. Qed.


(** * Reading a response body *)

Lemma read_parts (n : Z) (rest : bytes) :
  fst (read n rest) ++ snd (read n rest) = rest.
Proof.
  unfold read. destruct (n <? 0); simpl.
  - apply app_nil_r.
  - apply firstn_skipn.
Qed.

Lemma read_zero (rest : bytes) : read 0 rest = ([], rest).
Proof. reflexivity. Qed.

Lemma read_empty_chunk (n : Z) (rest : bytes) :
  n <> 0 -> fst (read n rest) = [] -> rest = [].
Proof.
  unfold read. intros Hn. destruct (n <? 0) eqn:E; simpl; [tauto|].
  apply Z.ltb_ge in E.
  destruct (Z.to_nat n) eqn:En; [lia|].
  destruct rest; [reflexivity | discriminate].
Qed.

Lemma read_progress (n : Z) (rest : bytes) :
  fst (read n rest) <> [] ->
  (List.length (snd (read n rest)) < List.length rest)%nat.
Proof.
  intros H. pose proof (read_parts n rest) as Hp.
  rewrite <- Hp at 2. rewrite length_app.
  destruct (fst (read n rest)); [congruence | simpl; lia].
Qed.

Lemma read_chunks_concat (chunk_size : Z) :
  forall (reads : nat) (rest : bytes),
    (List.length rest < reads)%nat ->
    List.concat (read_chunks reads chunk_size rest)
    = if chunk_size =? 0 then [] else rest.
Proof.
  induction reads as [|reads IH]; intros rest Hlen; [lia|].
  simpl. destruct (read chunk_size rest) as [chunk rest'] eqn:Er.
  pose proof (read_parts chunk_size rest) as Hp.
  pose proof (@read_progress chunk_size rest) as Hq.
  pose proof (@read_empty_chunk chunk_size rest) as He.
  rewrite Er in Hp, Hq, He. simpl in Hp, Hq, He.
  destruct chunk as [|c chunk].
  - destruct (Z.eqb_spec chunk_size 0); [reflexivity|].
    simpl. symmetry. auto.
  - assert (Hlt : (List.length rest' < reads)%nat) by (specialize (Hq ltac:(discriminate)); lia).
    simpl. rewrite (IH rest' Hlt).
    destruct (Z.eqb_spec chunk_size 0) as [->|Hne].
    + rewrite read_zero in Er. discriminate.
    + exact Hp.
Qed.

Lemma read_chunks_any_bound (chunk_size : Z) :
  forall (reads reads' : nat) (rest : bytes),
    (List.length rest < reads)%nat -> (List.length rest < reads')%nat ->
    read_chunks reads chunk_size rest = read_chunks reads' chunk_size rest.
Proof.
  induction reads as [|reads IH]; intros reads' rest Hlen Hlen'; [lia|].
  destruct reads' as [|reads']; [lia|].
  simpl. destruct (read chunk_size rest) as [chunk rest'] eqn:Er.
  pose proof (@read_progress chunk_size rest) as Hq.
  rewrite Er in Hq. simpl in Hq.
  destruct chunk as [|c chunk]; [reflexivity|].
  specialize (Hq ltac:(discriminate)).
  f_equal. apply IH; lia.
Qed.

(** The bound on the number of reads in [read_body] is never what ends the
    loop: any larger bound gives the same chunks. *)
Lemma read_chunks_bound (chunk_size : Z) (reads : nat) (rest : bytes) :
  (List.length rest < reads)%nat ->
  read_chunks reads chunk_size rest = read_body chunk_size rest.
Proof. intros H. apply read_chunks_any_bound; lia. Qed.

Lemma read_body_concat (chunk_size : Z) (b : bytes) :
  List.concat (read_body chunk_size b) = if chunk_size =? 0 then [] else b.
Proof. unfold read_body. apply read_chunks_concat. lia. Qed.

Lemma read_chunks_sizes (chunk_size : Z) :
  0 < chunk_size ->
  forall (reads : nat) (rest : bytes),
    Forall (fun chunk => len chunk <= chunk_size) (read_chunks reads chunk_size rest).
Proof.
  intros Hpos. induction reads as [|reads IH]; intros rest; simpl; [constructor|].
  unfold read at 1. destruct (chunk_size <? 0) eqn:E; [apply Z.ltb_lt in E; lia|].
  destruct (firstn (Z.to_nat chunk_size) rest) as [|c chunk] eqn:Ef; [constructor|].
  constructor; [|apply IH].
  rewrite <- Ef. unfold len. rewrite length_firstn. lia.
Qed.

Lemma downloaded_sum (chunks : list bytes) :
  forall d, fold_left (fun d chunk => d + len chunk) chunks d = d + len (List.concat chunks).
Proof.
  induction chunks as [|c chunks IH]; intros d; simpl.
  - unfold len. simpl. lia.
  - rewrite IH. unfold len. rewrite length_app. lia.
Qed.

Lemma len_nonneg (x : bytes) : 0 <= len x.
Proof. unfold len. lia. Qed.

(** What the inner loop does to the state. *)
Lemma read_response_spec (chunk_size : Z) (r : response) (st : StreamState) :
  let got := if chunk_size =? 0 then [] else body r in
  let st' := read_response chunk_size r st in
  file_size st' = file_size st
  /\ downloaded st' = downloaded st + len got
  /\ net st' = net st
  /\ List.concat (yielded st') = List.concat (yielded st) ++ got
  /\ logged st' = logged st
  /\ assigned st' = assigned st.
Proof.
  unfold read_response. simpl.
  rewrite downloaded_sum, concat_app, read_body_concat. tauto.
Qed.


(** * [stream] against a server that honours [Range] *)

Lemma len_slice (a b : Z) (data : bytes) :
  0 <= a -> len (slice a b data) = Z.max 0 (Z.min (b + 1) (len data) - a).
Proof.
  intros Ha. unfold slice, len. rewrite length_firstn, length_skipn. lia.
Qed.

Lemma slice_then_rest (a b : Z) (data : bytes) :
  0 <= a -> a <= b + 1 ->
  slice a b data ++ skipn (Z.to_nat (a + len (slice a b data))) data
  = skipn (Z.to_nat a) data.
Proof.
  intros Ha Hb. rewrite len_slice by assumption. unfold slice.
  set (rest := skipn (Z.to_nat a) data).
  assert (Hlen : len rest = Z.max 0 (len data - a))
    by (unfold rest, len; rewrite length_skipn; lia).
  replace (Z.to_nat (a + Z.max 0 (Z.min (b + 1) (len data) - a)))
    with (Z.to_nat (Z.max 0 (Z.min (b + 1) (len data) - a)) + Z.to_nat a)%nat by lia.
  rewrite <- skipn_skipn. fold rest.
  destruct (Z.le_gt_cases (b + 1) (len data)) as [Hin|Hout].
  - replace (Z.to_nat (Z.max 0 (Z.min (b + 1) (len data) - a)))
      with (Z.to_nat (b + 1 - a)) by lia.
    apply firstn_skipn.
  - rewrite firstn_all2 by (unfold len in *; lia).
    rewrite skipn_all2 by (unfold len in *; lia).
    apply app_nil_r.
Qed.

Lemma skipn_all_data (data : bytes) : skipn (Z.to_nat (len data)) data = [].
Proof. apply skipn_all2. unfold len. lia. Qed.

Lemma execute_accepted urlopen (sent : list request) (url : string)
    (method : option string) (range : option (Z * Z)) :
  accepted url ->
  _execute_request urlopen sent url method range
  = (let rq := {| req_url := url; req_method := method; req_range := range |} in
     (urlopen sent rq, sent ++ [rq])).
Proof. unfold accepted, _execute_request. intros ->. reflexivity. Qed.

Section ServedPayload.

Variable urlopen : list request -> request -> exn + response.
Variables (url : string) (data : bytes) (chunk_size range_size : Z).
Hypothesis url_accepted : accepted url.
Hypothesis served : serves urlopen url data.
Hypothesis chunk_size_nonzero : chunk_size <> 0.
Hypothesis range_size_positive : 0 < range_size.

(** One pass: the window asked for, and the state after it. *)
Lemma stream_pass_served (st : StreamState) :
  0 <= downloaded st < file_size st -> downloaded st <= len data ->
  let stop_pos := Z.min (downloaded st + range_size) (file_size st) - 1 in
  exists st',
    stream_pass urlopen url chunk_size range_size st = (None, st')
    /\ file_size st' = (if file_size st =? range_size then len data else file_size st)
    /\ downloaded st' = downloaded st + len (slice (downloaded st) stop_pos data)
    /\ net st' = net st ++ [range_request url (downloaded st, stop_pos)]
    /\ List.concat (yielded st')
       = List.concat (yielded st) ++ slice (downloaded st) stop_pos data.
Proof.
  intros Hd Hin stop_pos.
  assert (Hstop : downloaded st <= stop_pos) by (unfold stop_pos; lia).
  destruct (served (net st) (conj (proj1 Hd) Hstop)) as (r & Hr & Htotal & Hbody);
    [assumption|].
  unfold stream_pass. fold stop_pos.
  rewrite execute_accepted by assumption. cbv zeta.
  change {| req_url := url; req_method := Some "GET";
            req_range := Some (downloaded st, stop_pos) |}
    with (range_request url (downloaded st, stop_pos)).
  rewrite Hr. unfold discover_size. simpl file_size.
  destruct (file_size st =? range_size) eqn:Efs.
  - rewrite Htotal.
    eexists. split; [reflexivity|].
    match goal with |- context [read_response ?c ?r ?s] =>
      pose proof (read_response_spec c r s) as Hspec end.
    cbv zeta in Hspec. destruct Hspec as (Hf & Hdl & Hn & Hy & _).
    rewrite Hf, Hdl, Hn, Hy. simpl.
    destruct (Z.eqb_spec chunk_size 0); [contradiction|].
    rewrite Hbody. repeat split; reflexivity.
  - eexists. split; [reflexivity|].
    match goal with |- context [read_response ?c ?r ?s] =>
      pose proof (read_response_spec c r s) as Hspec end.
    cbv zeta in Hspec. destruct Hspec as (Hf & Hdl & Hn & Hy & _).
    rewrite Hf, Hdl, Hn, Hy. simpl.
    destruct (Z.eqb_spec chunk_size 0); [contradiction|].
    rewrite Hbody. repeat split; reflexivity.
Qed.

(** The passes made once [file_size] holds the disclosed total. *)
Lemma stream_loop_served :
  forall (passes : nat) (st : StreamState),
    file_size st = len data ->
    0 <= downloaded st <= len data ->
    len data - downloaded st <= Z.of_nat passes * range_size ->
    exists st',
      stream_loop urlopen passes url chunk_size range_size st = (Returned tt, st')
      /\ file_size st' = len data
      /\ downloaded st' = len data
      /\ net st' = net st ++ map (range_request url)
                                (windows passes (downloaded st) range_size (len data))
      /\ List.concat (yielded st')
         = List.concat (yielded st) ++ skipn (Z.to_nat (downloaded st)) data.
Proof.
  induction passes as [|passes IH]; intros st Hfs Hd Hfuel.
  - assert (downloaded st = len data) by lia.
    exists st. simpl. rewrite Hfs.
    replace (downloaded st <? len data) with false by (symmetry; apply Z.ltb_ge; lia).
    rewrite !app_nil_r. repeat split; try assumption.
    rewrite H. rewrite skipn_all_data. rewrite app_nil_r. reflexivity.
  - cbn [stream_loop windows]. rewrite Hfs.
    destruct (downloaded st <? len data) eqn:Elt.
    + apply Z.ltb_lt in Elt.
      destruct (@stream_pass_served st) as (st1 & Hpass & Hfs1 & Hd1 & Hn1 & Hy1);
        [lia|lia|].
      rewrite Hfs in Hd1, Hn1, Hy1.
      set (stop_pos := Z.min (downloaded st + range_size) (len data) - 1) in *.
      assert (Hlen : len (slice (downloaded st) stop_pos data)
                     = stop_pos + 1 - downloaded st).
      { rewrite len_slice by lia.  unfold stop_pos. lia. }
      assert (Hfs1' : file_size st1 = len data).
      { rewrite Hfs1. destruct (file_size st =? range_size); congruence. }
      assert (Hnext : downloaded st1 = Z.min (downloaded st + range_size) (len data))
        by (rewrite Hd1, Hlen; unfold stop_pos; lia).
      rewrite Hpass.
      destruct (IH st1 Hfs1') as (st' & Hloop & Hf' & Hd' & Hn' & Hy'); [lia|nia|].
      exists st'. split; [exact Hloop|]. repeat split; try assumption.
      * rewrite Hn', Hn1, Hnext, <- app_assoc. reflexivity.
      * rewrite Hy', Hy1, <- app_assoc. f_equal.
        rewrite Hd1. apply slice_then_rest; unfold stop_pos; lia.
    + apply Z.ltb_ge in Elt. assert (downloaded st = len data) by lia.
      exists st. rewrite !app_nil_r. repeat split; try assumption.
      rewrite H. rewrite skipn_all_data, app_nil_r. reflexivity.
Qed.

(** The whole call. *)
Lemma stream_served (passes : nat) (sent : list request) :
  len data <= Z.of_nat passes * range_size -> (0 < passes)%nat ->
  exists st,
    stream urlopen passes sent url chunk_size range_size = (Returned tt, st)
    /\ file_size st = len data
    /\ downloaded st = len data
    /\ net st = sent ++ map (range_request url) (stream_windows passes range_size (len data))
    /\ List.concat (yielded st) = data.
Proof.
  intros Hfuel Hpos. destruct passes as [|passes]; [lia|].
  unfold stream. set (st0 := stream_start sent range_size).
  cbn [stream_loop stream_windows].
  change (downloaded st0) with 0. change (file_size st0) with range_size.
  replace (0 <? range_size) with true by (symmetry; apply Z.ltb_lt; lia).
  destruct (@stream_pass_served st0) as (st1 & Hpass & Hfs1 & Hd1 & Hn1 & Hy1);
    [simpl; lia | apply len_nonneg |].
  simpl in Hfs1, Hd1, Hn1, Hy1.
  rewrite Z.eqb_refl in Hfs1. rewrite Z.min_id in Hd1, Hn1, Hy1.
  assert (Hlen : len (slice 0 (range_size - 1) data) = Z.min range_size (len data)).
  { rewrite len_slice by lia.  pose proof (len_nonneg data). lia. }
  rewrite Hpass.
  destruct (@stream_loop_served passes st1 Hfs1) as (st' & Hloop & Hf' & Hd' & Hn' & Hy').
  { rewrite Hd1, Hlen. pose proof (len_nonneg data). lia. }
  { rewrite Hd1, Hlen. nia. }
  exists st'. split; [exact Hloop|]. repeat split; try assumption.
  - rewrite Hn', Hn1, Hd1, Hlen, <- app_assoc. reflexivity.
  - rewrite Hy', Hy1, Hd1.
    rewrite slice_then_rest by lia. reflexivity.
Qed.

End ServedPayload.


(** * The windows *)

Lemma windows_any_bound (W S : Z) :
  0 < W ->
  forall (p p' : nat) (start : Z),
    S - start <= Z.of_nat p * W -> S - start <= Z.of_nat p' * W ->
    windows p start W S = windows p' start W S.
Proof.
  intros HW. induction p as [|p IH]; intros p' start Hp Hp'.
  - destruct p'; simpl; destruct (start <? S) eqn:E; try reflexivity.
    apply Z.ltb_lt in E. lia.
  - destruct p' as [|p'].
    + simpl. destruct (start <? S) eqn:E; [apply Z.ltb_lt in E; lia | reflexivity].
    + simpl. destruct (start <? S) eqn:E; [|reflexivity].
      apply Z.ltb_lt in E. f_equal. apply IH; nia.
Qed.

Lemma ceil_div_step (x W : Z) : 0 < W -> ceil_div (x + W) W = ceil_div x W + 1.
Proof.
  intros HW. unfold ceil_div.
  replace (x + W + W - 1) with (x + W - 1 + 1 * W) by lia.
  apply Z.div_add. lia.
Qed.

Lemma ceil_div_small (x W : Z) : 0 < x <= W -> ceil_div x W = 1.
Proof.
  intros H. unfold ceil_div. symmetry. apply Z.div_unique with (r := x - 1); lia.
Qed.

Lemma ceil_div_zero (W : Z) : 0 < W -> ceil_div 0 W = 0.
Proof. intros H. unfold ceil_div. apply Z.div_small. lia. Qed.

Lemma ceil_div_bound (x W : Z) (p : nat) :
  0 < W -> ceil_div x W <= Z.of_nat p -> x <= Z.of_nat p * W.
Proof.
  intros HW H. unfold ceil_div in H.
  pose proof (Z.div_mod (x + W - 1) W ltac:(lia)) as Hdm.
  pose proof (Z.mod_pos_bound (x + W - 1) W HW). nia.
Qed.

Lemma windows_count (W S : Z) :
  0 < W ->
  forall (p : nat) (start : Z),
    start <= S -> S - start <= Z.of_nat p * W ->
    Z.of_nat (List.length (windows p start W S)) = ceil_div (S - start) W.
Proof.
  intros HW. induction p as [|p IH]; intros start Hs Hp.
  - assert (start = S) by lia. subst. simpl. rewrite Z.ltb_irrefl.
    rewrite Z.sub_diag, ceil_div_zero by assumption. reflexivity.
  - simpl. destruct (start <? S) eqn:E.
    + apply Z.ltb_lt in E. cbn [List.length]. rewrite Nat2Z.inj_succ, IH by nia.
      destruct (Z.le_gt_cases (start + W) S).
      * rewrite Z.min_l by assumption.
        replace (S - start) with (S - (start + W) + W) by lia.
        rewrite ceil_div_step by assumption. lia.
      * rewrite Z.min_r by lia. rewrite Z.sub_diag, ceil_div_zero by assumption.
        rewrite ceil_div_small by lia. reflexivity.
    + apply Z.ltb_ge in E. replace (S - start) with 0 by lia.
      rewrite ceil_div_zero by assumption. reflexivity.
Qed.

Lemma stream_windows_count (W S : Z) (p : nat) :
  0 < W -> 0 < S -> S <= Z.of_nat p * W ->
  Z.of_nat (List.length (stream_windows p W S)) = ceil_div S W.
Proof.
  intros HW HS Hp. destruct p as [|p]; [lia|].
  cbn [stream_windows List.length]. rewrite Nat2Z.inj_succ, windows_count by nia.
  destruct (Z.le_gt_cases W S).
  - rewrite Z.min_l by assumption.
    replace S with (S - W + W) at 2 by lia. rewrite ceil_div_step by assumption. lia.
  - rewrite Z.min_r by lia. rewrite Z.sub_diag, ceil_div_zero by assumption.
    rewrite ceil_div_small by lia. reflexivity.
Qed.

Lemma stream_windows_any_bound (W S : Z) (p p' : nat) :
  0 < W -> 0 <= S -> (0 < p)%nat -> (0 < p')%nat ->
  S <= Z.of_nat p * W -> S <= Z.of_nat p' * W ->
  stream_windows p W S = stream_windows p' W S.
Proof.
  intros HW HS Hp Hp' Hb Hb'. destruct p as [|p]; [lia|]. destruct p' as [|p']; [lia|].
  simpl. f_equal. apply windows_any_bound; [assumption| nia | nia].
Qed.

(** When the payload is at least one window long, the first window is the
    one the formula with the true total gives. *)
Lemma stream_windows_large (W S : Z) (p : nat) :
  0 < W <= S -> stream_windows p W S = windows p 0 W S.
Proof.
  intros H. destruct p as [|p]; simpl.
  - destruct (0 <? S); reflexivity.
  - replace (0 <? S) with true by (symmetry; apply Z.ltb_lt; lia).
    rewrite Z.min_l by lia. reflexivity.
Qed.

Lemma ceil_div_pos (x W : Z) : 0 < W -> 0 < x -> 0 < ceil_div x W.
Proof.
  intros HW Hx. unfold ceil_div. apply Z.div_str_pos. lia.
Qed.

Lemma ceil_div_enough (x W : Z) : 0 < W -> x <= Z.of_nat (Z.to_nat (ceil_div x W)) * W.
Proof.
  intros HW. unfold ceil_div.
  pose proof (Z.div_mod (x + W - 1) W ltac:(lia)) as Hdm.
  pose proof (Z.mod_pos_bound (x + W - 1) W HW).
  destruct (Z.le_gt_cases 0 ((x + W - 1) / W)); [rewrite Z2Nat.id by assumption; nia|].
  nia.
Qed.


(** * [int] and [str] of the Python runtime *)

Module PyStrFacts.

Import Decimal.

Lemma literal_value_numeral (d : uint) :
  forall acc after_digit,
    d <> Nil \/ after_digit = true ->
    PyStr.literal_value acc after_digit (NilEmpty.string_of_uint d)
    = Some (numeral_value d acc).
Proof.
  induction d; intros acc after_digit H;
    try (cbn [NilEmpty.string_of_uint PyStr.literal_value numeral_value];
         match goal with
         | |- context [PyStr.is_digit ?c] =>
             change (PyStr.is_digit c) with true;
             cbv iota;
             match goal with
             | |- context [PyStr.digit_value c] =>
                 let v := eval vm_compute in (PyStr.digit_value c) in
                 change (PyStr.digit_value c) with v
             end
         end;
         rewrite ?Z.add_0_r; apply IHd; right; reflexivity).
  simpl. destruct H as [H | ->]; [congruence | reflexivity].
Qed.

Lemma numeral_value_of_lu (d : uint) :
  forall acc,
    numeral_value d acc
    = Z.of_N (DecimalPos.Unsigned.of_lu (rev d))
      + acc * Z.of_N (10 ^ DecimalPos.Unsigned.usize d).
Proof.
  induction d; intros acc;
    try (cbn [numeral_value DecimalPos.Unsigned.usize]; rewrite IHd;
         unfold rev; cbn [revapp];
         rewrite (DecimalPos.Unsigned.of_lu_revapp d (_ Nil));
         rewrite N.pow_succ_r', !N2Z.inj_add, !N2Z.inj_mul;
         cbn [DecimalPos.Unsigned.of_lu]; fold (rev d);
         rewrite ?N2Z.inj_add, ?N2Z.inj_mul; simpl (Z.of_N 0); simpl (Z.of_N 10);
         try simpl (Z.of_N 1); try simpl (Z.of_N 2); try simpl (Z.of_N 3);
         try simpl (Z.of_N 4); try simpl (Z.of_N 5); try simpl (Z.of_N 6);
         try simpl (Z.of_N 7); try simpl (Z.of_N 8); try simpl (Z.of_N 9);
         ring).
  simpl. lia.
Qed.

Lemma numeral_value_of_uint (d : uint) : numeral_value d 0 = Z.of_uint d.
Proof.
  rewrite numeral_value_of_lu. unfold Z.of_uint.
  rewrite DecimalPos.Unsigned.of_uint_alt. lia.
Qed.

Lemma digits_not_space (d : uint) :
  parse.all_chars (fun c => negb (PyStr.is_space c) && negb (Ascii.eqb c "/"))
                  (NilEmpty.string_of_uint d) = true.
Proof. induction d; simpl; auto. Qed.

Lemma rstrip_id (p : ascii -> bool) (s : string) :
  (forall c, p c = true -> PyStr.is_space c = false) ->
  parse.all_chars p s = true -> PyStr.rstrip s = s.
Proof.
  intros Hp. induction s as [|c s IH]; simpl; [reflexivity|].
  intros H. apply andb_prop in H. destruct H as [Hc Hs].
  rewrite (IH Hs). rewrite (Hp c Hc). destruct s; reflexivity.
Qed.

Lemma int_of_numeral (d : uint) :
  d <> Nil -> PyStr.int (NilEmpty.string_of_uint d) = Some (Z.of_uint d).
Proof.
  intros Hd. unfold PyStr.int.
  replace (PyStr.lstrip (NilEmpty.string_of_uint d)) with (NilEmpty.string_of_uint d)
    by (destruct d; reflexivity).
  rewrite (@rstrip_id (fun c => negb (PyStr.is_space c) && negb (Ascii.eqb c "/"))).
  2:{ intros c0 H0. apply andb_prop in H0. destruct H0 as [H0 _].
      now apply negb_true_iff in H0. }
  2:{ apply digits_not_space. }
  rewrite <- numeral_value_of_uint.
  rewrite <- (@literal_value_numeral d 0 false) by (left; assumption).
  destruct d; [congruence | reflexivity ..].
Qed.

Lemma str_numeral (d : uint) :
  d <> Nil -> NilZero.string_of_uint d = NilEmpty.string_of_uint d.
Proof. destruct d; intros H; [congruence | reflexivity ..]. Qed.

(** [int(str(n)) == n] *)
Lemma int_str (n : Z) : PyStr.int (PyStr.str n) = Some n.
Proof.
  unfold PyStr.str. destruct n as [|p|p]; [reflexivity | |].
  - cbn [Z.to_int NilZero.string_of_int].
    pose proof (DecimalPos.Unsigned.to_uint_nonnil p) as Hd.
    rewrite str_numeral, int_of_numeral by assumption.
    pose proof (DecimalZ.of_to (Z.pos p)) as H. simpl in H. congruence.
  - cbn [Z.to_int NilZero.string_of_int].
    pose proof (DecimalPos.Unsigned.to_uint_nonnil p) as Hd.
    rewrite str_numeral by assumption.
    unfold PyStr.int. cbn [PyStr.lstrip]. change (PyStr.is_space "-") with false.
    cbv iota.
    rewrite (@rstrip_id (fun c => negb (PyStr.is_space c))).
    2:{ intros c H. now apply negb_true_iff in H. }
    2:{ simpl. pose proof (digits_not_space (Pos.to_uint p)) as H.
        revert H. generalize (NilEmpty.string_of_uint (Pos.to_uint p)).
        induction s as [|c s IH]; simpl; [reflexivity|].
        intros H. apply andb_prop in H. destruct H as [H1 H2].
        apply andb_prop in H1. destruct H1 as [H1 _].
        rewrite H1. simpl. auto. }
    rewrite literal_value_numeral by (left; assumption).
    rewrite numeral_value_of_uint. simpl.
    pose proof (DecimalZ.of_to (Z.neg p)) as H. simpl in H. congruence.
Qed.

Lemma str_no_slash (n : Z) :
  parse.all_chars (fun c => negb (Ascii.eqb c "/")) (PyStr.str n) = true.
Proof.
  assert (H : forall d, parse.all_chars (fun c => negb (Ascii.eqb c "/"))
                          (NilZero.string_of_uint d) = true).
  { intros d. destruct d; try reflexivity;
      cbn [NilZero.string_of_uint NilEmpty.string_of_uint parse.all_chars];
      simpl negb; cbn [andb];
      (pose proof (digits_not_space d) as H; revert H;
       generalize (NilEmpty.string_of_uint d);
       induction s as [|c s IH]; simpl; [reflexivity|];
       intros H; apply andb_prop in H; destruct H as [H1 H2];
       apply andb_prop in H1; destruct H1 as [_ H1];
       rewrite H1; simpl; auto). }
  unfold PyStr.str. destruct n; cbn [Z.to_int NilZero.string_of_int]; apply H.
Qed.

Lemma append_assoc (x y z : string) : ((x ++ y) ++ z = x ++ (y ++ z))%string.
Proof. induction x as [|c x IH]; simpl; [reflexivity | now rewrite IH]. Qed.

Lemma all_chars_app (p : ascii -> bool) (x y : string) :
  parse.all_chars p (x ++ y)%string = parse.all_chars p x && parse.all_chars p y.
Proof.
  induction x as [|c x IH]; simpl; [reflexivity|].
  rewrite IH. apply andb_assoc.
Qed.

Lemma split_no_sep (sep : ascii) (s : string) :
  parse.all_chars (fun c => negb (Ascii.eqb c sep)) s = true ->
  PyStr.split sep s = [s].
Proof.
  induction s as [|c s IH]; simpl; [reflexivity|].
  intros H. apply andb_prop in H. destruct H as [Hc Hs].
  apply negb_true_iff in Hc. rewrite Hc, (IH Hs). reflexivity.
Qed.

Lemma split_at_sep (sep : ascii) (x y : string) :
  parse.all_chars (fun c => negb (Ascii.eqb c sep)) x = true ->
  PyStr.split sep (x ++ String sep y)%string = x :: PyStr.split sep y.
Proof.
  induction x as [|c x IH]; simpl.
  - intros _. rewrite Ascii.eqb_refl. reflexivity.
  - intros H. apply andb_prop in H. destruct H as [Hc Hs].
    apply negb_true_iff in Hc. rewrite Hc, (IH Hs). reflexivity.
Qed.

Lemma content_range_text_total (a b total : Z) (items : list (string * string))
    (body : bytes) :
  content_range_total {| content_range := Returns (content_range_text a b total);
                         items := items; body := body |}
  = inr total.
Proof.
  unfold content_range_total, content_range_text. cbn [content_range].
  replace ("bytes " ++ PyStr.str a ++ "-" ++ PyStr.str b ++ "/" ++ PyStr.str total)%string
    with (("bytes " ++ PyStr.str a ++ "-" ++ PyStr.str b) ++ String "/" (PyStr.str total))%string.
  2:{ rewrite !append_assoc. reflexivity. }
  rewrite split_at_sep.
  2:{ rewrite !all_chars_app, !str_no_slash. reflexivity. }
  rewrite split_no_sep by apply str_no_slash.
  cbn [nth_error]. rewrite int_str. reflexivity.
Qed.

End PyStrFacts.

Lemma range_server_serves (payload : string -> bytes) (url : string) :
  serves (range_server payload) url (payload url).
Proof.
  intros sent a b Hab Ha. unfold range_server. cbn [req_range req_url range_request].
  replace (len (payload url) <? a) with false by (symmetry; apply Z.ltb_ge; lia).
  eexists. split; [reflexivity|]. split; [|reflexivity].
  apply PyStrFacts.content_range_text_total.
Qed.

Lemma range_server_never_overdelivers (payload : string -> bytes) :
  never_overdelivers (range_server payload).
Proof.
  intros sent rq r a b Hr Hrange Hab. unfold range_server in Hr. rewrite Hrange in Hr.
  destruct (len (payload (req_url rq)) <? a) eqn:E; [discriminate|].
  apply Z.ltb_ge in E.
  injection Hr as <-. cbn [body]. split.
  - unfold slice, len. rewrite length_firstn. lia.
  - intros total. rewrite PyStrFacts.content_range_text_total. intros [= <-].
    unfold slice, len in *. rewrite length_firstn, length_skipn. lia.
Qed.


(** * The state of [stream] against any server that does not over-deliver *)

Lemma last_all (W : Z) (l : list Z) :
  Forall (fun n => n = W) (removelast l) -> last l W = W -> Forall (fun n => n = W) l.
Proof.
  intros Hall Hlast. destruct l as [|x0 l0]; [constructor|].
  destruct (@exists_last _ (x0 :: l0)) as (l' & x & Heq); [discriminate|].
  rewrite Heq in *. rewrite removelast_last in Hall. rewrite last_last in Hlast.
  apply Forall_app. split; [assumption | constructor; [assumption | constructor]].
Qed.

Ltac bound_received cs r :=
  match goal with
  | |- context [_ + len ?g] =>
      let H := fresh "Hgot" in
      let got := fresh "got" in
      assert (H : 0 <= len g <= len (body r))
        by (unfold len; destruct (cs =? 0); simpl; lia);
      set (got := len g) in *; clearbody got
  end.

Section AnyServer.

Variable urlopen : list request -> request -> exn + response.
Variables (url : string) (chunk_size range_size : Z).
Hypothesis honest : never_overdelivers urlopen.
Hypothesis range_size_positive : 0 < range_size.

Lemma stream_pass_invariant (st : StreamState) :
  stream_invariant range_size st -> downloaded st < file_size st ->
  stream_invariant range_size (snd (stream_pass urlopen url chunk_size range_size st))
  /\ (fst (stream_pass urlopen url chunk_size range_size st) <> None ->
      downloaded (snd (stream_pass urlopen url chunk_size range_size st))
      < file_size (snd (stream_pass urlopen url chunk_size range_size st))).
Proof.
  intros (Hd & Hall & Hlast) Hlt.
  assert (Hkeep : forall sent, stream_invariant range_size (with_net sent st))
    by (intros sent; unfold stream_invariant, with_net; simpl; tauto).
  unfold stream_pass.
  set (stop_pos := Z.min (downloaded st + range_size) (file_size st) - 1).
  unfold _execute_request.
  destruct (PyStr.startswith "http" (PyStr.lower url));
    [| simpl; split; [apply Hkeep | intros _; assumption]].
  match goal with |- context [urlopen ?s ?q] =>
    destruct (urlopen s q) as [e | r] eqn:Hr;
      [simpl; split; [apply Hkeep | intros _; assumption] |];
    destruct (@honest s q r (downloaded st) stop_pos Hr eq_refl) as [Hwin Htot];
      [unfold stop_pos; lia|]
  end.
  unfold discover_size. cbn [file_size with_net].
  destruct (file_size st =? range_size) eqn:Efs.
  - apply Z.eqb_eq in Efs.
    destruct (content_range_total r) as [e | n] eqn:Hn.
    + destruct (caught e); [| simpl; split; [apply Hkeep | intros _; assumption]].
      match goal with |- context [read_response ?c ?x ?s] =>
        destruct (read_response_spec c x s) as (Hf & Hdl & _ & _ & _ & Ha) end.
      cbn [fst snd]. split; [|congruence].
      unfold with_net in *.
      cbn [file_size downloaded net yielded logged assigned] in *.
      unfold stream_invariant. rewrite Hf, Hdl, Ha. bound_received chunk_size r.
      repeat split; try assumption; unfold stop_pos in Hwin; lia.
    + specialize (Htot n eq_refl).
      match goal with |- context [read_response ?c ?x ?s] =>
        destruct (read_response_spec c x s) as (Hf & Hdl & _ & _ & _ & Ha) end.
      cbn [fst snd]. split; [|congruence].
      unfold with_net in *.
      cbn [file_size downloaded net yielded logged assigned] in *.
      unfold stream_invariant. rewrite Hf, Hdl, Ha. bound_received chunk_size r.
      rewrite removelast_last, last_last.
      repeat split; try lia.
      apply last_all; [assumption | congruence].
  - match goal with |- context [read_response ?c ?x ?s] =>
      destruct (read_response_spec c x s) as (Hf & Hdl & _ & _ & _ & Ha) end.
    cbn [fst snd]. split; [|congruence].
    unfold with_net in *.
    cbn [file_size downloaded net yielded logged assigned] in *.
    unfold stream_invariant. rewrite Hf, Hdl, Ha. bound_received chunk_size r.
    repeat split; try assumption; unfold stop_pos in Hwin; lia.
Qed.

Lemma stream_loop_invariant :
  forall (passes : nat) (st : StreamState),
    stream_invariant range_size st ->
    let run := stream_loop urlopen passes url chunk_size range_size st in
    stream_invariant range_size (snd run)
    /\ (fst run = Returned tt <-> downloaded (snd run) = file_size (snd run)).
Proof.
  induction passes as [|passes IH]; intros st Hinv; cbn [stream_loop].
  - destruct (downloaded st <? file_size st) eqn:E; cbn [fst snd].
    + apply Z.ltb_lt in E. split; [assumption|]. split; [discriminate | lia].
    + apply Z.ltb_ge in E. destruct Hinv as (Hd & ?).
      split; [repeat split; tauto|]. split; [lia | reflexivity].
  - destruct (downloaded st <? file_size st) eqn:E; cbn [fst snd].
    + apply Z.ltb_lt in E.
      destruct (stream_pass_invariant Hinv E) as [Hinv' Hraise].
      destruct (stream_pass urlopen url chunk_size range_size st) as [[e|] st'];
        cbn [fst snd] in *.
      * split; [assumption|]. specialize (Hraise ltac:(discriminate)).
        split; [discriminate | lia].
      * apply IH. assumption.
    + apply Z.ltb_ge in E. destruct Hinv as (Hd & ?).
      split; [repeat split; tauto|]. split; [lia | reflexivity].
Qed.

End AnyServer.


(** * [stream] when the total is never disclosed *)

(** A run that ended within [p] passes ends in the same way within more. *)
Lemma stream_loop_more_passes urlopen (url : string) (chunk_size range_size : Z) :
  forall (p p' : nat) (st st' : StreamState) (o : outcome unit),
    (p <= p')%nat -> o <> Unfinished ->
    stream_loop urlopen p url chunk_size range_size st = (o, st') ->
    stream_loop urlopen p' url chunk_size range_size st = (o, st').
Proof.
  induction p as [|p IH]; intros p' st st' o Hle Ho; cbn [stream_loop].
  - destruct p'; cbn [stream_loop]; destruct (downloaded st <? file_size st);
      intros [= <- <-]; congruence.
  - destruct p' as [|p']; [lia|]. cbn [stream_loop].
    destruct (downloaded st <? file_size st); [|trivial].
    destruct (stream_pass urlopen url chunk_size range_size st) as [[e|] st1];
      [trivial|].
    apply IH; [lia | assumption].
Qed.

Section Undisclosed.

Variable urlopen : list request -> request -> exn + response.
Variables (url : string) (chunk_size range_size : Z).
Hypothesis url_accepted : accepted url.

(** A pass in which the header cannot be read, with an exception that the
    [except] clause catches: the pass goes on to read the body. *)
Lemma stream_pass_undisclosed (st : StreamState) (r : response) (e : exn) :
  file_size st = range_size ->
  let stop_pos := Z.min (downloaded st + range_size) (file_size st) - 1 in
  urlopen (net st) (range_request url (downloaded st, stop_pos)) = inr r ->
  content_range_total r = inl e -> caught e = true ->
  exists st',
    stream_pass urlopen url chunk_size range_size st = (None, st')
    /\ file_size st' = range_size
    /\ assigned st' = assigned st
    /\ logged st' = logged st ++ [e]
    /\ net st' = net st ++ [range_request url (downloaded st, stop_pos)]
    /\ downloaded st' = downloaded st + len (if chunk_size =? 0 then [] else body r)
    /\ List.concat (yielded st')
       = List.concat (yielded st) ++ (if chunk_size =? 0 then [] else body r).
Proof.
  intros Hfs stop_pos Hr He Hc.
  unfold stream_pass. fold stop_pos.
  rewrite execute_accepted by assumption. cbv zeta.
  change {| req_url := url; req_method := Some "GET";
            req_range := Some (downloaded st, stop_pos) |}
    with (range_request url (downloaded st, stop_pos)).
  rewrite Hr. unfold discover_size. cbn [file_size with_net].
  rewrite Hfs, Z.eqb_refl, He, Hc.
  eexists. split; [reflexivity|].
  match goal with |- context [read_response ?c ?x ?s] =>
    destruct (read_response_spec c x s) as (Hf & Hdl & Hn & Hy & Hl & Ha) end.
  rewrite Hf, Hdl, Hn, Hy, Hl, Ha. cbn. repeat split; reflexivity.
Qed.

(** With a mapping that answers [None] for a missing header, the pass
    raises [AttributeError], which the [except] clause does not catch. *)
Lemma stream_pass_none (st : StreamState) (r : response) :
  file_size st = range_size ->
  let stop_pos := Z.min (downloaded st + range_size) (file_size st) - 1 in
  urlopen (net st) (range_request url (downloaded st, stop_pos)) = inr r ->
  content_range r = ReturnsNone ->
  fst (stream_pass urlopen url chunk_size range_size st) = Some AttributeError.
Proof.
  intros Hfs stop_pos Hr Hnone.
  unfold stream_pass. fold stop_pos.
  rewrite execute_accepted by assumption. cbv zeta.
  change {| req_url := url; req_method := Some "GET";
            req_range := Some (downloaded st, stop_pos) |}
    with (range_request url (downloaded st, stop_pos)).
  rewrite Hr. unfold discover_size, content_range_total. cbn [file_size with_net].
  rewrite Hfs, Z.eqb_refl, Hnone. reflexivity.
Qed.

Hypothesis chunk_size_nonzero : chunk_size <> 0.
Hypothesis undisclosed :
  forall sent rq, exists r e,
    urlopen sent rq = inr r /\ content_range_total r = inl e /\ caught e = true
    /\ body r <> [].

Lemma stream_loop_undisclosed :
  forall (passes : nat) (st : StreamState),
    file_size st = range_size -> assigned st = [] ->
    range_size - downloaded st <= Z.of_nat passes ->
    exists st',
      stream_loop urlopen passes url chunk_size range_size st = (Returned tt, st')
      /\ file_size st' = range_size
      /\ assigned st' = []
      /\ range_size <= downloaded st'
      /\ (List.length (net st') <= List.length (net st) + passes)%nat
      /\ (List.length (logged st') + List.length (net st)
          = List.length (logged st) + List.length (net st'))%nat.
Proof.
  induction passes as [|passes IH]; intros st Hfs Ha Hfuel; cbn [stream_loop].
  - replace (downloaded st <? file_size st) with false
      by (symmetry; apply Z.ltb_ge; lia).
    exists st. repeat split; try assumption; lia.
  - destruct (downloaded st <? file_size st) eqn:E.
    + destruct (undisclosed (net st)
                  (range_request url (downloaded st,
                     Z.min (downloaded st + range_size) (file_size st) - 1)))
        as (r & e & Hr & He & Hc & Hbody).
      destruct (stream_pass_undisclosed st Hfs Hr He Hc)
        as (st1 & Hpass & Hf1 & Ha1 & Hl1 & Hn1 & Hd1 & _).
      rewrite Hpass.
      assert (Hgain : 0 < len (body r)).
      { unfold len. destruct (body r); [congruence | simpl; lia]. }
      destruct (Z.eqb_spec chunk_size 0) as [|_]; [contradiction|].
      destruct (IH st1 Hf1) as (st' & Hloop & Hf' & Ha' & Hd' & Hn' & Hl');
        [congruence | lia |].
      exists st'. split; [exact Hloop|]. repeat split; try assumption.
      * rewrite Hn1, length_app in Hn'. simpl in Hn'. lia.
      * rewrite Hn1, Hl1, !length_app in Hl'. simpl in Hl'. lia.
    + apply Z.ltb_ge in E. exists st. repeat split; try assumption; lia.
Qed.

End Undisclosed.


(** * Edge cases of [stream] *)

(** With [chunk_size = 0] every read is empty: nothing is downloaded and the
    loop never ends, whatever the server holds. *)
Lemma stream_zero_chunk_size (urlopen : list request -> request -> exn + response)
    (url : string) (data : bytes) (range_size : Z) :
  accepted url -> serves urlopen url data -> 0 < len data -> 0 < range_size ->
  forall (passes : nat) (st : StreamState),
    downloaded st = 0 ->
    file_size st = range_size \/ file_size st = len data ->
    fst (stream_loop urlopen passes url 0 range_size st) = Unfinished.
Proof.
  intros Hurl Hserved Hdata Hrange.
  induction passes as [|passes IH]; intros st Hd Hf; cbn [stream_loop];
    (replace (downloaded st <? file_size st) with true
      by (symmetry; apply Z.ltb_lt; lia)); [reflexivity|].
  unfold stream_pass. rewrite execute_accepted by assumption. cbv zeta.
  set (stop_pos := Z.min (downloaded st + range_size) (file_size st) - 1).
  change {| req_url := url; req_method := Some "GET";
            req_range := Some (downloaded st, stop_pos) |}
    with (range_request url (downloaded st, stop_pos)).
  destruct (Hserved (net st) (downloaded st) stop_pos) as (r & Hr & Htotal & _);
    [unfold stop_pos; lia | lia |].
  rewrite Hr. unfold discover_size. cbn [file_size with_net]. rewrite Htotal.
  assert (Hnone : read_body 0 (body r) = []) by reflexivity.
  destruct (file_size st =? range_size);
    (apply IH;
     [unfold read_response; rewrite Hnone; cbn [downloaded fold_left with_net];
      exact Hd
     | unfold read_response; cbn [file_size with_net]; tauto]).
Qed.


(** * Claims about [stream] *)




(** The scenario of the specification: 20,000,000 bytes behind the default
    window size are read with three requests. *)
Lemma stream_twenty_million :
  let data := repeat x00 (Z.to_nat 20000000) in
  let url := "http://host/video" in
  exists st,
    stream (range_server (fun _ => data)) 3 [] url
           default_chunk_size default_range_size = (Returned tt, st)
    /\ List.concat (yielded st) = data
    /\ net st = map (range_request url)
                    [(0, 9437183); (9437184, 18874367); (18874368, 19999999)].
Proof.
  intros data url.
  assert (Hlen : len data = 20000000)
    by (unfold len, data; rewrite repeat_length; apply Z2Nat.id; lia).
  assert (Hserved : serves (range_server (fun _ => data)) url data)
    by apply (range_server_serves (fun _ => data)).
  clearbody data.
  destruct (@stream_served (range_server (fun _ => data)) url data
              default_chunk_size default_range_size eq_refl Hserved
              ltac:(discriminate) eq_refl 3 [])
    as (st & Hrun & _ & _ & Hnet & Hyield).
  - rewrite Hlen. vm_compute. discriminate.
  - lia.
  - exists st. split; [exact Hrun|]. split; [exact Hyield|].
    rewrite Hnet, Hlen. reflexivity.
Qed.








Lemma stream_loop_empty_bodies (url : string) (chunk_size range_size : Z) :
  accepted url ->
  forall (passes : nat) (st : StreamState),
    file_size st = range_size -> downloaded st < range_size ->
    fst (stream_loop (plain_server []) passes url chunk_size range_size st)
    = Unfinished.
Proof.
  intros Hurl. induction passes as [|passes IH]; intros st Hf Hd; cbn [stream_loop];
    rewrite Hf; replace (downloaded st <? range_size) with true
      by (symmetry; apply Z.ltb_lt; assumption); [reflexivity|].
  destruct (@stream_pass_undisclosed (plain_server []) url chunk_size range_size Hurl
              st {| content_range := RaisesKeyError;
                    items := [("Content-Length", PyStr.str (len []))];
                    body := [] |} (KeyError "Content-Range") Hf)
    as (st1 & Hpass & Hf1 & _ & _ & _ & Hd1 & _); try reflexivity.
  rewrite Hpass. apply IH; [assumption|].
  rewrite Hd1. cbn [body]. destruct (chunk_size =? 0); unfold len; simpl; lia.
Qed.



(** * The segment count *)

Lemma scan_lines_app (init : option Z) (before after : list bytes) :
  scan_lines init (before ++ after) = scan_lines (scan_lines init before) after.
Proof.
  revert init. induction before as [|line before IH]; intros init; simpl;
    [reflexivity|].
  destruct (search line); apply IH.
Qed.

Lemma scan_lines_no_match (init : option Z) (lines : list bytes) :
  Forall (fun line => search line = None) lines -> scan_lines init lines = init.
Proof.
  induction 1 as [|line lines Hline _ IH]; simpl; [reflexivity|].
  rewrite Hline. exact IH.
Qed.

Lemma scan_lines_some (lines : list bytes) :
  forall x,
    scan_lines (Some x) lines
    = Some (match scan_lines None lines with Some n => n | None => x end).
Proof.
  induction lines as [|line lines IH]; intros x; simpl; [reflexivity|].
  destruct (search line) as [ds|]; [|apply IH].
  rewrite (IH (PyBytes.int_of_digits ds)). reflexivity.
Qed.

(** The two loops find the same count; [seq_filesize] starts from 0 where
    [seq_stream] starts from an unbound name. *)
Lemma scan_lines_filesize_scan_lines (lines : list bytes) :
  forall segment_count,
    scan_lines_filesize segment_count lines
    = inr (match scan_lines None lines with
           | Some n => n
           | None => segment_count
           end).
Proof.
  induction lines as [|line lines IH]; intros segment_count; simpl; [reflexivity|].
  unfold regex_search. destruct (search line) as [ds|]; [|apply IH].
  rewrite IH, scan_lines_some. reflexivity.
Qed.

(** C3 (amended). The segment count is the integer of the LAST line of the
    body that matches [Segment-Count: <decimal>]: whatever the lines before
    it hold, matching or not, and with the lines after it, which do not
    match, skipped without error.  Both [seq_stream] and [seq_filesize] read
    it so. *)
Theorem segment_count_is_last_match (before after : list bytes) (line ds : bytes) :
  search line = Some ds ->
  Forall (fun l => search l = None) after ->
  scan_lines None (before ++ line :: after) = Some (PyBytes.int_of_digits ds)
  /\ scan_lines_filesize 0 (before ++ line :: after)
     = inr (PyBytes.int_of_digits ds).
Proof.
  intros Hline Hafter.
  assert (H : forall init, scan_lines init (before ++ line :: after)
                           = Some (PyBytes.int_of_digits ds)).
  { intros init. rewrite scan_lines_app. simpl. rewrite Hline.
    apply scan_lines_no_match. assumption. }
  split; [apply H|].
  rewrite scan_lines_filesize_scan_lines, H. reflexivity.
Qed.

Lemma segment_count_is_last_match_witness :
  let crlf := [PyBytes.CR; PyBytes.LF] in
  let body := list_byte_of_string "ftyp" ++ crlf
              ++ list_byte_of_string "Segment-Count: 2" ++ crlf
              ++ list_byte_of_string "X-Segment-Count: 5" ++ crlf
              ++ list_byte_of_string "data" in
  scan_lines None (PyBytes.split_crlf body) = Some 5
  /\ scan_lines_filesize 0 (PyBytes.split_crlf body) = inr 5.
Proof.
  intros crlf body.
  apply (@segment_count_is_last_match
           [list_byte_of_string "ftyp"; list_byte_of_string "Segment-Count: 2"]
           [list_byte_of_string "data"]
           (list_byte_of_string "X-Segment-Count: 5")
           (list_byte_of_string "5")).
  - reflexivity.
  - repeat constructor.
Defined.

(** C3, as stated, fails on a body with two marker lines: the count of the
    later line is used, not that of the first line that matches. *)
Lemma segment_count_first_match_counterexample :
  let crlf := [PyBytes.CR; PyBytes.LF] in
  let first := list_byte_of_string "Segment-Count: 2" in
  let second := list_byte_of_string "Segment-Count: 5" in
  let body := first ++ crlf ++ second ++ crlf ++ list_byte_of_string "data" in
  PyBytes.split_crlf body = [first; second; list_byte_of_string "data"]
  /\ option_map PyBytes.int_of_digits (search first) = Some 2
  /\ scan_lines None (PyBytes.split_crlf body) = Some 5
  /\ scan_lines_filesize 0 (PyBytes.split_crlf body) = inr 5.
Proof. repeat split; reflexivity. Qed.

(** C5: a body of segment 0 without the marker.  [seq_filesize] raises the
    typed [RegexMatchError]; [seq_stream], after it has yielded the body,
    raises [UnboundLocalError], since [segment_count] was never assigned. *)
Theorem missing_marker_failures :
  let urlopen := range_server (fun _ => list_byte_of_string "no marker here") in
  let url := "http://host/video?id=1" in
  fst (seq_stream urlopen 1 [] url default_chunk_size default_range_size)
  = Raised (UnboundLocalError "segment_count")
  /\ fst (seq_filesize urlopen [] url)
     = Raised (RegexMatchError "seq_filesize" segment_regex).
Proof. split; vm_compute; reflexivity. Qed.

(** The same for every body without a matching line: [seq_stream] yields
    the body and raises [UnboundLocalError], [seq_filesize] raises
    [RegexMatchError] after its GET. *)
Lemma seq_stream_missing_marker
    (urlopen : list request -> request -> exn + response)
    (url : string) (body0 : bytes) (passes : nat) (sent : list request)
    (chunk_size range_size : Z) :
  accepted (seq_url url 0) -> serves urlopen (seq_url url 0) body0 ->
  (0 < passes)%nat -> len body0 <= Z.of_nat passes * default_range_size ->
  scan_lines None (PyBytes.split_crlf body0) = None ->
  exists st,
    seq_stream urlopen passes sent url chunk_size range_size
    = (Raised (UnboundLocalError "segment_count"), st)
    /\ List.concat (seq_yielded st) = body0.
Proof.
  intros Hurl Hserved Hsome Hpasses Hnone. unfold seq_stream.
  change (base_url_of (parse.urlsplit url)
            ++ parse.urlencode
                 (set_sq 0 (parse.dict_of
                              (parse.parse_qsl (parse.query (parse.urlsplit url))))))%string
    with (seq_url url 0).
  destruct (@stream_served urlopen (seq_url url 0) body0
              default_chunk_size default_range_size Hurl Hserved
              ltac:(discriminate) ltac:(reflexivity) passes sent Hpasses Hsome)
    as (s & Hrun & _ & _ & _ & Hyield).
  rewrite Hrun, Hyield, Hnone. eexists. split; [reflexivity | exact Hyield].
Qed.

Lemma seq_filesize_missing_marker
    (urlopen : list request -> request -> exn + response)
    (url : string) (sent : list request) (r : response) :
  accepted (seq_url url 0) ->
  urlopen sent (get_request (seq_url url 0)) = inr r ->
  scan_lines None (PyBytes.split_crlf (body r)) = None ->
  seq_filesize urlopen sent url
  = (Raised (RegexMatchError "seq_filesize" segment_regex),
     sent ++ [get_request (seq_url url 0)]).
Proof.
  intros Hurl Hr Hnone. unfold seq_filesize.
  change (base_url_of (parse.urlsplit url)
            ++ parse.urlencode
                 (set_sq 0 (parse.dict_of
                              (parse.parse_qsl (parse.query (parse.urlsplit url))))))%string
    with (seq_url url 0).
  rewrite execute_accepted by assumption. cbv zeta.
  change {| req_url := seq_url url 0; req_method := Some "GET"; req_range := None |}
    with (get_request (seq_url url 0)).
  rewrite Hr, scan_lines_filesize_scan_lines, Hnone. reflexivity.
Qed.

(** Without a matching line [seq_stream] leaves [segment_count] unbound and
    [seq_filesize] leaves it at 0. *)
Lemma scan_lines_missing_marker (lines : list bytes) :
  Forall (fun line => search line = None) lines ->
  scan_lines None lines = None /\ scan_lines_filesize 0 lines = inr 0.
Proof.
  intros H. split; [apply scan_lines_no_match; assumption|].
  rewrite scan_lines_filesize_scan_lines, scan_lines_no_match by assumption.
  reflexivity.
Qed.


(** * [seq_stream] *)

Lemma setitem_setitem {V} (k : string) (v v' : V) (d : PyDict.dict V) :
  PyDict.setitem k v (PyDict.setitem k v' d) = PyDict.setitem k v d.
Proof.
  induction d as [|[k0 v0] d IH]; simpl.
  - rewrite String.eqb_refl. reflexivity.
  - destruct (String.eqb k0 k) eqn:E; simpl.
    + rewrite String.eqb_refl. reflexivity.
    + rewrite E, IH. reflexivity.
Qed.

Lemma set_sq_set_sq (j k : Z) (querys : PyDict.dict parse.qvalue) :
  set_sq k (set_sq j querys) = set_sq k querys.
Proof. apply setitem_setitem. Qed.

Lemma startswith_app (p s rest : string) :
  (String.length p <= String.length s)%nat ->
  PyStr.startswith p (s ++ rest) = PyStr.startswith p s.
Proof.
  revert s. induction p as [|a p IH]; intros s Hlen; [reflexivity|].
  destruct s as [|b s]; [simpl in Hlen; lia|].
  simpl. rewrite IH by (simpl in Hlen; lia). reflexivity.
Qed.

Lemma lower_length (s : string) : String.length (PyStr.lower s) = String.length s.
Proof. induction s as [|c s IH]; simpl; [reflexivity | now rewrite IH]. Qed.

Lemma append_length (x y : string) :
  String.length (x ++ y) = (String.length x + String.length y)%nat.
Proof. induction x as [|c x IH]; simpl; [reflexivity | now rewrite IH]. Qed.

Lemma lower_append (x y : string) :
  PyStr.lower (x ++ y) = (PyStr.lower x ++ PyStr.lower y)%string.
Proof. induction x as [|c x IH]; simpl; [reflexivity | now rewrite IH]. Qed.

(** The check of [_execute_request] reads the first four characters, which
    are in [base_url]: the URLs of all sequence numbers pass it or none. *)
Lemma accepted_seq_url (url : string) (j k : Z) :
  accepted (seq_url url j) -> accepted (seq_url url k).
Proof.
  assert (H : forall n, PyStr.startswith "http" (PyStr.lower (seq_url url n))
                        = PyStr.startswith "http"
                            (PyStr.lower (base_url_of (parse.urlsplit url)))).
  { intros n. unfold seq_url. cbv zeta. rewrite lower_append.
    apply startswith_app. rewrite lower_length. unfold base_url_of.
    rewrite !append_length. simpl. lia. }
  unfold accepted. rewrite !H. trivial.
Qed.

Lemma default_sizes : default_chunk_size <> 0 /\ 0 < default_range_size.
Proof. split; [discriminate | reflexivity]. Qed.

Section ServedSegments.

Variable urlopen : list request -> request -> exn + response.
Variables (url : string) (segment : Z -> bytes) (segment_count : Z).
Variable passes : nat.

Hypothesis url_accepted : accepted (seq_url url 0).
Hypothesis segments_served :
  forall k, 0 <= k <= segment_count -> serves urlopen (seq_url url k) (segment k).
Hypothesis enough_passes :
  forall k, 0 <= k <= segment_count ->
            len (segment k) <= Z.of_nat passes * default_range_size.
Hypothesis some_passes : (0 < passes)%nat.

Lemma seq_stream_loop_served :
  forall (todo : nat) (seq_num : Z) (querys : PyDict.dict parse.qvalue)
         (st : SeqState),
    1 <= seq_num -> Z.of_nat todo = segment_count + 1 - seq_num ->
    (forall k, set_sq k querys = set_sq k (url_querys url)) ->
    exists st',
      seq_stream_loop urlopen todo passes (base_url_of (parse.urlsplit url)) querys seq_num segment_count st
      = (Returned tt, st')
      /\ fetched st' = fetched st ++ map (seq_url url) (seq_numbers seq_num todo)
      /\ List.concat (seq_yielded st')
         = List.concat (seq_yielded st)
           ++ List.concat (map segment (seq_numbers seq_num todo))
      /\ seq_net st'
         = seq_net st ++ flat_map (segment_requests url passes segment) (seq_numbers seq_num todo).
Proof.
  induction todo as [|todo IH]; intros seq_num querys st Hnum Htodo Hq;
    cbn [seq_stream_loop seq_numbers].
  - replace (seq_num <=? segment_count) with false
      by (symmetry; apply Z.leb_gt; lia).
    exists st. simpl. rewrite !app_nil_r. repeat split; reflexivity.
  - replace (seq_num <=? segment_count) with true
      by (symmetry; apply Z.leb_le; lia).
    rewrite Hq.
    change ((base_url_of (parse.urlsplit url)) ++ parse.urlencode (set_sq seq_num (url_querys url)))%string
      with (seq_url url seq_num).
    assert (Hk : 0 <= seq_num <= segment_count) by lia.
    destruct (@stream_served urlopen (seq_url url seq_num) (segment seq_num)
                default_chunk_size default_range_size
                (accepted_seq_url url 0 seq_num url_accepted) (segments_served Hk)
                (proj1 default_sizes) (proj2 default_sizes)
                passes (seq_net st) (enough_passes Hk) some_passes)
      as (s & Hrun & _ & _ & Hnet & Hyield).
    rewrite Hrun.
    match goal with |- context [seq_stream_loop _ _ _ _ _ _ _ ?x] =>
      destruct (IH (seq_num + 1) (set_sq seq_num (url_querys url)) x)
        as (st' & Hloop & Hf & Hy & Hn) end;
      [lia | lia | intros k; apply set_sq_set_sq |].
    exists st'. split; [exact Hloop|].
    cbn [fetched seq_yielded seq_net] in Hf, Hy, Hn.
    split; [rewrite Hf, <- app_assoc; reflexivity|].
    split.
    + rewrite Hy, concat_app, Hyield, <- app_assoc. reflexivity.
    + rewrite Hn, Hnet, <- app_assoc. reflexivity.
Qed.

Hypothesis count_nonneg : 0 <= segment_count.
Hypothesis count_disclosed :
  scan_lines None (PyBytes.split_crlf (segment 0)) = Some segment_count.

Lemma seq_stream_served (sent : list request) (chunk_size range_size : Z) :
  let numbers := seq_numbers 0 (S (Z.to_nat segment_count)) in
  exists st,
    seq_stream urlopen passes sent url chunk_size range_size = (Returned tt, st)
    /\ fetched st = map (seq_url url) numbers
    /\ List.concat (seq_yielded st) = List.concat (map segment numbers)
    /\ seq_net st = sent ++ flat_map (segment_requests url passes segment) numbers.
Proof.
  intros numbers. unfold seq_stream. fold (url_querys url).
  change ((base_url_of (parse.urlsplit url)) ++ parse.urlencode (set_sq 0 (url_querys url)))%string
    with (seq_url url 0).
  assert (H0 : 0 <= 0 <= segment_count) by lia.
  destruct (@stream_served urlopen (seq_url url 0) (segment 0)
              default_chunk_size default_range_size
              url_accepted (segments_served H0)
              (proj1 default_sizes) (proj2 default_sizes)
              passes sent (enough_passes H0) some_passes)
    as (s & Hrun & _ & _ & Hnet & Hyield).
  rewrite Hrun, Hyield, count_disclosed.
  match goal with |- context [seq_stream_loop _ _ _ _ _ _ _ ?x] =>
    destruct (@seq_stream_loop_served (Z.to_nat segment_count) 1
                (set_sq 0 (url_querys url)) x)
      as (st' & Hloop & Hf & Hy & Hn) end;
    [lia | lia | intros k; apply set_sq_set_sq |].
  exists st'. split; [exact Hloop|].
  cbn [fetched seq_yielded seq_net] in Hf, Hy, Hn.
  unfold numbers. cbn [seq_numbers map flat_map List.concat].
  change (0 + 1) with 1.
  split; [exact Hf|]. split.
  - rewrite Hy, Hyield. reflexivity.
  - rewrite Hn, Hnet, <- app_assoc. reflexivity.
Qed.

End ServedSegments.

Lemma seq_numbers_length (first : Z) (count : nat) :
  List.length (seq_numbers first count) = count.
Proof.
  revert first. induction count as [|count IH]; intros first; simpl;
    [reflexivity | now rewrite IH].
Qed.


Lemma seq_numbers_nth (count : nat) :
  forall (first : Z) (i : nat),
    (i < count)%nat -> nth_error (seq_numbers first count) i = Some (first + Z.of_nat i).
Proof.
  induction count as [|count IH]; intros first i Hi; [lia|].
  destruct i as [|i]; simpl.
  - f_equal. lia.
  - rewrite IH by lia. f_equal. lia.
Qed.



Lemma sample_numbers (k : Z) : 0 <= k <= 2 -> k = 0 \/ k = 1 \/ k = 2.
Proof. lia. Qed.

Lemma sample_payload_segments (k : Z) :
  0 <= k <= 2 -> sample_payload (seq_url sample_url k) = sample_segments k.
Proof.
  intros H. destruct (sample_numbers H) as [-> | [-> | ->]]; reflexivity.
Qed.



(** * [seq_filesize] *)

Section SegmentSizes.

Variable urlopen : list request -> request -> exn + response.
Variables (url : string) (size : Z -> Z) (segment_count : Z).

Hypothesis url_accepted : accepted (seq_url url 0).
Hypothesis heads_answered :
  forall sent k, 1 <= k <= segment_count ->
    exists r, urlopen sent (head_request (seq_url url k)) = inr r
              /\ content_length_is r (size k).

Lemma head_content_length_served (sent : list request) (k : Z) :
  1 <= k <= segment_count ->
  head_content_length urlopen sent (seq_url url k)
  = (inr (size k), sent ++ [head_request (seq_url url k)]).
Proof.
  intros Hk. unfold head_content_length, head.
  rewrite execute_accepted by (apply (accepted_seq_url url 0); assumption).
  cbv zeta.
  destruct (heads_answered sent Hk) as (r & Hr & v & Hv & Hint).
  change {| req_url := seq_url url k; req_method := Some "HEAD"; req_range := None |}
    with (head_request (seq_url url k)).
  rewrite Hr, Hv, Hint. reflexivity.
Qed.

Lemma seq_filesize_loop_served :
  forall (todo : nat) (seq_num : Z) (querys : PyDict.dict parse.qvalue)
         (total_filesize : Z) (sent : list request),
    1 <= seq_num -> Z.of_nat todo = segment_count + 1 - seq_num ->
    (forall k, set_sq k querys = set_sq k (url_querys url)) ->
    seq_filesize_loop urlopen todo (base_url_of (parse.urlsplit url)) querys seq_num segment_count
                      total_filesize sent
    = (Returned (total_filesize + Zsum (map size (seq_numbers seq_num todo))),
       sent ++ map (fun k => head_request (seq_url url k)) (seq_numbers seq_num todo)).
Proof.
  induction todo as [|todo IH]; intros seq_num querys total sent Hnum Htodo Hq;
    cbn [seq_filesize_loop seq_numbers].
  - replace (seq_num <=? segment_count) with false
      by (symmetry; apply Z.leb_gt; lia).
    simpl. rewrite app_nil_r, Z.add_0_r. reflexivity.
  - replace (seq_num <=? segment_count) with true
      by (symmetry; apply Z.leb_le; lia).
    rewrite Hq.
    change ((base_url_of (parse.urlsplit url)) ++ parse.urlencode (set_sq seq_num (url_querys url)))%string
      with (seq_url url seq_num).
    rewrite head_content_length_served by lia.
    rewrite IH; [| lia | lia | intros k; apply set_sq_set_sq].
    cbn [map Zsum fold_right]. fold (Zsum (map size (seq_numbers (seq_num + 1) todo))).
    rewrite <- app_assoc. f_equal. f_equal. lia.
Qed.

End SegmentSizes.





(** * Rebuilding the URL *)

Module UrlFacts.

Import PyStrFacts.

Lemma getitem_setitem_same {V} (k : string) (v : V) (d : PyDict.dict V) :
  PyDict.getitem k (PyDict.setitem k v d) = Some v.
Proof.
  induction d as [|[k0 v0] d IH]; simpl.
  - now rewrite String.eqb_refl.
  - destruct (String.eqb k0 k) eqn:E; simpl.
    + now rewrite String.eqb_refl.
    + now rewrite E.
Qed.

Lemma getitem_setitem_other {V} (k k' : string) (v : V) (d : PyDict.dict V) :
  k <> k' -> PyDict.getitem k' (PyDict.setitem k v d) = PyDict.getitem k' d.
Proof.
  intros Hne. induction d as [|[k0 v0] d IH]; simpl.
  - apply String.eqb_neq in Hne. now rewrite Hne.
  - destruct (String.eqb k0 k) eqn:E; simpl.
    + apply String.eqb_eq in E. subst k0.
      apply String.eqb_neq in Hne. now rewrite Hne.
    + destruct (String.eqb k0 k'); [reflexivity | exact IH].
Qed.

Lemma getitem_of_pairs {V} (k : string) (pairs : list (string * V)) :
  forall d,
    PyDict.getitem k (fold_left (fun d kv => PyDict.setitem (fst kv) (snd kv) d) pairs d)
    = fold_left (fun acc kv => if String.eqb (fst kv) k then Some (snd kv) else acc)
                pairs (PyDict.getitem k d).
Proof.
  induction pairs as [|[k0 v0] pairs IH]; intros d; simpl; [reflexivity|].
  rewrite IH. f_equal.
  destruct (String.eqb_spec k0 k) as [-> | Hne].
  - apply getitem_setitem_same.
  - now apply getitem_setitem_other.
Qed.

Lemma getitem_dict_of (k : string) (pairs : list (string * string)) :
  PyDict.getitem k (parse.dict_of pairs) = option_map parse.QStr (last_value k pairs).
Proof.
  unfold parse.dict_of, PyDict.of_pairs, last_value. rewrite getitem_of_pairs.
  simpl PyDict.getitem.
  change (@None parse.qvalue) with (option_map parse.QStr None).
  generalize (@None string).
  induction pairs as [|[k0 v0] pairs IH]; intros acc; simpl; [reflexivity|].
  rewrite <- IH. f_equal. destruct (String.eqb k0 k); reflexivity.
Qed.

(** What [quote_plus] writes for one character is read back as that
    character, and holds neither ["&"] nor ["="]. *)
Lemma quote_plus_char (c : ascii) (rest : string) :
  parse.unquote (parse.plus_to_space (parse.quote_plus (String c rest)))
  = String c (parse.unquote (parse.plus_to_space (parse.quote_plus rest)))
  /\ parse.all_chars (fun c => negb (Ascii.eqb c "&")) (parse.quote_plus (String c rest))
     = parse.all_chars (fun c => negb (Ascii.eqb c "&")) (parse.quote_plus rest)
  /\ parse.all_chars (fun c => negb (Ascii.eqb c "=")) (parse.quote_plus (String c rest))
     = parse.all_chars (fun c => negb (Ascii.eqb c "=")) (parse.quote_plus rest)
  /\ parse.all_chars query_char (parse.quote_plus (String c rest))
     = parse.all_chars query_char (parse.quote_plus rest).
Proof.
  destruct c as [[] [] [] [] [] [] [] []]; repeat split; reflexivity.
Qed.

Lemma unquote_quote_plus (s : string) :
  parse.unquote (parse.plus_to_space (parse.quote_plus s)) = s.
Proof.
  induction s as [|c s IH]; [reflexivity|].
  rewrite (proj1 (quote_plus_char c s)), IH. reflexivity.
Qed.

Lemma quote_plus_chars (s : string) :
  parse.all_chars (fun c => negb (Ascii.eqb c "&")) (parse.quote_plus s) = true
  /\ parse.all_chars (fun c => negb (Ascii.eqb c "=")) (parse.quote_plus s) = true
  /\ parse.all_chars query_char (parse.quote_plus s) = true.
Proof.
  induction s as [|c s IH]; [repeat split; reflexivity|].
  destruct (quote_plus_char c s) as (_ & H1 & H2 & H3).
  rewrite H1, H2, H3. exact IH.
Qed.

Lemma quote_plus_nonempty (s : string) :
  s <> EmptyString -> parse.quote_plus s <> EmptyString.
Proof.
  destruct s as [|c s]; [congruence|]. intros _. simpl.
  destruct (parse.always_safe c); [discriminate|].
  destruct (Ascii.eqb c " "); discriminate.
Qed.

Lemma split1_at_sep (sep : ascii) (x y : string) :
  parse.all_chars (fun c => negb (Ascii.eqb c sep)) x = true ->
  PyStr.split1 sep (x ++ String sep y)%string = (x, Some y).
Proof.
  induction x as [|c x IH]; simpl.
  - intros _. now rewrite Ascii.eqb_refl.
  - intros H. apply andb_prop in H. destruct H as [Hc Hx].
    apply negb_true_iff in Hc. rewrite Hc, (IH Hx). reflexivity.
Qed.

(** One field written by [urlencode] is read back by [parse_qsl]. *)
Lemma parse_field_quoted (k v : string) :
  v <> EmptyString ->
  parse.parse_field (parse.quote_plus k ++ "=" ++ parse.quote_plus v)%string
  = [(k, v)].
Proof.
  intros Hv. unfold parse.parse_field.
  change (parse.quote_plus k ++ "=" ++ parse.quote_plus v)%string
    with (parse.quote_plus k ++ String "=" (parse.quote_plus v))%string.
  rewrite split1_at_sep by apply quote_plus_chars.
  pose proof (quote_plus_nonempty Hv) as Hq.
  pose proof (unquote_quote_plus v) as Hback.
  destruct (parse.quote_plus v) as [|v0 vs]; [congruence|].
  rewrite Hback, unquote_quote_plus. reflexivity.
Qed.

Lemma split_join (sep : ascii) (l : list string) :
  l <> [] ->
  Forall (fun x => parse.all_chars (fun c => negb (Ascii.eqb c sep)) x = true) l ->
  PyStr.split sep (parse.join (String sep EmptyString) l) = l.
Proof.
  induction l as [|x l IH]; [congruence|]. intros _ Hall.
  inversion Hall as [|? ? Hx Hl]; subst.
  destruct l as [|y l].
  - simpl. apply split_no_sep. assumption.
  - change (parse.join (String sep EmptyString) (x :: y :: l))
      with (x ++ String sep (parse.join (String sep EmptyString) (y :: l)))%string.
    rewrite split_at_sep by assumption.
    rewrite IH; [reflexivity | discriminate | assumption].
Qed.

(** [parse_qsl(urlencode(d))] gives back the keys and values of [d], as
    text, when no value is blank. *)
Lemma parse_qsl_urlencode (d : PyDict.dict parse.qvalue) :
  Forall (fun kv => parse.str_of (snd kv) <> EmptyString) d ->
  parse.parse_qsl (parse.urlencode d)
  = map (fun kv => (fst kv, parse.str_of (snd kv))) d.
Proof.
  intros Hd. unfold parse.parse_qsl, parse.urlencode.
  destruct d as [|kv d]; [reflexivity|].
  rewrite split_join.
  - induction Hd as [|[k v] d' Hv _ IH]; [reflexivity|].
    cbn [map flat_map fst snd]. rewrite parse_field_quoted by assumption.
    cbn [app]. f_equal. exact IH.
  - discriminate.
  - apply Forall_map. apply Forall_forall. intros [k v] _. cbn [fst snd].
    rewrite !all_chars_app. cbn [parse.all_chars].
    rewrite (proj1 (quote_plus_chars k)), (proj1 (quote_plus_chars (parse.str_of v))).
    reflexivity.
Qed.

Lemma urlencode_chars (d : PyDict.dict parse.qvalue) :
  parse.all_chars query_char (parse.urlencode d) = true.
Proof.
  unfold parse.urlencode.
  induction d as [|[k v] d IH]; [reflexivity|].
  assert (Hfield : parse.all_chars query_char
                     (parse.quote_plus k ++ "=" ++ parse.quote_plus (parse.str_of v))%string
                   = true).
  { rewrite !all_chars_app. cbn [parse.all_chars].
    rewrite (proj2 (proj2 (quote_plus_chars k))),
            (proj2 (proj2 (quote_plus_chars (parse.str_of v)))). reflexivity. }
  destruct d as [|kv d]; [exact Hfield|].
  cbn [map parse.join fst snd] in *.
  rewrite all_chars_app, Hfield. rewrite all_chars_app. cbn [parse.all_chars andb].
  change (query_char "&") with true. cbn [andb]. exact IH.
Qed.

Lemma unquote_nonempty (s : string) :
  s <> EmptyString -> parse.unquote s <> EmptyString.
Proof.
  destruct s as [|c tl]; [congruence|]. intros _. simpl.
  destruct (Ascii.eqb c "%"); [|discriminate].
  destruct tl as [|a [|b rest]]; try discriminate.
  destruct (parse.hex_value a); [|discriminate].
  destruct (parse.hex_value b); discriminate.
Qed.

Lemma parse_qsl_values (qs : string) :
  Forall (fun kv => snd kv <> EmptyString) (parse.parse_qsl qs).
Proof.
  unfold parse.parse_qsl. apply Forall_flat_map. apply Forall_forall.
  intros field _. unfold parse.parse_field.
  destruct (PyStr.split1 "=" field) as [name [[|v0 vs]|]]; repeat constructor.
  cbn [snd]. apply unquote_nonempty. discriminate.
Qed.

Lemma setitem_values {V} (P : V -> Prop) (k : string) (v : V) (d : PyDict.dict V) :
  P v -> Forall (fun kv => P (snd kv)) d ->
  Forall (fun kv => P (snd kv)) (PyDict.setitem k v d).
Proof.
  intros Hv. induction 1 as [|[k0 v0] d H0 Hd IH]; simpl.
  - repeat constructor. exact Hv.
  - destruct (String.eqb k0 k); constructor; assumption.
Qed.

Lemma dict_of_values (pairs : list (string * string)) :
  Forall (fun kv => snd kv <> EmptyString) pairs ->
  Forall (fun kv => parse.str_of (snd kv) <> EmptyString) (parse.dict_of pairs).
Proof.
  unfold parse.dict_of, PyDict.of_pairs. intros Hp.
  assert (Hstart : Forall (fun kv : string * parse.qvalue =>
                             parse.str_of (snd kv) <> EmptyString) [])
    by constructor.
  revert Hstart. generalize (@nil (string * parse.qvalue)).
  induction Hp as [|[k v] pairs Hv _ IH]; intros d Hd; simpl; [exact Hd|].
  apply IH. apply (setitem_values (fun v => parse.str_of v <> EmptyString));
    assumption.
Qed.

Lemma str_nonempty (n : Z) : PyStr.str n <> EmptyString.
Proof.
  assert (H : forall d, NilZero.string_of_uint d <> EmptyString)
    by (intros d; destruct d; discriminate).
  unfold PyStr.str. destruct n; cbn [Z.to_int NilZero.string_of_int];
    [apply H | apply H | discriminate].
Qed.

End UrlFacts.





(** * [_execute_request] *)

Lemma split1_parts (sep : ascii) (s : string) :
  forall a b, PyStr.split1 sep s = (a, Some b) -> s = (a ++ String sep b)%string.
Proof.
  induction s as [|c s IH]; intros a b; simpl; [discriminate|].
  destruct (Ascii.eqb_spec c sep) as [-> | Hne].
  - intros [= <- <-]. reflexivity.
  - destruct (PyStr.split1 sep s) as [a' b'] eqn:E. intros [= <- ->].
    simpl. f_equal. apply IH. reflexivity.
Qed.

Lemma scheme_of_urlsplit (url : string) :
  parse.scheme (parse.urlsplit url) = fst (parse.split_scheme url).
Proof.
  unfold parse.urlsplit. destruct (parse.split_scheme url) as [sch url1].
  destruct (parse.split_netloc url1) as [loc url2].
  destruct (PyStr.split1 "#" url2) as [url3 frag].
  destruct (PyStr.split1 "?" url3) as [pth qry]. reflexivity.
Qed.

(** A URL with a scheme starts, in lower case, with the scheme and a colon. *)
Lemma scheme_is_prefix (url : string) :
  parse.scheme (parse.urlsplit url) <> EmptyString ->
  exists rest,
    PyStr.lower url = (parse.scheme (parse.urlsplit url) ++ String ":" rest)%string.
Proof.
  rewrite scheme_of_urlsplit. unfold parse.split_scheme.
  destruct (PyStr.split1 ":" url) as [before after] eqn:E.
  destruct before as [|c0 rest0]; [simpl; congruence|].
  destruct after as [after|]; [|simpl; congruence].
  destruct (parse.is_alpha c0 && parse.all_chars parse.scheme_char rest0);
    [|simpl; congruence].
  intros _. cbn [fst]. apply split1_parts in E. rewrite E, lower_append.
  exists (PyStr.lower after). reflexivity.
Qed.

Lemma startswith_http_before_colon (s rest : string) :
  PyStr.startswith "http" (s ++ String ":" rest) = true ->
  PyStr.startswith "http" s = true.
Proof.
  destruct s as [|c1 [|c2 [|c3 [|c4 s]]]]; cbn [append PyStr.startswith];
    change (Ascii.eqb "h" ":") with false; change (Ascii.eqb "t" ":") with false;
    change (Ascii.eqb "p" ":") with false;
    rewrite ?andb_false_r; cbn [andb]; try discriminate; trivial.
Qed.





(** * Sizes of the windows and chunks, against any server *)

Section Sizes.

Variable urlopen : list request -> request -> exn + response.
Variables (chunk_size range_size : Z).
Hypothesis chunk_size_positive : 0 < chunk_size.

Lemma grows_refl sent out : grows chunk_size range_size sent sent out out.
Proof. split; exists []; rewrite app_nil_r; split; auto. Qed.

Lemma grows_trans sent1 sent2 sent3 out1 out2 out3 :
  grows chunk_size range_size sent1 sent2 out1 out2 -> grows chunk_size range_size sent2 sent3 out2 out3 ->
  grows chunk_size range_size sent1 sent3 out1 out3.
Proof.
  intros [(n1 & -> & H1) (c1 & -> & G1)] [(n2 & -> & H2) (c2 & -> & G2)].
  split; [exists (n1 ++ n2) | exists (c1 ++ c2)]; rewrite app_assoc;
    (split; [reflexivity | apply Forall_app; split; assumption]).
Qed.

Lemma stream_pass_grows (url : string) (st : StreamState) :
  let st' := snd (stream_pass urlopen url chunk_size range_size st) in
  grows chunk_size range_size (net st) (net st') (yielded st) (yielded st').
Proof.
  unfold stream_pass, _execute_request.
  set (stop_pos := Z.min (downloaded st + range_size) (file_size st) - 1).
  destruct (PyStr.startswith "http" (PyStr.lower url)); [|apply grows_refl].
  assert (Hnew : exists new,
             net st ++ [range_request url (downloaded st, stop_pos)] = net st ++ new
             /\ Forall (window_within range_size) new).
  { eexists. split; [reflexivity|]. constructor; [|constructor].
    exists (downloaded st), stop_pos. split; [reflexivity | unfold stop_pos; lia]. }
  match goal with |- context [urlopen ?s ?q] => destruct (urlopen s q) as [e | r] end.
  - split; [exact Hnew | exists []; rewrite app_nil_r; split; auto].
  - unfold discover_size. cbn [file_size with_net].
    destruct (file_size st =? range_size);
      [destruct (content_range_total r) as [e | n]; [destruct (caught e)|]|];
      cbn [snd read_response with_net net yielded];
      (split; [exact Hnew|]);
      try (exists []; rewrite app_nil_r; split; auto; fail);
      (eexists; split; [reflexivity | apply read_chunks_sizes; assumption]).
Qed.

Lemma stream_loop_grows (url : string) :
  forall (passes : nat) (st : StreamState),
    let st' := snd (stream_loop urlopen passes url chunk_size range_size st) in
    grows chunk_size range_size (net st) (net st') (yielded st) (yielded st').
Proof.
  induction passes as [|passes IH]; intros st; cbn [stream_loop].
  - destruct (downloaded st <? file_size st); apply grows_refl.
  - destruct (downloaded st <? file_size st); [|apply grows_refl].
    pose proof (stream_pass_grows url st) as Hpass. cbv zeta in Hpass.
    destruct (stream_pass urlopen url chunk_size range_size st) as [[e|] st1];
      cbn [snd] in *; [exact Hpass|].
    eapply grows_trans; [exact Hpass | apply IH].
Qed.

Lemma stream_pass_request (url : string) (st : StreamState) :
  let stop_pos := Z.min (downloaded st + range_size) (file_size st) - 1 in
  let run := stream_pass urlopen url chunk_size range_size st in
  net (snd run) = net st ++ [range_request url (downloaded st, stop_pos)]
  \/ (net (snd run) = net st /\ fst run <> None).
Proof.
  intros stop_pos. unfold stream_pass, _execute_request. fold stop_pos.
  destruct (PyStr.startswith "http" (PyStr.lower url));
    [|right; split; [reflexivity | discriminate]].
  left.
  match goal with |- context [urlopen ?s ?q] => destruct (urlopen s q) as [e | r] end;
    [reflexivity|].
  unfold discover_size. cbn [file_size with_net].
  destruct (file_size st =? range_size);
    [destruct (content_range_total r) as [e | n]; [destruct (caught e)|]|];
    reflexivity.
Qed.

Hypothesis range_size_positive : 0 < range_size.

(** A call makes no request only when it does not return; otherwise its
    first request asks for the window [0, range_size - 1]. *)
Lemma stream_first_request (url : string) (passes : nat) (sent : list request) :
  let run := stream urlopen passes sent url chunk_size range_size in
  (net (snd run) = sent /\ fst run <> Returned tt)
  \/ exists rest,
       net (snd run) = sent ++ range_request url (0, range_size - 1) :: rest.
Proof.
  unfold stream.
  assert (Hlt : (downloaded (stream_start sent range_size)
                 <? file_size (stream_start sent range_size)) = true)
    by (apply Z.ltb_lt; assumption).
  destruct passes as [|passes]; cbn [stream_loop]; rewrite Hlt.
  - left. split; [reflexivity | discriminate].
  - pose proof (stream_pass_request url (stream_start sent range_size)) as Hfirst.
    cbv zeta in Hfirst. cbn [stream_start downloaded file_size net] in Hfirst.
    rewrite Z.add_0_l, Z.min_id in Hfirst.
    fold (stream_start sent range_size) in Hfirst.
    destruct (stream_pass urlopen url chunk_size range_size
                (stream_start sent range_size)) as [[e|] st1]; cbn [fst snd] in *.
    + destruct Hfirst as [H | [H _]];
        [right; exists []; exact H | left; split; [exact H | discriminate]].
    + destruct Hfirst as [H | [_ H]]; [|congruence].
      destruct (stream_loop_grows url passes st1) as [(new & Hnew & _) _].
      right. exists new. rewrite Hnew, H, <- app_assoc. reflexivity.
Qed.

End Sizes.


Lemma default_chunk_size_positive : 0 < default_chunk_size.
Proof. reflexivity. Qed.

Lemma seq_stream_loop_grows urlopen (base_url : string) :
  forall (todo passes : nat) (querys : PyDict.dict parse.qvalue)
         (seq_num segment_count : Z) (st : SeqState),
    let st' := snd (seq_stream_loop urlopen todo passes base_url querys seq_num
                                    segment_count st) in
    grows default_chunk_size default_range_size
          (seq_net st) (seq_net st') (seq_yielded st) (seq_yielded st').
Proof.
  induction todo as [|todo IH]; intros passes querys seq_num segment_count st;
    cbn [seq_stream_loop].
  - destruct (seq_num <=? segment_count); apply grows_refl.
  - destruct (seq_num <=? segment_count); [|apply grows_refl].
    match goal with |- context [stream ?u ?p ?s ?x ?c ?w] =>
      pose proof (@stream_loop_grows u c w default_chunk_size_positive x p
                    (stream_start s w)) as Hcall;
      fold (stream u p s x c w) in Hcall;
      destruct (stream u p s x c w) as [o s1]
    end.
    cbv zeta in Hcall. cbn [snd stream_start net yielded] in Hcall.
    assert (Hstep : grows default_chunk_size default_range_size
                          (seq_net st) (net s1)
                          (seq_yielded st) (seq_yielded st ++ yielded s1)).
    { destruct Hcall as [Hn (chunks & Hy & Hc)]. split; [exact Hn|].
      exists chunks. split; [|exact Hc]. rewrite Hy. reflexivity. }
    destruct o as [[]| e |]; cbn [snd]; try exact Hstep.
    eapply grows_trans; [exact Hstep|].
    match goal with |- context [seq_stream_loop _ _ _ _ ?q ?n ?c ?x] =>
      exact (IH passes q n c x) end.
Qed.

Lemma seq_stream_unfold urlopen (passes : nat) (sent : list request) (url : string)
    (chunk_size range_size : Z) :
  seq_stream urlopen passes sent url chunk_size range_size
  = (let (o, s) := stream urlopen passes sent (seq_url url 0)
                          default_chunk_size default_range_size in
     let st := {| seq_net := net s; seq_yielded := yielded s;
                  fetched := [seq_url url 0] |} in
     match o with
     | Returned _ =>
         match scan_lines None (PyBytes.split_crlf (List.concat (yielded s))) with
         | None => (Raised (UnboundLocalError "segment_count"), st)
         | Some segment_count =>
             seq_stream_loop urlopen (Z.to_nat segment_count) passes
               (base_url_of (parse.urlsplit url))
               (set_sq 0 (parse.dict_of
                            (parse.parse_qsl (parse.query (parse.urlsplit url)))))
               1 segment_count st
         end
     | _ => (o, st)
     end).
Proof. reflexivity. Qed.

(** What [seq_stream] adds after its first [stream] call, which gave [o]
    and [s]. *)
Lemma seq_stream_after_first urlopen (passes : nat) (url : string)
    (o : outcome unit) (s : StreamState) :
  let st := {| seq_net := net s; seq_yielded := yielded s;
               fetched := [seq_url url 0] |} in
  let run :=
    match o with
    | Returned _ =>
        match scan_lines None (PyBytes.split_crlf (List.concat (yielded s))) with
        | None => (Raised (UnboundLocalError "segment_count"), st)
        | Some segment_count =>
            seq_stream_loop urlopen (Z.to_nat segment_count) passes
              (base_url_of (parse.urlsplit url))
              (set_sq 0 (parse.dict_of
                           (parse.parse_qsl (parse.query (parse.urlsplit url)))))
              1 segment_count st
        end
    | _ => (o, st)
    end in
  grows default_chunk_size default_range_size
        (net s) (seq_net (snd run)) (yielded s) (seq_yielded (snd run))
  /\ (o <> Returned tt -> seq_net (snd run) = net s).
Proof.
  intros st run. subst run.
  destruct o as [[]| e |]; cbn [snd]; try (split; [apply grows_refl | reflexivity]).
  destruct (scan_lines None (PyBytes.split_crlf (List.concat (yielded s))))
    as [segment_count|]; [|split; [apply grows_refl | congruence]].
  split; [|congruence].
  match goal with |- context [seq_stream_loop ?u ?t ?p ?b ?q ?n ?c ?x] =>
    exact (@seq_stream_loop_grows u b t p q n c x) end.
Qed.


(** * The rest of the library model, checked on values

    The right-hand sides are again what CPython 3.11 gives. *)

Example utf8_accepts_multibyte :
  Full.utf8_valid [xc3; xa9; xe6; x97; xa5; xf0; x9f; x98; x80] = true
  /\ Full.utf8_valid [xf4; x8f; xbf; xbf] = true
  /\ Full.utf8_valid [xed; x9f; xbf] = true.
Proof. repeat split; reflexivity. Qed.

Example utf8_rejects_malformed :
  Full.utf8_valid [xc0; x80] = false
  /\ Full.utf8_valid [xe0; x80; x80] = false
  /\ Full.utf8_valid [xed; xa0; x80] = false
  /\ Full.utf8_valid [xe6; x97] = false
  /\ Full.utf8_valid [xf4; x90; x80; x80] = false.
Proof. repeat split; reflexivity. Qed.

Example truth_values :
  map Full.truthy
      [Full.VNone; Full.VBytes []; Full.VDict []; Full.VInt 0; Full.VStr "";
       Full.VBool false; Full.VList []; Full.VBytes [x00]; Full.VInt (-1);
       Full.VDict [("a", Full.VNone)]]
  = [false; false; false; false; false; false; false; true; true; true].
Proof. reflexivity. Qed.

Example update_in_place :
  Full.update [("a", "1"); ("b", "2")] [("b", "3"); ("c", "4")]
  = [("a", "1"); ("b", "3"); ("c", "4")].
Proof. reflexivity. Qed.

Example range_header_text : Full.range_header 0 9437183 = "bytes=0-9437183".
Proof. reflexivity. Qed.

Example cache_of_three_calls :
  let size := fun (sent : list request) (url : string) =>
                (Returned (Z.of_nat (String.length url)), sent ++ [head_request url]) in
  let '(_, c1, s1) := lru.call size [] [] "a" in
  let '(_, c2, s2) := lru.call size c1 s1 "bb" in
  let '(_, c3, s3) := lru.call size c2 s2 "a" in
  c3 = [("bb", 2); ("a", 1)] /\ s3 = [head_request "a"; head_request "bb"].
Proof. split; reflexivity. Qed.

(** * Runs of [stream] against an arbitrary server *)

Lemma read_chunks_no_empty (chunk_size : Z) :
  forall (reads : nat) (rest : bytes),
    no_empty_chunk (read_chunks reads chunk_size rest).
Proof.
  induction reads as [|reads IH]; intros rest; cbn [read_chunks].
  - constructor.
  - destruct (read chunk_size rest) as [chunk rest'].
    destruct chunk as [|c chunk]; constructor; [discriminate | apply IH].
Qed.

Lemma no_empty_chunk_app (xs ys : list bytes) :
  no_empty_chunk xs -> no_empty_chunk ys -> no_empty_chunk (xs ++ ys).
Proof. intros Hx Hy. apply Forall_app. split; assumption. Qed.

Lemma len_app (x y : bytes) : len (x ++ y) = len x + len y.
Proof. unfold len. rewrite length_app. lia. Qed.

Lemma read_response_counted (chunk_size : Z) (r : response) (st : StreamState) :
  counted st -> counted (read_response chunk_size r st).
Proof.
  intros [Hne Hd]. unfold counted, read_response.
  cbn [yielded downloaded]. split.
  - apply no_empty_chunk_app; [exact Hne | apply read_chunks_no_empty].
  - rewrite downloaded_sum, concat_app, len_app. lia.
Qed.

Lemma discover_size_counted (range_size : Z) (r : response)
    (st st' : StreamState) :
  discover_size range_size r st = inr st' ->
  yielded st' = yielded st /\ downloaded st' = downloaded st /\ net st' = net st.
Proof.
  unfold discover_size.
  destruct (file_size st =? range_size); [|intros [= <-]; auto].
  destruct (content_range_total r) as [e|n].
  - destruct (caught e); [intros [= <-]; auto | discriminate].
  - intros [= <-]; auto.
Qed.

Lemma stream_pass_counted urlopen (url : string) (chunk_size range_size : Z)
    (st : StreamState) :
  counted st -> counted (snd (stream_pass urlopen url chunk_size range_size st)).
Proof.
  intros Hc. unfold stream_pass.
  destruct (_execute_request urlopen (net st) url (Some "GET")
              (Some (downloaded st,
                     Z.min (downloaded st + range_size) (file_size st) - 1)))
    as [[e|r] sent']; cbn [snd]; [exact Hc|].
  destruct (discover_size range_size r (with_net sent' st)) as [e|st'] eqn:Hd;
    cbn [snd]; [exact Hc|].
  apply read_response_counted.
  apply discover_size_counted in Hd. destruct Hd as (Hy & Hdl & _).
  destruct Hc as [Hne Hdn]. unfold counted. rewrite Hy, Hdl. split; assumption.
Qed.

Lemma stream_loop_counted urlopen (url : string) (chunk_size range_size : Z) :
  forall (passes : nat) (st : StreamState),
    counted st ->
    counted (snd (stream_loop urlopen passes url chunk_size range_size st)).
Proof.
  induction passes as [|passes IH]; intros st Hc; cbn [stream_loop];
    destruct (downloaded st <? file_size st); cbn [snd]; try exact Hc.
  pose proof (@stream_pass_counted urlopen url chunk_size range_size st Hc) as Hp.
  destruct (stream_pass urlopen url chunk_size range_size st) as [[e|] st'];
    cbn [snd] in *; [exact Hp | apply IH; exact Hp].
Qed.

Lemma stream_counted urlopen (passes : nat) (sent : list request) (url : string)
    (chunk_size range_size : Z) :
  counted (snd (stream urlopen passes sent url chunk_size range_size)).
Proof.
  apply stream_loop_counted. split; [constructor | reflexivity].
Qed.

Lemma seq_stream_loop_no_empty urlopen (base_url : string) :
  forall (todo passes : nat) (querys : PyDict.dict parse.qvalue)
         (seq_num segment_count : Z) (st : SeqState),
    no_empty_chunk (seq_yielded st) ->
    no_empty_chunk
      (seq_yielded (snd (seq_stream_loop urlopen todo passes base_url querys
                                         seq_num segment_count st))).
Proof.
  induction todo as [|todo IH]; intros passes querys seq_num segment_count st Hst;
    cbn [seq_stream_loop];
    destruct (seq_num <=? segment_count); cbn [snd]; try exact Hst.
  match goal with |- context [stream ?u ?p ?s ?x ?c ?w] =>
    pose proof (@stream_counted u p s x c w) as [Hcall _];
    destruct (stream u p s x c w) as [o s1]
  end.
  cbn [snd] in Hcall.
  pose proof (no_empty_chunk_app Hst Hcall) as Hstep.
  destruct o as [[]| e |]; cbn [snd seq_yielded]; try exact Hstep.
  apply IH. exact Hstep.
Qed.

(** X1. Neither [stream] nor [seq_stream] ever yields an empty chunk,
    whatever the server answers and whatever sizes the caller gives: the
    read loop stops at the first empty read instead of yielding it. *)
Theorem stream_never_yields_empty_chunk
    (urlopen : list request -> request -> exn + response)
    (passes : nat) (sent : list request) (url : string)
    (chunk_size range_size : Z) :
  no_empty_chunk (yielded (snd (stream urlopen passes sent url chunk_size range_size)))
  /\ no_empty_chunk
       (seq_yielded (snd (seq_stream urlopen passes sent url chunk_size range_size))).
Proof.
  split; [apply stream_counted|].
  rewrite seq_stream_unfold.
  pose proof (@stream_counted urlopen passes sent (seq_url url 0)
                default_chunk_size default_range_size) as [Hcall _].
  destruct (stream urlopen passes sent (seq_url url 0) default_chunk_size
                   default_range_size) as [o s0].
  cbn [snd] in Hcall.
  destruct o as [[]| e |]; cbn [snd seq_yielded]; try exact Hcall.
  destruct (scan_lines None (PyBytes.split_crlf (List.concat (yielded s0))))
    as [segment_count|]; cbn [snd seq_yielded]; [|exact Hcall].
  apply seq_stream_loop_no_empty. exact Hcall.
Qed.

(** X2. The counter [downloaded] of [stream] is at every exit the number
    of bytes in the chunks yielded, so it is never negative, whatever the
    server answers. *)
Theorem stream_downloaded_counts_yielded_bytes
    (urlopen : list request -> request -> exn + response)
    (passes : nat) (sent : list request) (url : string)
    (chunk_size range_size : Z) :
  let st := snd (stream urlopen passes sent url chunk_size range_size) in
  downloaded st = len (List.concat (yielded st)) /\ 0 <= downloaded st.
Proof.
  intros st.
  destruct (@stream_counted urlopen passes sent url chunk_size range_size)
    as [_ Hd].
  fold st in Hd. split; [exact Hd|]. rewrite Hd. apply len_nonneg.
Qed.

Lemma stream_pass_proper urlopen (url : string) (chunk_size range_size : Z)
    (st : StreamState) :
  0 < range_size -> 0 <= downloaded st < file_size st ->
  exists new,
    net (snd (stream_pass urlopen url chunk_size range_size st)) = net st ++ new
    /\ Forall (proper_window url range_size) new.
Proof.
  intros HW HD. unfold stream_pass, _execute_request.
  destruct (PyStr.startswith "http" (PyStr.lower url)).
  - match goal with |- context [urlopen ?s ?q] =>
      assert (Hq : Forall (proper_window url range_size) [q]);
      [|destruct (urlopen s q) as [e|r]] end.
    { constructor; [|constructor].
      exists (downloaded st),
             (Z.min (downloaded st + range_size) (file_size st) - 1).
      split; [reflexivity | lia]. }
    + eexists. split; [reflexivity | exact Hq].
    + match goal with |- context [discover_size ?w ?x ?s] =>
        destruct (discover_size w x s) as [e|st'] eqn:Hd end; cbn [snd].
      * eexists. split; [reflexivity | exact Hq].
      * apply discover_size_counted in Hd. destruct Hd as (_ & _ & Hn).
        cbn [read_response net]. rewrite Hn.
        eexists. split; [reflexivity | exact Hq].
  - exists []. split; [cbn; rewrite app_nil_r; reflexivity | constructor].
Qed.

Lemma stream_loop_proper urlopen (url : string) (chunk_size range_size : Z) :
  0 < range_size ->
  forall (passes : nat) (st : StreamState),
    counted st ->
    exists new,
      net (snd (stream_loop urlopen passes url chunk_size range_size st))
      = net st ++ new
      /\ Forall (proper_window url range_size) new.
Proof.
  intros HW. induction passes as [|passes IH]; intros st Hc; cbn [stream_loop];
    destruct (downloaded st <? file_size st) eqn:Hlt; cbn [snd];
    try (exists []; split; [rewrite app_nil_r; reflexivity | constructor]).
  apply Z.ltb_lt in Hlt.
  assert (H0 : 0 <= downloaded st)
    by (destruct Hc as [_ ->]; apply len_nonneg).
  destruct (@stream_pass_proper urlopen url chunk_size range_size st HW
              (conj H0 Hlt)) as (new & Hn & Hp).
  pose proof (@stream_pass_counted urlopen url chunk_size range_size st Hc) as Hc'.
  destruct (stream_pass urlopen url chunk_size range_size st) as [[e|] st'];
    cbn [snd] in *.
  - exists new. split; assumption.
  - destruct (IH st' Hc') as (more & Hm & Hpm).
    exists (new ++ more). split.
    + rewrite Hm, Hn, app_assoc. reflexivity.
    + apply Forall_app. split; assumption.
Qed.

(** X3. Whatever the server answers, every request [stream] makes is a
    ranged GET for the URL it was given, for a window that starts at an
    offset of at least 0, is not empty and holds at most [range_size]
    bytes. *)
Theorem stream_requests_are_proper_windows
    (urlopen : list request -> request -> exn + response)
    (passes : nat) (sent : list request) (url : string)
    (chunk_size range_size : Z) :
  0 < range_size ->
  exists new,
    net (snd (stream urlopen passes sent url chunk_size range_size)) = sent ++ new
    /\ Forall (proper_window url range_size) new.
Proof.
  intros HW.
  apply (@stream_loop_proper urlopen url chunk_size range_size HW passes
           (stream_start sent range_size)).
  split; [constructor | reflexivity].
Qed.

Lemma stream_requests_are_proper_windows_witness :
  exists new,
    net (snd (stream (range_server (fun _ => list_byte_of_string "0123456789"))
                     3 [] "http://host/video" 3 4)) = [] ++ new
    /\ Forall (proper_window "http://host/video" 4) new.
Proof.
  apply (@stream_requests_are_proper_windows
           (range_server (fun _ => list_byte_of_string "0123456789"))
           3 [] "http://host/video" 3 4).
  lia.
Defined.



(** X5. A header mapping whose lookup of [Content-Range] gives [None]
    instead of raising ends the download: [None.split] raises
    [AttributeError], which the [except] clause does not list, so [stream]
    raises it after its first request and yields nothing. *)
Theorem stream_none_header_aborts
    (urlopen : list request -> request -> exn + response)
    (passes : nat) (sent : list request) (url : string)
    (chunk_size range_size : Z) (r : response) :
  accepted url -> 0 < range_size -> (0 < passes)%nat ->
  urlopen sent (range_request url (0, range_size - 1)) = inr r ->
  content_range r = ReturnsNone ->
  stream urlopen passes sent url chunk_size range_size
  = (Raised AttributeError,
     {| file_size := range_size; downloaded := 0;
        net := sent ++ [range_request url (0, range_size - 1)];
        yielded := []; logged := []; assigned := [] |}).
Proof.
  intros Hacc HW Hp Hr Hnone.
  destruct passes as [|passes]; [lia|].
  unfold stream, stream_start. cbn [stream_loop downloaded file_size].
  replace (0 <? range_size) with true by (symmetry; apply Z.ltb_lt; lia).
  unfold stream_pass. cbn [downloaded file_size net].
  rewrite (execute_accepted urlopen sent (Some "GET") _ Hacc). cbv zeta.
  replace (Z.min (0 + range_size) range_size - 1) with (range_size - 1) by lia.
  fold (range_request url (0, range_size - 1)). rewrite Hr.
  unfold discover_size, with_net. cbn [file_size].
  rewrite Z.eqb_refl. unfold content_range_total. rewrite Hnone.
  reflexivity.
Qed.

Lemma stream_none_header_aborts_witness :
  let r := {| content_range := ReturnsNone; items := [];
              body := list_byte_of_string "abc" |} in
  stream (fun _ _ => inr r) 1 [] "http://host/video" 4096 10
  = (Raised AttributeError,
     {| file_size := 10; downloaded := 0;
        net := [] ++ [range_request "http://host/video" (0, 10 - 1)];
        yielded := []; logged := []; assigned := [] |}).
Proof.
  intros r.
  apply (@stream_none_header_aborts (fun _ _ => inr r) 1 []
           "http://host/video" 4096 10 r).
  - reflexivity.
  - lia.
  - lia.
  - reflexivity.
  - reflexivity.
Defined.

Lemma uncaught_is_none_lookup (r : response) (e : exn) :
  content_range_total r = inl e -> caught e = false ->
  e = AttributeError /\ content_range r = ReturnsNone.
Proof.
  unfold content_range_total.
  destruct (content_range r) as [| |v].
  - intros [= <-]. discriminate.
  - intros [= <-]. auto.
  - destruct (nth_error (PyStr.split "/" v) 1) as [total|].
    + destruct (PyStr.int total); [discriminate|]. intros [= <-]. discriminate.
    + intros [= <-]. discriminate.
Qed.

Lemma stream_pass_raises urlopen (url : string) (chunk_size range_size : Z)
    (st : StreamState) (e : exn) :
  accepted url ->
  fst (stream_pass urlopen url chunk_size range_size st) = Some e ->
  (exists sent' rq, urlopen sent' rq = inl e)
  \/ (e = AttributeError
      /\ exists sent' rq r, urlopen sent' rq = inr r /\ content_range r = ReturnsNone).
Proof.
  intros Hacc. unfold stream_pass.
  rewrite (execute_accepted urlopen (net st) (Some "GET") _ Hacc). cbv zeta.
  match goal with |- context [urlopen ?s ?q] =>
    destruct (urlopen s q) as [e'|r] eqn:Hr end.
  - cbn [fst]. intros [= <-]. left. eauto.
  - match goal with |- context [discover_size ?w ?x ?s] =>
      destruct (discover_size w x s) as [e'|st'] eqn:Hd end; cbn [fst];
      [|discriminate].
    intros [= <-]. right.
    unfold discover_size in Hd.
    match type of Hd with context [if ?c then _ else _] => destruct c end;
      [|discriminate].
    destruct (content_range_total r) as [e0|n] eqn:Ht; [|discriminate].
    destruct (caught e0) eqn:Hc; [discriminate|].
    injection Hd as <-.
    destruct (uncaught_is_none_lookup r Ht Hc) as [-> Hnone].
    split; [reflexivity|]. eauto.
Qed.

Lemma stream_loop_raises_accepted urlopen (url : string)
    (chunk_size range_size : Z) (e : exn) :
  accepted url ->
  forall (passes : nat) (st : StreamState),
    fst (stream_loop urlopen passes url chunk_size range_size st) = Raised e ->
    (exists sent' rq, urlopen sent' rq = inl e)
    \/ (e = AttributeError
        /\ exists sent' rq r,
             urlopen sent' rq = inr r /\ content_range r = ReturnsNone).
Proof.
  intros Hacc. induction passes as [|passes IH]; intros st; cbn [stream_loop];
    destruct (downloaded st <? file_size st); cbn [fst]; try discriminate.
  pose proof (@stream_pass_raises urlopen url chunk_size range_size st) as Hp.
  destruct (stream_pass urlopen url chunk_size range_size st) as [[e'|] st'];
    cbn [fst] in *.
  - intros [= <-]. apply Hp; [exact Hacc | reflexivity].
  - apply IH.
Qed.

Lemma stream_loop_raises_rejected urlopen (url : string)
    (chunk_size range_size : Z) (e : exn) (passes : nat) (st : StreamState) :
  ~ accepted url ->
  fst (stream_loop urlopen passes url chunk_size range_size st) = Raised e ->
  e = ValueError "Invalid URL"
  /\ net (snd (stream_loop urlopen passes url chunk_size range_size st)) = net st
  /\ yielded (snd (stream_loop urlopen passes url chunk_size range_size st))
     = yielded st.
Proof.
  intros Hrej. unfold accepted in Hrej.
  destruct passes as [|passes]; cbn [stream_loop];
    destruct (downloaded st <? file_size st); cbn [fst]; try discriminate.
  unfold stream_pass, _execute_request.
  destruct (PyStr.startswith "http" (PyStr.lower url)); [congruence|].
  cbn. intros [= <-]. auto.
Qed.



Lemma stream_pass_parsed_once urlopen (url : string) (chunk_size range_size : Z)
    (sent : list request) (st : StreamState) :
  parsed_once sent st ->
  parsed_once sent (snd (stream_pass urlopen url chunk_size range_size st)).
Proof.
  intros [Hcaught Hcount]. unfold stream_pass, _execute_request.
  destruct (PyStr.startswith "http" (PyStr.lower url)); [|split; assumption].
  match goal with |- context [urlopen ?s ?q] => destruct (urlopen s q) as [e|r] end.
  { split; [exact Hcaught|]. cbn. rewrite length_app. cbn. lia. }
  unfold discover_size, with_net. cbn [file_size].
  destruct (file_size st =? range_size).
  - destruct (content_range_total r) as [e|n].
    + destruct (caught e) eqn:He.
      * split; cbn.
        -- apply Forall_app. split; [exact Hcaught | repeat constructor; exact He].
        -- rewrite !length_app. cbn. lia.
      * split; [exact Hcaught|]. cbn. rewrite length_app. cbn. lia.
    + split; [exact Hcaught|]. cbn. rewrite !length_app. cbn. lia.
  - split; [exact Hcaught|]. cbn. rewrite length_app. cbn. lia.
Qed.

Lemma stream_loop_parsed_once urlopen (url : string) (chunk_size range_size : Z)
    (sent : list request) :
  forall (passes : nat) (st : StreamState),
    parsed_once sent st ->
    parsed_once sent (snd (stream_loop urlopen passes url chunk_size range_size st)).
Proof.
  induction passes as [|passes IH]; intros st Hst; cbn [stream_loop];
    destruct (downloaded st <? file_size st); cbn [snd]; try exact Hst.
  pose proof (@stream_pass_parsed_once urlopen url chunk_size range_size sent st
                Hst) as Hp.
  destruct (stream_pass urlopen url chunk_size range_size st) as [[e|] st'];
    cbn [snd] in *; [exact Hp | apply IH; exact Hp].
Qed.

(** X25. What [stream] logs: only exceptions the [except] clause lists,
    [KeyError], [IndexError] and [ValueError], and for each request at most
    one entry; a request whose response set [file_size] logged nothing.
    This holds for any server. *)
Theorem stream_logs_parse_failures_once
    (urlopen : list request -> request -> exn + response)
    (passes : nat) (sent : list request) (url : string)
    (chunk_size range_size : Z) :
  let st := snd (stream urlopen passes sent url chunk_size range_size) in
  Forall (fun e => caught e = true) (logged st)
  /\ (List.length (logged st) + List.length (assigned st) + List.length sent
      <= List.length (net st))%nat.
Proof.
  apply (@stream_loop_parsed_once urlopen url chunk_size range_size sent passes
           (stream_start sent range_size)).
  split; [constructor | cbn; lia].
Qed.

(** * The read loop, chunk by chunk *)

Lemma read_chunks_of_empty (reads : nat) (chunk_size : Z) :
  read_chunks reads chunk_size [] = [].
Proof.
  destruct reads as [|reads]; [reflexivity|].
  cbn [read_chunks]. unfold read.
  destruct (chunk_size <? 0); [reflexivity|].
  rewrite firstn_nil. reflexivity.
Qed.

Lemma read_chunks_exact (chunk_size : Z) :
  0 < chunk_size ->
  forall (reads : nat) (rest : bytes),
    (List.length rest < reads)%nat ->
    Z.of_nat (List.length (read_chunks reads chunk_size rest))
    = ceil_div (len rest) chunk_size
    /\ Forall (fun chunk => len chunk = chunk_size)
              (removelast (read_chunks reads chunk_size rest)).
Proof.
  intros Hcs. induction reads as [|reads IH]; intros rest Hlen; [lia|].
  destruct rest as [|c rest].
  { rewrite read_chunks_of_empty. cbn [List.length removelast].
    split; [symmetry; apply ceil_div_zero; exact Hcs | constructor]. }
  cbn [read_chunks]. unfold read.
  replace (chunk_size <? 0) with false by (symmetry; apply Z.ltb_ge; lia).
  destruct (Z.to_nat chunk_size) as [|n] eqn:En; [lia|].
  cbn [firstn skipn].
  cbn [List.length] in Hlen.
  assert (Hrest : (List.length (skipn n rest) < reads)%nat)
    by (rewrite length_skipn; lia).
  destruct (IH (skipn n rest) Hrest) as [Hcount Hsizes].
  cbn [List.length]. rewrite Nat2Z.inj_succ, Hcount.
  unfold len in *. rewrite length_skipn in *. cbn [List.length].
  destruct (le_lt_dec (List.length rest) n) as [Hshort|Hlong].
  - replace (List.length rest - n)%nat with 0%nat by lia.
    rewrite ceil_div_zero by exact Hcs.
    rewrite ceil_div_small by lia.
    split; [reflexivity|].
    rewrite skipn_all2 by exact Hshort. rewrite read_chunks_of_empty.
    constructor.
  - split.
    + replace (Z.of_nat (S (List.length rest)))
        with (Z.of_nat (List.length rest - n) + chunk_size) by lia.
      rewrite ceil_div_step by exact Hcs. lia.
    + destruct (read_chunks reads chunk_size (skipn n rest)) as [|x tail] eqn:Et;
        [constructor|].
      change (removelast ((c :: firstn n rest) :: x :: tail))
        with ((c :: firstn n rest) :: removelast (x :: tail)).
      constructor; [|exact Hsizes].
      cbn [List.length]. rewrite length_firstn. lia.
Qed.



(** * [seq_stream] and [seq_filesize] against an arbitrary server *)

Lemma seq_stream_loop_fetched urlopen (url : string) :
  forall (todo passes : nat) (querys : PyDict.dict parse.qvalue)
         (seq_num segment_count : Z) (st : SeqState),
    (forall k, set_sq k querys = set_sq k (url_querys url)) ->
    exists n,
      fetched (snd (seq_stream_loop urlopen todo passes
                      (base_url_of (parse.urlsplit url)) querys seq_num
                      segment_count st))
      = fetched st ++ map (seq_url url) (seq_numbers seq_num n).
Proof.
  induction todo as [|todo IH]; intros passes querys seq_num segment_count st Hq;
    cbn [seq_stream_loop];
    destruct (seq_num <=? segment_count); cbn [snd];
    try (exists O; cbn; rewrite app_nil_r; reflexivity).
  rewrite Hq.
  change ((base_url_of (parse.urlsplit url))
            ++ parse.urlencode (set_sq seq_num (url_querys url)))%string
    with (seq_url url seq_num).
  destruct (stream urlopen passes (seq_net st) (seq_url url seq_num)
                   default_chunk_size default_range_size) as [o s1].
  destruct o as [[]| e |]; cbn [snd fetched];
    try (exists 1%nat; reflexivity).
  match goal with |- context [seq_stream_loop _ _ _ _ ?q ?n ?c ?x] =>
    destruct (IH passes q n c x) as (m & Hm) end;
    [intros k; apply set_sq_set_sq|].
  exists (S m). rewrite Hm. cbn [fetched seq_numbers map].
  rewrite <- app_assoc. reflexivity.
Qed.


Lemma lower_char_lower_char (c : ascii) :
  PyStr.lower_char (PyStr.lower_char c) = PyStr.lower_char c.
Proof. destruct c as [[] [] [] [] [] [] [] []]; reflexivity. Qed.

Lemma lower_lower (s : string) : PyStr.lower (PyStr.lower s) = PyStr.lower s.
Proof.
  induction s as [|c s IH]; simpl; [reflexivity|].
  rewrite lower_char_lower_char, IH. reflexivity.
Qed.

Lemma scheme_lower (url : string) :
  PyStr.lower (parse.scheme (parse.urlsplit url)) = parse.scheme (parse.urlsplit url).
Proof.
  rewrite scheme_of_urlsplit. unfold parse.split_scheme.
  destruct (PyStr.split1 ":" url) as [[|c0 rest0] [after|]]; try reflexivity.
  destruct (parse.is_alpha c0 && parse.all_chars parse.scheme_char rest0);
    [|reflexivity].
  cbn [fst]. apply lower_lower.
Qed.

Lemma startswith_app_true (p s rest : string) :
  PyStr.startswith p s = true -> PyStr.startswith p (s ++ rest) = true.
Proof.
  revert s. induction p as [|a p IH]; intros s; [reflexivity|].
  destruct s as [|b s]; simpl; [discriminate|].
  destruct (Ascii.eqb a b); [apply IH | discriminate].
Qed.

Lemma lower_base_url (url : string) :
  exists rest,
    PyStr.lower (base_url_of (parse.urlsplit url))
    = (parse.scheme (parse.urlsplit url) ++ String ":" rest)%string.
Proof.
  unfold base_url_of. rewrite lower_append, scheme_lower.
  eexists. reflexivity.
Qed.

Lemma accepted_seq_url_base (url : string) (k : Z) :
  PyStr.startswith "http" (PyStr.lower (seq_url url k))
  = PyStr.startswith "http" (PyStr.lower (base_url_of (parse.urlsplit url))).
Proof.
  unfold seq_url. cbv zeta. rewrite lower_append.
  apply startswith_app. rewrite lower_length. unfold base_url_of.
  rewrite !append_length. simpl. lia.
Qed.

(** X8. The URL check that [seq_stream] and [seq_filesize] run into is made
    on the rebuilt URL, so it reads the scheme [urlsplit] found: the rebuilt
    URL of any sequence number passes the check exactly when that scheme
    starts with ["http"]. *)
Theorem seq_url_accepted_by_scheme (url : string) (seq_num : Z) :
  accepted (seq_url url seq_num)
  <-> PyStr.startswith "http" (parse.scheme (parse.urlsplit url)) = true.
Proof.
  unfold accepted. rewrite accepted_seq_url_base.
  destruct (lower_base_url url) as (rest & ->).
  split.
  - apply startswith_http_before_colon.
  - apply startswith_app_true.
Qed.

Lemma stream_rejected urlopen (passes : nat) (sent : list request) (url : string)
    (chunk_size range_size : Z) :
  ~ accepted url -> 0 < range_size -> (0 < passes)%nat ->
  stream urlopen passes sent url chunk_size range_size
  = (Raised (ValueError "Invalid URL"), stream_start sent range_size).
Proof.
  intros Hrej HW Hp. unfold accepted in Hrej.
  destruct passes as [|passes]; [lia|].
  unfold stream, stream_start. cbn [stream_loop downloaded file_size].
  replace (0 <? range_size) with true by (symmetry; apply Z.ltb_lt; lia).
  unfold stream_pass, _execute_request.
  destruct (PyStr.startswith "http" (PyStr.lower url)); [congruence|].
  reflexivity.
Qed.



Lemma seq_filesize_after_get urlopen (url : string) (sent : list request)
    (r0 : response) (segment_count : Z) :
  accepted (seq_url url 0) ->
  urlopen sent (get_request (seq_url url 0)) = inr r0 ->
  scan_lines_filesize 0 (PyBytes.split_crlf (body r0)) = inr segment_count ->
  segment_count <> 0 ->
  seq_filesize urlopen sent url
  = seq_filesize_loop urlopen (Z.to_nat segment_count)
      (base_url_of (parse.urlsplit url)) (set_sq 0 (url_querys url)) 1
      segment_count (0 + len (body r0)) (sent ++ [get_request (seq_url url 0)]).
Proof.
  intros Hacc Hget Hscan Hcount. unfold seq_filesize.
  change (base_url_of (parse.urlsplit url)
            ++ parse.urlencode
                 (set_sq 0 (parse.dict_of
                              (parse.parse_qsl (parse.query (parse.urlsplit url))))))%string
    with (seq_url url 0).
  rewrite execute_accepted by assumption. cbv zeta.
  change {| req_url := seq_url url 0; req_method := Some "GET"; req_range := None |}
    with (get_request (seq_url url 0)).
  rewrite Hget, Hscan.
  replace (segment_count =? 0) with false by (symmetry; apply Z.eqb_neq; lia).
  reflexivity.
Qed.

Lemma seq_filesize_loop_fails urlopen (url : string) (size : Z -> Z)
    (segment_count failing : Z) (e : exn) :
  accepted (seq_url url 0) ->
  failing <= segment_count ->
  (forall sent k, 1 <= k <= failing - 1 ->
     exists r, urlopen sent (head_request (seq_url url k)) = inr r
               /\ content_length_is r (size k)) ->
  (forall sent, fst (head_content_length urlopen sent (seq_url url failing)) = inl e) ->
  forall (todo : nat) (seq_num : Z) (querys : PyDict.dict parse.qvalue)
         (total_filesize : Z) (sent : list request),
    1 <= seq_num <= failing -> failing + 1 - seq_num <= Z.of_nat todo ->
    (forall k, set_sq k querys = set_sq k (url_querys url)) ->
    seq_filesize_loop urlopen todo (base_url_of (parse.urlsplit url)) querys
                      seq_num segment_count total_filesize sent
    = (Raised e,
       sent ++ map (fun k => head_request (seq_url url k))
                   (seq_numbers seq_num (Z.to_nat (failing + 1 - seq_num)))).
Proof.
  intros Hacc Hle Hheads Hfail.
  induction todo as [|todo IH]; intros seq_num querys total sent Hnum Htodo Hq;
    [lia|].
  cbn [seq_filesize_loop].
  replace (seq_num <=? segment_count) with true
    by (symmetry; apply Z.leb_le; lia).
  rewrite Hq.
  change ((base_url_of (parse.urlsplit url))
            ++ parse.urlencode (set_sq seq_num (url_querys url)))%string
    with (seq_url url seq_num).
  destruct (Z.eq_dec seq_num failing) as [->|Hne].
  - replace (Z.to_nat (failing + 1 - failing)) with 1%nat by lia.
    pose proof (Hfail sent) as Hf.
    assert (Hsent : snd (head_content_length urlopen sent (seq_url url failing))
                    = sent ++ [head_request (seq_url url failing)]).
    { unfold head_content_length, head.
      rewrite execute_accepted by (apply (accepted_seq_url url 0); assumption).
      cbv zeta.
      match goal with |- context [urlopen ?s ?q] => destruct (urlopen s q) as [e'|r] end;
        [reflexivity|].
      match goal with |- context [PyDict.getitem ?k ?d] =>
        destruct (PyDict.getitem k d) as [v|] end; [|reflexivity].
      destruct (PyStr.int v); reflexivity. }
    destruct (head_content_length urlopen sent (seq_url url failing)) as [[e'|n] sent'];
      cbn [fst snd] in Hf, Hsent; [|discriminate].
    injection Hf as ->. rewrite Hsent. reflexivity.
  - rewrite (@head_content_length_served urlopen url size (failing - 1) Hacc
               Hheads sent seq_num) by lia.
    rewrite IH; [| lia | lia | intros k; apply set_sq_set_sq].
    replace (Z.to_nat (failing + 1 - seq_num))
      with (S (Z.to_nat (failing + 1 - (seq_num + 1)))) by lia.
    cbn [seq_numbers map]. rewrite <- app_assoc. reflexivity.
Qed.

(** X10. A failing HEAD ends [seq_filesize] at once.  When the HEAD
    requests of the segments before segment [failing] are answered and
    [int(head(url)['content-length'])] raises for segment [failing],
    [seq_filesize] raises that exception after the GET for segment 0 and
    the HEAD requests for the segments 1 .. [failing]: no later segment is
    asked for and no partial sum is returned. *)
Theorem seq_filesize_stops_at_failing_head
    (urlopen : list request -> request -> exn + response)
    (url : string) (size : Z -> Z) (segment_count failing : Z)
    (sent : list request) (r0 : response) (e : exn) :
  1 <= failing <= segment_count ->
  accepted (seq_url url 0) ->
  urlopen sent (get_request (seq_url url 0)) = inr r0 ->
  scan_lines_filesize 0 (PyBytes.split_crlf (body r0)) = inr segment_count ->
  (forall sent' k, 1 <= k <= failing - 1 ->
     exists r, urlopen sent' (head_request (seq_url url k)) = inr r
               /\ content_length_is r (size k)) ->
  (forall sent', fst (head_content_length urlopen sent' (seq_url url failing)) = inl e) ->
  seq_filesize urlopen sent url
  = (Raised e,
     sent ++ get_request (seq_url url 0)
          :: map (fun k => head_request (seq_url url k))
                 (seq_numbers 1 (Z.to_nat failing))).
Proof.
  intros Hj Hacc Hget Hscan Hheads Hfail.
  rewrite (@seq_filesize_after_get urlopen url sent r0 segment_count Hacc Hget Hscan)
    by lia.
  rewrite (@seq_filesize_loop_fails urlopen url size segment_count failing e
             Hacc (proj2 Hj) Hheads Hfail);
    [| lia | lia | intros k; apply set_sq_set_sq].
  replace (failing + 1 - 1) with failing by lia.
  rewrite <- app_assoc. reflexivity.
Qed.

Lemma seq_filesize_stops_at_failing_head_witness :
  seq_filesize lossy_server [] sample_url
  = (Raised (KeyError "content-length"),
     [] ++ get_request (seq_url sample_url 0)
        :: map (fun k => head_request (seq_url sample_url k))
               (seq_numbers 1 (Z.to_nat 2))).
Proof.
  apply (@seq_filesize_stops_at_failing_head lossy_server sample_url
           (fun _ => 0) 2 2 []
           {| content_range := RaisesKeyError;
              items := [("Content-Length", "24")];
              body := sample_segments 0 |}
           (KeyError "content-length")).
  - lia.
  - reflexivity.
  - reflexivity.
  - reflexivity.
  - intros sent' k Hk. assert (Hk' : k = 1) by lia. rewrite Hk'.
    eexists. split; [reflexivity|]. exists "0". split; reflexivity.
  - intros sent'. reflexivity.
Defined.

Lemma len_concat_map (segment : Z -> bytes) (numbers : list Z) :
  len (List.concat (map segment numbers))
  = Zsum (map (fun k => len (segment k)) numbers).
Proof.
  induction numbers as [|k numbers IH]; [reflexivity|].
  cbn [map List.concat Zsum fold_right]. rewrite len_app, IH. reflexivity.
Qed.

(** X11. [seq_filesize] announces what [seq_stream] delivers.  For a
    resource of [segment_count >= 1] segments whose server honours ranged
    GETs, answers the plain GET for segment 0 with that segment and gives
    every other segment's length as [Content-Length] to HEAD, the integer
    [seq_filesize] returns is the number of bytes [seq_stream] yields. *)
Theorem seq_filesize_is_length_of_seq_stream
    (urlopen : list request -> request -> exn + response)
    (url : string) (segment : Z -> bytes) (segment_count : Z)
    (passes : nat) (sent sent' : list request) (chunk_size range_size : Z)
    (r0 : response) :
  1 <= segment_count ->
  scan_lines None (PyBytes.split_crlf (segment 0)) = Some segment_count ->
  accepted (seq_url url 0) ->
  (forall k, 0 <= k <= segment_count -> serves urlopen (seq_url url k) (segment k)) ->
  (0 < passes)%nat ->
  (forall k, 0 <= k <= segment_count ->
             len (segment k) <= Z.of_nat passes * default_range_size) ->
  urlopen sent' (get_request (seq_url url 0)) = inr r0 ->
  body r0 = segment 0 ->
  (forall s k, 1 <= k <= segment_count ->
     exists r, urlopen s (head_request (seq_url url k)) = inr r
               /\ content_length_is r (len (segment k))) ->
  exists st requests,
    seq_stream urlopen passes sent url chunk_size range_size = (Returned tt, st)
    /\ seq_filesize urlopen sent' url
       = (Returned (len (List.concat (seq_yielded st))), requests).
Proof.
  intros Hcount Hscan Hacc Hserved Hp Hfuel Hget Hbody Hheads.
  destruct (@seq_stream_served urlopen url segment segment_count passes Hacc
              Hserved Hfuel Hp ltac:(lia) Hscan sent chunk_size range_size)
    as (st & Hrun & _ & Hy & _).
  exists st. eexists. split; [exact Hrun|].
  rewrite (@seq_filesize_after_get urlopen url sent' r0 segment_count Hacc Hget).
  - rewrite (@seq_filesize_loop_served urlopen url (fun k => len (segment k))
               segment_count Hacc Hheads);
      [| lia | lia | intros k; apply set_sq_set_sq].
    rewrite Hy, Hbody. cbn [seq_numbers map List.concat].
    rewrite len_app, len_concat_map. reflexivity.
  - rewrite Hbody, scan_lines_filesize_scan_lines, Hscan. reflexivity.
  - lia.
Qed.

Lemma seq_filesize_is_length_of_seq_stream_witness :
  exists st requests,
    seq_stream (range_server sample_payload) 1 [] sample_url 16 32
    = (Returned tt, st)
    /\ seq_filesize (range_server sample_payload) [] sample_url
       = (Returned (len (List.concat (seq_yielded st))), requests).
Proof.
  apply (@seq_filesize_is_length_of_seq_stream (range_server sample_payload)
           sample_url sample_segments 2 1 [] [] 16 32
           {| content_range := RaisesKeyError;
              items := [("Content-Length", "24")];
              body := sample_segments 0 |}).
  - lia.
  - reflexivity.
  - reflexivity.
  - intros k Hk. rewrite <- (sample_payload_segments Hk).
    apply range_server_serves.
  - lia.
  - intros k Hk. destruct (sample_numbers Hk) as [-> | [-> | ->]]; vm_compute;
      discriminate.
  - reflexivity.
  - reflexivity.
  - intros s k Hk. assert (Hk' : k = 1 \/ k = 2) by lia.
    destruct Hk' as [-> | ->]; (eexists; split; [reflexivity|]);
      eexists; split; reflexivity.
Defined.

(** X26. [seq_stream] reads the segment count only after it has yielded
    segment 0.  When the server serves a segment 0 in which no line holds
    the marker, the caller has received all of segment 0 by the time
    [seq_stream] raises [UnboundLocalError], and no request for another
    segment was made. *)
Theorem seq_stream_yields_segment_before_failing
    (urlopen : list request -> request -> exn + response)
    (url : string) (body0 : bytes) (passes : nat) (sent : list request)
    (chunk_size range_size : Z) :
  accepted (seq_url url 0) -> serves urlopen (seq_url url 0) body0 ->
  (0 < passes)%nat -> len body0 <= Z.of_nat passes * default_range_size ->
  scan_lines None (PyBytes.split_crlf body0) = None ->
  exists st,
    seq_stream urlopen passes sent url chunk_size range_size
    = (Raised (UnboundLocalError "segment_count"), st)
    /\ List.concat (seq_yielded st) = body0
    /\ fetched st = [seq_url url 0]
    /\ seq_net st
       = sent ++ map (range_request (seq_url url 0))
                     (stream_windows passes default_range_size (len body0)).
Proof.
  intros Hacc Hserved Hp Hfuel Hscan.
  destruct (@stream_served urlopen (seq_url url 0) body0 default_chunk_size
              default_range_size Hacc Hserved (proj1 default_sizes)
              (proj2 default_sizes) passes sent Hfuel Hp)
    as (s & Hrun & _ & _ & Hnet & Hy).
  rewrite seq_stream_unfold, Hrun, Hy, Hscan.
  eexists. split; [reflexivity|]. cbn [seq_yielded fetched seq_net].
  split; [exact Hy|]. split; [reflexivity | exact Hnet].
Qed.

Lemma seq_stream_yields_segment_before_failing_witness :
  let body0 := list_byte_of_string "no marker here" in
  exists st,
    seq_stream (range_server (fun _ => body0)) 1 [] sample_url 16 32
    = (Raised (UnboundLocalError "segment_count"), st)
    /\ List.concat (seq_yielded st) = body0
    /\ fetched st = [seq_url sample_url 0]
    /\ seq_net st
       = [] ++ map (range_request (seq_url sample_url 0))
                   (stream_windows 1 default_range_size (len body0)).
Proof.
  intros body0.
  apply (@seq_stream_yields_segment_before_failing
           (range_server (fun _ => body0)) sample_url body0 1 [] 16 32).
  - reflexivity.
  - apply (range_server_serves (fun _ => body0) (seq_url sample_url 0)).
  - lia.
  - vm_compute. discriminate.
  - reflexivity.
Defined.

(** * [head], [filesize] and the caches *)

Lemma getitem_app {V} (k : string) (a b : PyDict.dict V) :
  PyDict.getitem k (a ++ b)
  = match PyDict.getitem k a with
    | Some v => Some v
    | None => PyDict.getitem k b
    end.
Proof.
  induction a as [|[k' v'] a IH]; cbn [app PyDict.getitem]; [reflexivity|].
  destruct (String.eqb k' k); [reflexivity | exact IH].
Qed.

Lemma getitem_none_keys {V} (k : string) (d : PyDict.dict V) :
  PyDict.getitem k d = None <-> ~ In k (map fst d).
Proof.
  induction d as [|[k' v'] d IH]; cbn [PyDict.getitem map fst In].
  - split; [intros _ [] | reflexivity].
  - destruct (String.eqb k' k) eqn:E.
    + apply String.eqb_eq in E. split; [discriminate | intros H; exfalso; auto].
    + apply String.eqb_neq in E. rewrite IH. split.
      * intros H [H'|H']; [congruence | auto].
      * intros H H'. apply H. right. exact H'.
Qed.

Lemma setitem_keys {V} (k : string) (v : V) (d : PyDict.dict V) :
  map fst (PyDict.setitem k v d)
  = match PyDict.getitem k d with
    | Some _ => map fst d
    | None => map fst d ++ [k]
    end.
Proof.
  induction d as [|[k' v'] d IH]; cbn [PyDict.setitem PyDict.getitem map fst app];
    [reflexivity|].
  destruct (String.eqb k' k) eqn:E.
  - apply String.eqb_eq in E. subst k'. reflexivity.
  - cbn [map fst]. rewrite IH. destruct (PyDict.getitem k d); reflexivity.
Qed.

Lemma of_pairs_keys {V} (P : string -> Prop) (pairs : list (string * V)) :
  Forall (fun kv => P (fst kv)) pairs ->
  forall d, Forall P (map fst d) -> NoDup (map fst d) ->
    let d' := fold_left (fun d kv => PyDict.setitem (fst kv) (snd kv) d) pairs d in
    Forall P (map fst d') /\ NoDup (map fst d').
Proof.
  induction 1 as [|[k v] pairs Hk _ IH]; intros d HP Hnd; cbn [fold_left];
    [split; assumption|].
  apply IH; rewrite setitem_keys; cbn [fst snd] in *;
    destruct (PyDict.getitem k d) eqn:E; try assumption.
  - apply Forall_app. split; [assumption | constructor; [assumption | constructor]].
  - apply getitem_none_keys in E.
    apply NoDup_app; [assumption | repeat constructor; intros [] | ].
    intros x Hx [<-|[]]. auto.
Qed.

Lemma head_result urlopen (sent : list request) (url : string)
    (d : PyDict.dict string) (sent' : list request) :
  head urlopen sent url = (inr d, sent') ->
  exists r, d = PyDict.of_pairs (lowered (items r))
            /\ urlopen sent (head_request url) = inr r
            /\ sent' = sent ++ [head_request url].
Proof.
  unfold head, _execute_request.
  destruct (PyStr.startswith "http" (PyStr.lower url)); [|discriminate].
  fold (head_request url).
  destruct (urlopen sent (head_request url)) as [e|r]; [discriminate|].
  intros [= <- <-]. exists r. auto.
Qed.

(** X12. The mapping [head] returns has only lower-case names, each once:
    looking up a name that holds an upper-case letter, such as
    ["Content-Length"], finds nothing, whatever the server sent. *)
Theorem head_names_are_lower_case
    (urlopen : list request -> request -> exn + response)
    (sent : list request) (url : string)
    (d : PyDict.dict string) (sent' : list request) :
  head urlopen sent url = (inr d, sent') ->
  Forall (fun name => PyStr.lower name = name) (map fst d)
  /\ NoDup (map fst d)
  /\ forall name, PyStr.lower name <> name -> PyDict.getitem name d = None.
Proof.
  intros Hhead. destruct (head_result _ _ _ Hhead) as (r & -> & _ & _).
  destruct (@of_pairs_keys string (fun name => PyStr.lower name = name)
              (lowered (items r))) with (d := @nil (string * string))
    as [Hlow Hnd].
  - unfold lowered. apply Forall_map. apply Forall_forall.
    intros kv _. cbn [fst]. apply lower_lower.
  - constructor.
  - constructor.
  - split; [exact Hlow|]. split; [exact Hnd|].
    intros name Hname. apply getitem_none_keys. intros Hin.
    rewrite Forall_forall in Hlow. apply Hname. apply Hlow. exact Hin.
Qed.

Lemma head_names_are_lower_case_witness :
  let d := [("content-length", "5")] in
  Forall (fun name => PyStr.lower name = name) (map fst d)
  /\ NoDup (map fst d)
  /\ forall name, PyStr.lower name <> name -> PyDict.getitem name d = None.
Proof.
  apply (@head_names_are_lower_case
           (plain_server (list_byte_of_string "abcde")) [] "http://host/video"
           [("content-length", "5")] [head_request "http://host/video"]).
  reflexivity.
Defined.

Lemma fold_last_no_match (k : string) (pairs : list (string * string)) :
  Forall (fun kv => fst kv <> k) pairs ->
  forall acc,
    fold_left (fun acc kv => if String.eqb (fst kv) k then Some (snd kv) else acc)
              pairs acc = acc.
Proof.
  induction 1 as [|kv pairs Hk _ IH]; intros acc; cbn [fold_left]; [reflexivity|].
  rewrite IH. apply String.eqb_neq in Hk. rewrite Hk. reflexivity.
Qed.

Lemma getitem_last_match (k v : string) (before after : list (string * string)) :
  Forall (fun kv => fst kv <> k) after ->
  PyDict.getitem k (PyDict.of_pairs (before ++ (k, v) :: after)) = Some v.
Proof.
  intros Hafter. unfold PyDict.of_pairs.
  rewrite UrlFacts.getitem_of_pairs, fold_left_app. cbn [fold_left fst snd].
  rewrite String.eqb_refl. apply fold_last_no_match. exact Hafter.
Qed.



Module LruFacts.

Lemma lookup_remove_self {V} (key : string) (c : lru.cache V) :
  lru.lookup key (lru.remove key c) = None.
Proof.
  unfold lru.lookup, lru.remove.
  induction c as [|[k v] c IH]; cbn [filter fst]; [reflexivity|].
  destruct (String.eqb k key) eqn:E; cbn [negb]; [exact IH|].
  cbn [PyDict.getitem]. rewrite E. exact IH.
Qed.

Lemma lookup_remove_other {V} (key k : string) (c : lru.cache V) :
  k <> key -> lru.lookup k (lru.remove key c) = lru.lookup k c.
Proof.
  intros Hne. unfold lru.lookup, lru.remove.
  induction c as [|[k' v] c IH]; cbn [filter fst]; [reflexivity|].
  destruct (String.eqb k' key) eqn:E; cbn [negb PyDict.getitem].
  - apply String.eqb_eq in E. subst k'.
    replace (String.eqb key k) with false
      by (symmetry; apply String.eqb_neq; congruence).
    exact IH.
  - destruct (String.eqb k' k); [reflexivity | exact IH].
Qed.

Lemma lookup_touch {V} (key : string) (v : V) (c : lru.cache V) :
  lru.lookup key (lru.touch key v c) = Some v.
Proof.
  unfold lru.touch, lru.lookup. rewrite getitem_app.
  fold (lru.lookup key (lru.remove key c)). rewrite lookup_remove_self.
  cbn. rewrite String.eqb_refl. reflexivity.
Qed.

Lemma lookup_tl {V} (key : string) (c : lru.cache V) :
  lru.lookup key c = None -> lru.lookup key (tl c) = None.
Proof.
  unfold lru.lookup. destruct c as [|[k v] c]; cbn [tl PyDict.getitem]; [trivial|].
  destruct (String.eqb k key); [discriminate | trivial].
Qed.

Lemma lookup_store {V} (key : string) (v : V) (c : lru.cache V) :
  lru.lookup key c = None -> lru.lookup key (lru.store key v c) = Some v.
Proof.
  intros Hmiss. unfold lru.store.
  destruct (List.length c <? lru.maxsize)%nat; [|apply lookup_tl in Hmiss];
    unfold lru.lookup in *; rewrite getitem_app, Hmiss; cbn;
    rewrite String.eqb_refl; reflexivity.
Qed.

(** After a call that returned, the cache holds the result. *)
Lemma call_keeps_result {V} (f : list request -> string -> outcome V * list request)
    (c c1 : lru.cache V) (sent sent1 : list request) (key : string) (v : V) :
  lru.call f c sent key = (Returned v, c1, sent1) -> lru.lookup key c1 = Some v.
Proof.
  unfold lru.call. destruct (lru.lookup key c) as [v'|] eqn:E.
  - intros [= <- <- <-]. apply lookup_touch.
  - destruct (f sent key) as [[v'| e |] s]; try discriminate.
    intros [= <- <- <-]. apply lookup_store. exact E.
Qed.

Lemma call_hit {V} (f : list request -> string -> outcome V * list request)
    (c : lru.cache V) (sent : list request) (key : string) (v : V) :
  lru.lookup key c = Some v ->
  lru.call f c sent key = (Returned v, lru.touch key v c, sent).
Proof. intros H. unfold lru.call. rewrite H. reflexivity. Qed.

(** A call that did not return leaves the cache as it was, without the
    argument. *)
Lemma call_failed {V} (f : list request -> string -> outcome V * list request)
    (c c1 : lru.cache V) (sent sent1 : list request) (key : string)
    (o : outcome V) :
  lru.call f c sent key = (o, c1, sent1) -> (forall v, o <> Returned v) ->
  c1 = c /\ lru.lookup key c = None /\ f sent key = (o, sent1).
Proof.
  unfold lru.call. destruct (lru.lookup key c) as [v'|] eqn:E.
  - intros [= <- <- <-] Ho. exfalso. exact (Ho v' eq_refl).
  - destruct (f sent key) as [[v'| e |] s]; intros [= <- <- <-] Ho;
      [exfalso; exact (Ho v' eq_refl) | auto | auto].
Qed.

Lemma remove_keys {V} (key : string) (c : lru.cache V) :
  NoDup (map fst c) ->
  NoDup (map fst (lru.remove key c))
  /\ (forall k, In k (map fst (lru.remove key c)) -> In k (map fst c) /\ k <> key)
  /\ (In key (map fst c) -> S (List.length (lru.remove key c)) = List.length c).
Proof.
  unfold lru.remove.
  induction c as [|[k v] c IH]; cbn [filter map fst]; intros Hnd.
  - split; [constructor|]. split; [intros k [] | intros []].
  - inversion Hnd as [|? ? Hnotin Hnd']; subst.
    destruct (IH Hnd') as (IHnd & IHin & IHlen).
    destruct (String.eqb k key) eqn:E; cbn [negb].
    + apply String.eqb_eq in E. subst k.
      assert (Hsame : filter (fun kv => negb (String.eqb (fst kv) key)) c = c).
      { clear -Hnotin. induction c as [|[k v] c IH]; [reflexivity|].
        cbn [filter fst]. cbn [map fst In] in Hnotin.
        destruct (String.eqb k key) eqn:E.
        - apply String.eqb_eq in E. exfalso. apply Hnotin. left. exact E.
        - cbn [negb]. rewrite IH; [reflexivity|]. intros H. apply Hnotin.
          right. exact H. }
      rewrite Hsame. repeat split.
      * exact Hnd'.
      * right. assumption.
      * intros ->. contradiction.
    + apply String.eqb_neq in E. cbn [map fst List.length]. repeat split.
      * constructor; [|exact IHnd]. intros Hin. apply Hnotin.
        apply (IHin k Hin).
      * destruct H as [<-|H]; [left; reflexivity | right; apply (IHin k0 H)].
      * destruct H as [<-|H]; [exact E | apply (IHin k0 H)].
      * intros [H|H]; [congruence|]. rewrite (IHlen H). reflexivity.
Qed.

Lemma touch_wellformed {V} (key : string) (v : V) (c : lru.cache V) :
  lru.lookup key c = Some v -> lru.wellformed c -> lru.wellformed (lru.touch key v c).
Proof.
  intros Hhit [Hnd Hlen].
  assert (Hin : In key (map fst c)).
  { destruct (in_dec string_dec key (map fst c)) as [H|H]; [exact H|].
    apply getitem_none_keys in H. unfold lru.lookup in Hhit. congruence. }
  destruct (@remove_keys _ key c Hnd) as (Hnd' & Hsub & Hcount).
  unfold lru.wellformed, lru.touch. rewrite map_app, length_app. cbn [map fst List.length].
  split.
  - apply NoDup_app; [exact Hnd' | repeat constructor; intros [] |].
    intros k Hk [Heq|[]]. subst k. apply (Hsub key Hk). reflexivity.
  - specialize (Hcount Hin). lia.
Qed.

Lemma store_wellformed {V} (key : string) (v : V) (c : lru.cache V) :
  lru.lookup key c = None -> lru.wellformed c -> lru.wellformed (lru.store key v c).
Proof.
  intros Hmiss [Hnd Hlen]. apply getitem_none_keys in Hmiss.
  unfold lru.wellformed, lru.store. rewrite map_app, length_app.
  cbn [map fst List.length].
  destruct (List.length c <? lru.maxsize)%nat eqn:E.
  - apply Nat.ltb_lt in E. split; [|lia].
    apply NoDup_app; [exact Hnd | repeat constructor; intros [] |].
    intros k Hk [<-|[]]. auto.
  - destruct c as [|[k0 v0] c]; cbn [tl map fst List.length] in *.
    + split; [repeat constructor; intros [] | unfold lru.maxsize; lia].
    + inversion Hnd; subst. split; [|lia].
      apply NoDup_app; [assumption | repeat constructor; intros [] |].
      intros k Hk [<-|[]]. apply Hmiss. right. exact Hk.
Qed.

Lemma call_wellformed {V} (f : list request -> string -> outcome V * list request)
    (c : lru.cache V) (sent : list request) (key : string) :
  lru.wellformed c -> lru.wellformed (snd (fst (lru.call f c sent key))).
Proof.
  intros Hwf. unfold lru.call. destruct (lru.lookup key c) as [v|] eqn:E.
  - cbn [fst snd]. apply touch_wellformed; assumption.
  - destruct (f sent key) as [[v| e |] s]; cbn [fst snd]; try exact Hwf.
    apply store_wellformed; assumption.
Qed.

End LruFacts.

Lemma filesize_body_requests urlopen (sent : list request) (url : string) :
  accepted url ->
  snd (filesize_body urlopen sent url) = sent ++ [head_request url].
Proof.
  intros Hacc. unfold filesize_body, head_content_length, head.
  rewrite execute_accepted by assumption. cbv zeta. fold (head_request url).
  destruct (urlopen sent (head_request url)) as [e|r]; [reflexivity|].
  match goal with |- context [PyDict.getitem ?k ?d] =>
    destruct (PyDict.getitem k d) as [v|] end; [|reflexivity].
  destruct (PyStr.int v); reflexivity.
Qed.

(** X14. A size [filesize] or [seq_filesize] has returned is served from
    the cache: the next call for the same URL returns the same integer
    without a request, whatever the server would answer by then, and makes
    the entry the most recently used one. *)
Theorem cached_size_makes_no_request
    (urlopen urlopen' : list request -> request -> exn + response)
    (c c1 d d1 : lru.cache Z) (sent sent1 sent' sent1' sent2 : list request)
    (url url' : string) (n m : Z) :
  filesize urlopen c sent url = (Returned n, c1, sent1) ->
  seq_filesize_cached urlopen d sent' url' = (Returned m, d1, sent1') ->
  filesize urlopen' c1 sent2 url = (Returned n, lru.touch url n c1, sent2)
  /\ seq_filesize_cached urlopen' d1 sent2 url'
     = (Returned m, lru.touch url' m d1, sent2).
Proof.
  intros Hfirst Hseq. unfold filesize, seq_filesize_cached in *.
  split; apply LruFacts.call_hit.
  - exact (LruFacts.call_keeps_result _ _ _ _ Hfirst).
  - exact (LruFacts.call_keeps_result _ _ _ _ Hseq).
Qed.

Lemma cached_size_makes_no_request_witness :
  let url := "http://host/video" in
  let later := plain_server (list_byte_of_string "a longer payload") in
  filesize later [(url, 5)] [head_request url] url
  = (Returned 5, lru.touch url 5 [(url, 5)], [head_request url])
  /\ seq_filesize_cached later [(sample_url, 34)] [head_request url] sample_url
     = (Returned 34, lru.touch sample_url 34 [(sample_url, 34)],
        [head_request url]).
Proof.
  intros url later.
  apply (@cached_size_makes_no_request
           (range_server (fun u => if String.eqb u url
                                   then list_byte_of_string "abcde"
                                   else sample_payload u))
           later
           [] [(url, 5)] [] [(sample_url, 34)]
           [] [head_request url]
           []
           [get_request "http://host//video?id=1&sq=0";
            head_request "http://host//video?id=1&sq=1";
            head_request "http://host//video?id=1&sq=2"]
           [head_request url] url sample_url 5 34).
  - reflexivity.
  - reflexivity.
Defined.

(** X15. A failure of [filesize] is not kept: the cache is as before the
    call, and the next call for the URL sends its HEAD request again and
    ends as the function body does on the answer it then gets. *)
Theorem filesize_failure_is_retried
    (urlopen urlopen' : list request -> request -> exn + response)
    (c c1 : lru.cache Z) (sent sent1 sent2 : list request) (url : string)
    (e : exn) :
  accepted url ->
  filesize urlopen c sent url = (Raised e, c1, sent1) ->
  c1 = c
  /\ sent1 = sent ++ [head_request url]
  /\ snd (filesize urlopen' c1 sent2 url) = sent2 ++ [head_request url]
  /\ fst (fst (filesize urlopen' c1 sent2 url))
     = fst (filesize_body urlopen' sent2 url).
Proof.
  intros Hacc Hfirst. unfold filesize in *.
  destruct (LruFacts.call_failed _ _ _ _ Hfirst) as (-> & Hmiss & Hbody);
    [discriminate|].
  split; [reflexivity|]. split.
  - rewrite <- (@filesize_body_requests urlopen sent url Hacc), Hbody. reflexivity.
  - rewrite <- (@filesize_body_requests urlopen' sent2 url Hacc).
    unfold lru.call. rewrite Hmiss.
    destruct (filesize_body urlopen' sent2 url) as [[v| e' |] s]; split; reflexivity.
Qed.

Lemma filesize_failure_is_retried_witness :
  let url := "http://host/video" in
  let no_length : list request -> request -> exn + response :=
    fun _ _ => inr {| content_range := RaisesKeyError; items := []; body := [] |} in
  let served := plain_server (list_byte_of_string "abcde") in
  @nil (string * Z) = []
  /\ [head_request url] = [] ++ [head_request url]
  /\ snd (filesize served [] [head_request url] url)
     = [head_request url] ++ [head_request url]
  /\ fst (fst (filesize served [] [head_request url] url))
     = fst (filesize_body served [head_request url] url).
Proof.
  intros url no_length served.
  apply (@filesize_failure_is_retried no_length served [] [] []
           [head_request url] [head_request url] url (KeyError "content-length")).
  - reflexivity.
  - reflexivity.
Defined.

(** X16. A response for segment 0 without the marker costs [seq_filesize]
    one GET on every call: the [RegexMatchError] is not kept, so the cache
    is unchanged and the next call for the URL asks again. *)
Theorem seq_filesize_missing_marker_is_not_cached
    (urlopen : list request -> request -> exn + response)
    (c : lru.cache Z) (sent : list request) (url : string) (r : response) :
  lru.lookup url c = None ->
  accepted (seq_url url 0) ->
  urlopen sent (get_request (seq_url url 0)) = inr r ->
  scan_lines None (PyBytes.split_crlf (body r)) = None ->
  seq_filesize_cached urlopen c sent url
  = (Raised (RegexMatchError "seq_filesize" segment_regex), c,
     sent ++ [get_request (seq_url url 0)]).
Proof.
  intros Hmiss Hacc Hget Hscan. unfold seq_filesize_cached, lru.call.
  rewrite Hmiss, (seq_filesize_missing_marker urlopen url sent Hacc Hget Hscan).
  reflexivity.
Qed.

Lemma seq_filesize_missing_marker_is_not_cached_witness :
  seq_filesize_cached (plain_server (list_byte_of_string "no marker here"))
                      (sample_cache 3) [] sample_url
  = (Raised (RegexMatchError "seq_filesize" segment_regex), sample_cache 3,
     [] ++ [get_request (seq_url sample_url 0)]).
Proof.
  apply (@seq_filesize_missing_marker_is_not_cached
           (plain_server (list_byte_of_string "no marker here"))
           (sample_cache 3) [] sample_url
           {| content_range := RaisesKeyError;
              items := [("Content-Length", "14")];
              body := list_byte_of_string "no marker here" |}).
  - reflexivity.
  - reflexivity.
  - reflexivity.
  - reflexivity.
Defined.



(** X18. In a full cache a new size takes the place of the least recently
    used one: after [filesize] has fetched the size of a URL it did not
    hold, the cache holds the 127 more recent entries followed by the new
    one, and the evicted URL is no longer found. *)
Theorem filesize_evicts_least_recently_used
    (urlopen : list request -> request -> exn + response)
    (k0 : string) (v0 : Z) (rest : lru.cache Z)
    (sent sent1 : list request) (url : string) (n : Z) :
  List.length ((k0, v0) :: rest) = lru.maxsize ->
  lru.lookup k0 rest = None ->
  lru.lookup url ((k0, v0) :: rest) = None ->
  filesize_body urlopen sent url = (Returned n, sent1) ->
  filesize urlopen ((k0, v0) :: rest) sent url
  = (Returned n, rest ++ [(url, n)], sent1)
  /\ lru.lookup k0 (rest ++ [(url, n)]) = None
  /\ lru.lookup url (rest ++ [(url, n)]) = Some n.
Proof.
  intros Hfull Hk0 Hmiss Hbody.
  assert (Hrun : filesize urlopen ((k0, v0) :: rest) sent url
                 = (Returned n, rest ++ [(url, n)], sent1)).
  { unfold filesize, lru.call. rewrite Hmiss, Hbody. unfold lru.store.
    rewrite Hfull, Nat.ltb_irrefl. reflexivity. }
  split; [exact Hrun|]. split.
  - unfold lru.lookup in *. rewrite getitem_app, Hk0.
    cbn [PyDict.getitem] in *.
    destruct (String.eqb k0 url) eqn:E; [discriminate|].
    rewrite String.eqb_sym, E. reflexivity.
  - unfold filesize in Hrun. exact (LruFacts.call_keeps_result _ _ _ _ Hrun).
Qed.

Lemma filesize_evicts_least_recently_used_witness :
  let urlopen := plain_server (list_byte_of_string "abcde") in
  let url := "http://host/video" in
  let rest := tl (sample_cache 128) in
  filesize urlopen (("http://host/u0", 0) :: rest) [] url
  = (Returned 5, rest ++ [(url, 5)], [head_request url])
  /\ lru.lookup "http://host/u0" (rest ++ [(url, 5)]) = None
  /\ lru.lookup url (rest ++ [(url, 5)]) = Some 5.
Proof.
  intros urlopen url rest.
  apply (@filesize_evicts_least_recently_used urlopen "http://host/u0" 0 rest
           [] [head_request url] url 5).
  - reflexivity.
  - vm_compute. reflexivity.
  - vm_compute. reflexivity.
  - reflexivity.
Defined.

(** * The requests in full *)

Module FullFacts.

Lemma fold_last_init (k : string) (pairs : list (string * string)) :
  forall init,
    fold_left (fun acc kv => if String.eqb (fst kv) k then Some (snd kv) else acc)
              pairs init
    = match last_value k pairs with
      | Some v => Some v
      | None => init
      end.
Proof.
  unfold last_value.
  induction pairs as [|kv pairs IH]; intros init; cbn [fold_left]; [reflexivity|].
  destruct (String.eqb (fst kv) k).
  - rewrite (IH (Some (snd kv))).
    destruct (fold_left _ pairs None); reflexivity.
  - apply IH.
Qed.

Lemma getitem_update (k : string) (d h : PyDict.dict string) :
  PyDict.getitem k (Full.update d h)
  = match last_value k h with
    | Some v => Some v
    | None => PyDict.getitem k d
    end.
Proof.
  unfold Full.update. rewrite UrlFacts.getitem_of_pairs. apply fold_last_init.
Qed.

Lemma last_value_getitem (k : string) (h : PyDict.dict string) :
  NoDup (map fst h) -> last_value k h = PyDict.getitem k h.
Proof.
  unfold last_value. intros Hnd.
  induction h as [|[k' v'] h IH]; cbn [fold_left PyDict.getitem fst snd];
    [reflexivity|].
  inversion Hnd as [|? ? Hnotin Hnd']; subst.
  destruct (String.eqb k' k) eqn:E.
  - apply String.eqb_eq in E. subst k'.
    apply fold_last_no_match. apply Forall_forall.
    intros kv Hin Heq. apply Hnotin. rewrite <- Heq. apply in_map. exact Hin.
  - apply IH. exact Hnd'.
Qed.

Lemma choice_in (draw : nat) :
  In (Full.choice draw Full.USER_AGENTS) Full.USER_AGENTS.
Proof.
  unfold Full.choice. apply nth_In.
  apply Nat.mod_upper_bound. discriminate.
Qed.

Lemma merged_headers_lookup (draw : nat) (headers : option (PyDict.dict string))
    (name : string) :
  PyDict.getitem name (Full.merged_headers draw headers)
  = match last_value name (match headers with Some h => h | None => [] end) with
    | Some v => Some v
    | None => PyDict.getitem name (Full.base_headers draw)
    end.
Proof.
  unfold Full.merged_headers. destruct headers as [[|kv h]|]; try reflexivity.
  exact (getitem_update name (Full.base_headers draw) (kv :: h)).
Qed.

Lemma snoc_inv {A} (l : list A) (x y : A) : l ++ [x] = l ++ [y] -> x = y.
Proof. intros H. apply app_inv_head in H. congruence. Qed.

Lemma not_snoc {A} (l : list A) (x : A) : l <> l ++ [x].
Proof.
  intros H. apply (f_equal (@List.length A)) in H.
  rewrite length_app in H. simpl in H. lia.
Qed.

(** The request [_execute_request] makes, if it makes one. *)
Lemma execute_request_made dumps urlopen (draw : nat) (sent : list Full.Request)
    (url : string) (method : option string)
    (headers : option (PyDict.dict string)) (data : Full.value)
    (rq : Full.Request) :
  snd (Full._execute_request dumps urlopen draw sent url method headers data)
  = sent ++ [rq] ->
  exists data',
    Full.encode dumps data = inr data'
    /\ rq = {| Full.full_url := url;
               Full.headers := Full.merged_headers draw headers;
               Full.method := method; Full.data := data' |}.
Proof.
  unfold Full._execute_request.
  destruct (Full.encode dumps data) as [e|data']; cbn [snd].
  - intros H. exfalso. exact (@not_snoc _ _ _ H).
  - destruct (PyStr.startswith "http" (PyStr.lower url)); cbn [snd].
    + intros H. apply snoc_inv in H. exists data'. auto.
    + intros H. exfalso. exact (@not_snoc _ _ _ H).
Qed.

Lemma encode_not_none dumps (data data' : Full.value) :
  data <> Full.VNone -> Full.encode dumps data = inr data' -> data' <> Full.VNone.
Proof.
  unfold Full.encode. intros Hdata.
  destruct (Full.truthy data).
  - destruct data; try (destruct (dumps _); [|discriminate]);
      intros [= <-]; discriminate.
  - intros [= <-]. exact Hdata.
Qed.

End FullFacts.



Lemma merged_headers_of_dict (draw : nat) (extra_headers : option (PyDict.dict string)) :
  Full.merged_headers draw
    (Some (match extra_headers with Some h => h | None => [] end))
  = Full.merged_headers draw extra_headers.
Proof. destruct extra_headers as [[|kv h]|]; reflexivity. Qed.

(** X20. [post] always sends [Content-Type: application/json], also over a
    [Content-Type] the caller gave, never sends [None] as [data], so that
    the request is a POST, and names no method.  The dictionary the caller
    passed as [extra_headers] holds the content type after the call,
    whether the call returned or raised. *)
Theorem post_sets_json_content_type
    (dumps : Full.value -> option string)
    (urlopen : list Full.Request -> Full.Request -> exn + response)
    (draw : nat) (sent : list Full.Request) (url : string)
    (extra_headers : option (PyDict.dict string)) (data : Full.value)
    (rq : Full.Request) :
  match extra_headers with Some h => NoDup (map fst h) | None => True end ->
  let run := Full.post dumps urlopen draw sent url extra_headers data in
  snd run
  = option_map (PyDict.setitem "Content-Type" "application/json") extra_headers
  /\ (snd (fst run) = sent ++ [rq] ->
      PyDict.getitem "Content-Type" (Full.headers rq) = Some "application/json"
      /\ Full.method rq = None
      /\ Full.data rq <> Full.VNone).
Proof.
  intros Hdict run. subst run. unfold Full.post.
  set (given := match extra_headers with Some h => h | None => [] end).
  set (data0 := match data with Full.VNone => Full.VDict [] | _ => data end).
  change (Full.update given [("Content-Type", "application/json")])
    with (PyDict.setitem "Content-Type" "application/json" given).
  set (sent_headers := PyDict.setitem "Content-Type" "application/json" given).
  pose proof (@FullFacts.execute_request_made dumps urlopen draw sent url None
                (Some sent_headers) data0 rq) as Hmade.
  destruct (Full._execute_request dumps urlopen draw sent url None
              (Some sent_headers) data0) as [[e|r] sent'];
    cbn [fst snd] in *.
  all: split; [destruct extra_headers; reflexivity|].
  all: intros Hsent; destruct (Hmade Hsent) as (data' & Henc & ->);
    cbn [Full.headers Full.method Full.data].
  all: split; [|split; [reflexivity|]].
  all: try (apply (FullFacts.encode_not_none dumps (data := data0));
            [subst data0; destruct data; discriminate | exact Henc]).
  all: rewrite FullFacts.merged_headers_lookup;
    rewrite FullFacts.last_value_getitem;
    [subst sent_headers; rewrite UrlFacts.getitem_setitem_same; reflexivity|];
    subst sent_headers; rewrite setitem_keys;
    assert (Hnd : NoDup (map fst given))
      by (subst given; destruct extra_headers; [exact Hdict | constructor]);
    destruct (PyDict.getitem "Content-Type" given) eqn:E; [exact Hnd|];
    apply getitem_none_keys in E;
    apply NoDup_app; [exact Hnd | repeat constructor; intros [] |];
    intros k Hk [Heq|[]]; subst k; exact (E Hk).
Qed.

Lemma post_sets_json_content_type_witness :
  let given := [("Content-Type", "text/plain"); ("X-Goog-Api-Key", "k")] in
  let sent_headers := [("Content-Type", "application/json"); ("X-Goog-Api-Key", "k")] in
  let rq := {| Full.full_url := "http://host/api";
               Full.headers := [("User-Agent", Full.choice 0 Full.USER_AGENTS);
                                ("accept-language", "en-US,en");
                                ("Content-Type", "application/json");
                                ("X-Goog-Api-Key", "k")];
               Full.method := None; Full.data := Full.VDict [] |} in
  let run := Full.post (fun _ => None)
               (fun _ _ => inr {| content_range := RaisesKeyError; items := [];
                                  body := [] |})
               0 [] "http://host/api" (Some given) Full.VNone in
  snd (fst run) = [] ++ [rq]
  /\ snd run = Some sent_headers
  /\ (snd (fst run) = [] ++ [rq] ->
      PyDict.getitem "Content-Type" (Full.headers rq) = Some "application/json"
      /\ Full.method rq = None
      /\ Full.data rq <> Full.VNone).
Proof.
  intros given sent_headers rq run. split; [reflexivity|].
  apply (@post_sets_json_content_type (fun _ => None)
           (fun _ _ => inr {| content_range := RaisesKeyError; items := [];
                              body := [] |})
           0 [] "http://host/api" (Some given) Full.VNone rq).
  repeat constructor; simpl; intuition discriminate.
Defined.

Module Utf8Facts.

Lemma byte_value_nonneg (b : byte) : 0 <= Full.byte_value b.
Proof. unfold Full.byte_value. lia. Qed.

Lemma between_spec (lo hi : Z) (b : byte) :
  Full.between lo hi b = true <-> lo <= Full.byte_value b <= hi.
Proof.
  unfold Full.between. rewrite andb_true_iff, !Z.leb_le. reflexivity.
Qed.

Lemma utf8_valid_ascii (b : bytes) :
  Forall Full.is_ascii b -> Full.utf8_valid b = true.
Proof.
  induction 1 as [|b1 rest H1 _ IH]; [reflexivity|].
  cbn [Full.utf8_valid].
  replace (Full.between 0 127 b1) with true; [exact IH|].
  symmetry. apply between_spec. unfold Full.is_ascii in H1.
  pose proof (byte_value_nonneg b1). lia.
Qed.

(** A byte that passed one of the range tests of [utf8_valid]. *)
Lemma in_range_occurs (lo hi : Z) (b : byte) :
  Full.between lo hi b = true ->
  hi <= 191 \/ (194 <= lo /\ hi <= 244) ->
  Full.never_in_utf8 b = false.
Proof.
  intros H Hr. apply between_spec in H.
  unfold Full.never_in_utf8. apply orb_false_iff.
  split; (destruct (Full.between _ _ b) eqn:E; [|reflexivity]);
    apply between_spec in E; lia.
Qed.

Ltac occurs :=
  cbv beta;
  match goal with
  | H : Full.between ?lo ?hi ?b = true |- Full.never_in_utf8 ?b = false =>
      apply (@in_range_occurs lo hi b H); lia
  end.

Lemma utf8_valid_bytes :
  forall (n : nat) (b : bytes),
    (List.length b <= n)%nat -> Full.utf8_valid b = true ->
    Forall (fun x => Full.never_in_utf8 x = false) b.
Proof.
  induction n as [|n IH]; intros b Hlen Hv.
  - destruct b; [constructor | simpl in Hlen; lia].
  - destruct b as [|b1 rest1]; [constructor|].
    cbn [Full.utf8_valid] in Hv. cbn [List.length] in Hlen.
    destruct (Full.between 0 127 b1) eqn:E1.
    { constructor; [occurs | apply IH; [lia | exact Hv]]. }
    destruct rest1 as [|b2 rest2]; [discriminate|]. cbn [List.length] in Hlen.
    destruct (Full.between 194 223 b1) eqn:E2.
    { apply andb_prop in Hv. destruct Hv as [H2 Hv].
      repeat (constructor; [occurs|]). apply IH; [lia | exact Hv]. }
    destruct rest2 as [|b3 rest3]; [discriminate|]. cbn [List.length] in Hlen.
    destruct (Full.between 224 239 b1) eqn:E3.
    { apply andb_prop in Hv. destruct Hv as [Hv Hrest].
      apply andb_prop in Hv. destruct Hv as [H2 H3].
      constructor; [occurs|].
      constructor;
        [destruct (Full.between 224 224 b1);
           [|destruct (Full.between 237 237 b1)]; occurs|].
      constructor; [occurs|]. apply IH; [lia | exact Hrest]. }
    destruct rest3 as [|b4 rest4]; [discriminate|]. cbn [List.length] in Hlen.
    apply andb_prop in Hv. destruct Hv as [Hv Hrest].
    apply andb_prop in Hv. destruct Hv as [Hv H4].
    apply andb_prop in Hv. destruct Hv as [Hv H3].
    apply andb_prop in Hv. destruct Hv as [H1 H2].
    constructor; [occurs|].
    constructor;
      [destruct (Full.between 240 240 b1);
         [|destruct (Full.between 244 244 b1)]; occurs|].
    constructor; [occurs|]. constructor; [occurs|].
    apply IH; [lia | exact Hrest].
Qed.

Lemma utf8_invalid_byte (b : bytes) :
  Exists (fun x => Full.never_in_utf8 x = true) b -> Full.utf8_valid b = false.
Proof.
  intros Hex. destruct (Full.utf8_valid b) eqn:Hv; [|reflexivity].
  apply (utf8_valid_bytes (n := List.length b)) in Hv; [|lia].
  apply Exists_exists in Hex. destruct Hex as (x & Hin & Hx).
  rewrite Forall_forall in Hv. rewrite (Hv x Hin) in Hx. discriminate.
Qed.

End Utf8Facts.

Lemma get_request_made dumps urlopen (draw : nat) (sent : list Full.Request)
    (url : string) (extra_headers : option (PyDict.dict string)) (r : response) :
  accepted url ->
  let rq := {| Full.full_url := url;
               Full.headers := Full.merged_headers draw extra_headers;
               Full.method := None; Full.data := Full.VNone |} in
  urlopen sent rq = inr r ->
  Full.get dumps urlopen draw sent url extra_headers
  = (Full.decode (body r), sent ++ [rq]).
Proof.
  intros Hacc rq Hr. unfold Full.get, Full._execute_request.
  rewrite merged_headers_of_dict. cbn [Full.encode Full.truthy].
  unfold accepted in Hacc. rewrite Hacc. fold rq. rewrite Hr. reflexivity.
Qed.

(** X21. [get] sends one request that names no method and carries no
    [data], with the caller's headers over the defaults, and returns the
    body as text.  A body of ASCII bytes is returned unchanged; a body that
    holds one of the bytes 0xC0, 0xC1 or 0xF5 .. 0xFF, which occur in no
    UTF-8 text, makes [get] raise [UnicodeDecodeError] after the request
    was made. *)
Theorem get_decodes_body
    (dumps : Full.value -> option string)
    (urlopen : list Full.Request -> Full.Request -> exn + response)
    (draw : nat) (sent : list Full.Request) (url : string)
    (extra_headers : option (PyDict.dict string)) (r : response) :
  accepted url ->
  let rq := {| Full.full_url := url;
               Full.headers := Full.merged_headers draw extra_headers;
               Full.method := None; Full.data := Full.VNone |} in
  urlopen sent rq = inr r ->
  snd (Full.get dumps urlopen draw sent url extra_headers) = sent ++ [rq]
  /\ (Forall Full.is_ascii (body r) ->
      fst (Full.get dumps urlopen draw sent url extra_headers)
      = inr (string_of_list_byte (body r)))
  /\ (Exists (fun b => Full.never_in_utf8 b = true) (body r) ->
      fst (Full.get dumps urlopen draw sent url extra_headers)
      = inl Full.UnicodeDecodeError).
Proof.
  intros Hacc rq Hr.
  rewrite (@get_request_made dumps urlopen draw sent url extra_headers r Hacc Hr).
  cbn [fst snd]. unfold Full.decode. split; [reflexivity|]. split.
  - intros Hascii. rewrite (Utf8Facts.utf8_valid_ascii Hascii). reflexivity.
  - intros Hbad. rewrite (Utf8Facts.utf8_invalid_byte Hbad). reflexivity.
Qed.

Lemma get_decodes_body_witness :
  let r := {| content_range := RaisesKeyError; items := [];
              body := list_byte_of_string "<html>ok</html>" |} in
  let urlopen := fun (_ : list Full.Request) (_ : Full.Request) =>
                   (inr r : exn + response) in
  let rq := {| Full.full_url := "https://host/watch";
               Full.headers := Full.merged_headers 3 None;
               Full.method := None; Full.data := Full.VNone |} in
  Forall Full.is_ascii (body r)
  /\ snd (Full.get (fun _ => None) urlopen 3 [] "https://host/watch" None)
     = [] ++ [rq]
  /\ (Forall Full.is_ascii (body r) ->
      fst (Full.get (fun _ => None) urlopen 3 [] "https://host/watch" None)
      = inr (string_of_list_byte (body r)))
  /\ (Exists (fun b => Full.never_in_utf8 b = true) (body r) ->
      fst (Full.get (fun _ => None) urlopen 3 [] "https://host/watch" None)
      = inl Full.UnicodeDecodeError).
Proof.
  intros r urlopen rq. split; [repeat constructor|].
  apply (@get_decodes_body (fun _ => None) urlopen 3 [] "https://host/watch"
           None r).
  - reflexivity.
  - reflexivity.
Defined.

Module RangeFacts.

Lemma digits_no_dash (d : Decimal.uint) :
  parse.all_chars (fun c => negb (Ascii.eqb c "-")) (NilEmpty.string_of_uint d)
  = true.
Proof. induction d; simpl; auto. Qed.

Lemma str_no_dash (n : Z) :
  0 <= n ->
  parse.all_chars (fun c => negb (Ascii.eqb c "-")) (PyStr.str n) = true.
Proof.
  intros Hn. unfold PyStr.str.
  destruct n as [|p|p]; [reflexivity | | lia].
  cbn [Z.to_int NilZero.string_of_int].
  rewrite PyStrFacts.str_numeral
    by apply DecimalPos.Unsigned.to_uint_nonnil.
  apply digits_no_dash.
Qed.

(** The header [stream] writes reads back as the window it names. *)
Lemma parse_range_header (a b : Z) :
  0 <= a -> Full.parse_range (Full.range_header a b) = Some (a, b).
Proof.
  intros Ha. unfold Full.range_header.
  cbn [String.append Full.parse_range].
  rewrite (UrlFacts.split1_at_sep "-" (PyStr.str a) (PyStr.str b)
             (str_no_dash Ha)).
  rewrite !PyStrFacts.int_str. reflexivity.
Qed.

End RangeFacts.




